(** * A shallow embedding of [benchmark.c], the UTF-16 validation
      micro-benchmark driver of simdutf, and the properties of its
      adaptive measurement loop.

    The C program is translated function by function:

    - [size_t] and [uint64_t] values are integers [Z] reduced modulo
      [2^64] wherever the C arithmetic wraps;
    - [double] values are IEEE 754 binary64 numbers, given by the
      [spec_float] type of the standard library together with its
      correctly rounded operations ([SFadd], [SFmul], [SFdiv], ...),
      so that every expression of the source evaluates bit for bit;
    - system calls ([clock_gettime], [read], [open], [malloc],
      [perf_event_open]) draw their results from oracles carried by a
      [world] record, which also collects what is written to the
      standard output and to the error stream;
    - the functions of the source become functions in a state monad
      over [world]; the unbounded [for (;;)] loop of [run_test] takes
      fuel. *)

From Stdlib Require Import ZArith Lia Bool Ascii String.
From Stdlib Require Import Reals Lra.
From Stdlib Require Import Strings.Byte.
From Stdlib Require Import Floats.SpecFloat.
From stdpp Require Import base option list strings gmap.

Local Open Scope Z_scope.

(** ** Machine integers *)

Module SizeT.

(** [size_t] and [uint64_t] are 64 bits wide on the target. *)
Definition bits : Z := 64.
Definition modulus : Z := 2 ^ bits.
Definition SIZE_MAX : Z := modulus - 1.

Definition wrap (z : Z) : Z := z mod modulus.

Definition in_range (z : Z) : Prop := 0 <= z < modulus.

Definition add (a b : Z) : Z := wrap (a + b).
Definition sub (a b : Z) : Z := wrap (a - b).
Definition mul (a b : Z) : Z := wrap (a * b).

End SizeT.

(** ** Doubles *)

Module Double.

Definition prec : Z := 53.
Definition emax : Z := 1024.

Definition double : Type := spec_float.

Definition add : double -> double -> double := SFadd prec emax.
Definition mul : double -> double -> double := SFmul prec emax.
Definition div : double -> double -> double := SFdiv prec emax.
Definition ltb : double -> double -> bool := SFltb.
Definition leb : double -> double -> bool := SFleb.

(** Conversion of an integer to [double], rounding to nearest, ties
    to even: [(double)m]. *)
Definition of_Z (z : Z) : double := binary_normalize prec emax z 0 false.

(** The mantissa of a finite double with its sign. *)
Definition signed_mantissa (s : bool) (m : positive) : Z :=
  cond_Zopp s (Zpos m).

(** [ceil] of math.h: the least integral double not below [x]. *)
Definition ceil (x : double) : double :=
  match x with
  | S754_finite s m e =>
      if 0 <=? e then x
      else
        let c := - ((- signed_mantissa s m) / 2 ^ (- e)) in
        if c =? 0 then S754_zero s else of_Z c
  | _ => x
  end.

(** Truncation toward zero of a finite double, as an integer. *)
Definition trunc (s : bool) (m : positive) (e : Z) : Z :=
  cond_Zopp s (if 0 <=? e then Zpos m * 2 ^ e else Zpos m / 2 ^ (- e)).

(** Conversion of a double to [size_t]. The C standard leaves the
    conversion undefined when the truncated value does not fit (and
    for infinities and NaN): the result is then [None]. *)
Definition to_size_t (x : double) : option Z :=
  match x with
  | S754_zero _ => Some 0
  | S754_finite s m e =>
      let t := trunc s m e in
      if (0 <=? t) && (t <? SizeT.modulus) then Some t else None
  | _ => None
  end.

Definition is_nan (x : double) : bool :=
  match x with S754_nan => true | _ => false end.

(** The floating constants of the source. Each literal denotes the
    double nearest to its decimal value. *)
Definition c2_0 : double := S754_finite false 4503599627370496 (-51).
Definition c0_5 : double := S754_finite false 4503599627370496 (-53).
Definition c1_05 : double := S754_finite false 4728779608739021 (-52).
Definition c1e_9 : double := S754_finite false 4835703278458517 (-82).
Definition c1e9 : double := S754_finite false 8388608000000000 (-23).
Definition c1e_6 : double := S754_finite false 4722366482869645 (-72).

End Double.

Import Double.

(** ** Time *)

(** [struct timespec]: [tv_sec] is a [time_t], [tv_nsec] a [long]. *)
Record timespec := { tv_sec : Z; tv_nsec : Z }.

#[local] Open Scope Z_scope.

(** [#define TIME_GOAL 2.0] *)
Definition TIME_GOAL : double := c2_0.

(** [tsdiff]: the difference between two timespec as a double. *)
Definition tsdiff (start end_ : timespec) : double :=
  let sec := tv_sec end_ - tv_sec start in
  let nsec := tv_nsec end_ - tv_nsec start in
  let '(sec, nsec) :=
    if nsec <? 0 then (sec - 1, nsec + 1000000000) else (sec, nsec) in
  add (of_Z sec) (mul (of_Z nsec) c1e_9).

(** ** The environment *)

(** What the program writes to the error stream. *)
Inductive diag :=
| Perror (what : string)
    (** [perror(what)] *)
| ShortFile (filename : string) (got n : Z)
    (** ["%s: file shorter than expected (%zu B < %zu B)\n"] *)
| Warning (filename : string)
    (** ["Warning (%s): did not validate\n"] *)
| Usage (prog : string).

(** One result line of [print_results]; the numbers are kept as the
    doubles handed to [printf], before their [%.8g] rendering. *)
Record line := {
  l_initial : ascii;          (** [toupper(name[0])] *)
  l_rest : string;            (** [name+1] *)
  l_filename : string;
  l_m : Z;
  l_ns_per_op : double;
  l_MBps : double;
  l_hw : option (double * double * double)
    (** cy/B, ins/B and ipc, when they are printed *)
}.

(** What the program writes to the standard output. *)
Inductive out_item :=
| OutFail (name : option string)   (** ["FAIL\t%s\n"] *)
| OutLine (l : line).

(** A stream of answers of the operating system, consumed front first. *)
Definition stream (A : Type) : Type := nat -> A.
Definition shead {A} (s : stream A) : A := s O.
Definition stail {A} (s : stream A) : stream A := fun k => s (S k).

Record world := {
  w_clock : stream (option timespec);
    (** results of [clock_gettime]; [None] is the return value -1 *)
  w_perf : stream (option (list Z));
    (** results of [read(event_group, ...)]: the 64-bit words the
        kernel delivers, or [None] for a negative count *)
  w_perf_open : stream Z;
    (** results of [perf_event_open]: a descriptor, or -1 *)
  w_alloc : stream bool;
    (** whether [memory_allocate] returns a non-null pointer *)
  w_open : stream bool;
    (** whether [open] succeeds on an existing file *)
  w_chunk : stream Z;
    (** for each [read] on a file: negative for an error, otherwise
        how many bytes the kernel is ready to deliver at most *)
  w_fs : gmap string (list byte);
    (** the files *)
  w_overflow : Z;
    (** how many bytes have been stored past the end of a heap block *)
  w_stdout : list out_item;
  w_stderr : list diag
}.

(** The state monad of the program. *)
Definition M (A : Type) : Type := world -> A * world.

#[global] Instance M_ret : MRet M := fun A (a : A) w => (a, w).
#[global] Instance M_bind : MBind M :=
  fun A B (f : A -> M B) (c : M A) w => let '(a, w') := c w in f a w'.

Definition run {A} (c : M A) (w : world) : A * world := c w.

Definition set_clock (s : stream (option timespec)) (w : world) : world :=
  {| w_clock := s; w_perf := w_perf w; w_perf_open := w_perf_open w;
     w_alloc := w_alloc w; w_open := w_open w; w_chunk := w_chunk w;
     w_fs := w_fs w; w_overflow := w_overflow w;
     w_stdout := w_stdout w; w_stderr := w_stderr w |}.
Definition set_perf (s : stream (option (list Z))) (w : world) : world :=
  {| w_clock := w_clock w; w_perf := s; w_perf_open := w_perf_open w;
     w_alloc := w_alloc w; w_open := w_open w; w_chunk := w_chunk w;
     w_fs := w_fs w; w_overflow := w_overflow w;
     w_stdout := w_stdout w; w_stderr := w_stderr w |}.
Definition set_perf_open (s : stream Z) (w : world) : world :=
  {| w_clock := w_clock w; w_perf := w_perf w; w_perf_open := s;
     w_alloc := w_alloc w; w_open := w_open w; w_chunk := w_chunk w;
     w_fs := w_fs w; w_overflow := w_overflow w;
     w_stdout := w_stdout w; w_stderr := w_stderr w |}.
Definition set_alloc (s : stream bool) (w : world) : world :=
  {| w_clock := w_clock w; w_perf := w_perf w; w_perf_open := w_perf_open w;
     w_alloc := s; w_open := w_open w; w_chunk := w_chunk w;
     w_fs := w_fs w; w_overflow := w_overflow w;
     w_stdout := w_stdout w; w_stderr := w_stderr w |}.
Definition set_open (s : stream bool) (w : world) : world :=
  {| w_clock := w_clock w; w_perf := w_perf w; w_perf_open := w_perf_open w;
     w_alloc := w_alloc w; w_open := s; w_chunk := w_chunk w;
     w_fs := w_fs w; w_overflow := w_overflow w;
     w_stdout := w_stdout w; w_stderr := w_stderr w |}.
Definition set_chunk (s : stream Z) (w : world) : world :=
  {| w_clock := w_clock w; w_perf := w_perf w; w_perf_open := w_perf_open w;
     w_alloc := w_alloc w; w_open := w_open w; w_chunk := s;
     w_fs := w_fs w; w_overflow := w_overflow w;
     w_stdout := w_stdout w; w_stderr := w_stderr w |}.
Definition set_overflow (z : Z) (w : world) : world :=
  {| w_clock := w_clock w; w_perf := w_perf w; w_perf_open := w_perf_open w;
     w_alloc := w_alloc w; w_open := w_open w; w_chunk := w_chunk w;
     w_fs := w_fs w; w_overflow := z;
     w_stdout := w_stdout w; w_stderr := w_stderr w |}.
Definition set_stdout (o : list out_item) (w : world) : world :=
  {| w_clock := w_clock w; w_perf := w_perf w; w_perf_open := w_perf_open w;
     w_alloc := w_alloc w; w_open := w_open w; w_chunk := w_chunk w;
     w_fs := w_fs w; w_overflow := w_overflow w;
     w_stdout := o; w_stderr := w_stderr w |}.
Definition set_stderr (e : list diag) (w : world) : world :=
  {| w_clock := w_clock w; w_perf := w_perf w; w_perf_open := w_perf_open w;
     w_alloc := w_alloc w; w_open := w_open w; w_chunk := w_chunk w;
     w_fs := w_fs w; w_overflow := w_overflow w;
     w_stdout := w_stdout w; w_stderr := e |}.

(** *** System calls and output *)

Definition clock_gettime : M (option timespec) :=
  fun w => (shead (w_clock w), set_clock (stail (w_clock w)) w).

(** [read(event_group, buf, k * sizeof(uint64_t))]: at most [k] words
    are delivered. *)
Definition read_group (k : Z) : M (option (list Z)) :=
  fun w => (take (Z.to_nat k) <$> shead (w_perf w),
            set_perf (stail (w_perf w)) w).

Definition perf_event_open : M Z :=
  fun w => (shead (w_perf_open w), set_perf_open (stail (w_perf_open w)) w).

Definition print (o : out_item) : M unit :=
  fun w => (tt, set_stdout (w_stdout w ++ [o]) w).

Definition eprint (d : diag) : M unit :=
  fun w => (tt, set_stderr (w_stderr w ++ [d]) w).

Definition perror (what : string) : M unit := eprint (Perror what).

(** ** Hardware counters *)

(** Values of [<linux/perf_event.h>]. *)
Definition PERF_TYPE_HARDWARE : Z := 0.
Definition PERF_COUNT_HW_CPU_CYCLES : Z := 0.
Definition PERF_COUNT_HW_INSTRUCTIONS : Z := 1.

(** [enum { EVENT_COUNT = 2 }] *)
Definition EVENT_COUNT : Z := 2.

(** [struct event] *)
Record event := { ev_type : Z; fd : Z; conf : Z }.

(** The file-scope variables [event_group], [num_counters], [events]. *)
Record globals := {
  event_group : Z;
  num_counters : Z;
  events : list event
}.

Definition globals0 : globals :=
  {| event_group := -1;
     num_counters := 0;
     events := [ {| ev_type := PERF_TYPE_HARDWARE; fd := -1;
                    conf := PERF_COUNT_HW_CPU_CYCLES |};
                 {| ev_type := PERF_TYPE_HARDWARE; fd := -1;
                    conf := PERF_COUNT_HW_INSTRUCTIONS |} ] |}.

(** Array access with a C [int] index: [None] outside the array. *)
Definition index {A} (l : list A) (i : Z) : option A :=
  if i <? 0 then None else l !! Z.to_nat i.

Definition store {A} (l : list A) (i : Z) (x : A) : option (list A) :=
  if (0 <=? i) && (i <? Z.of_nat (length l))
  then Some (<[Z.to_nat i := x]> l) else None.

(** The body of the loop of [init_counters], for the event [i]. *)
Definition init_counter (i : nat) (g : globals) : M globals :=
  match events g !! i with
  | None => mret g
  | Some ev =>
      r ← perf_event_open;
      let evs := <[i := {| ev_type := ev_type ev; fd := r; conf := conf ev |}]>
                   (events g) in
      if r =? -1 then
        _ ← perror "perf_event_open";
        mret {| event_group := event_group g;
                num_counters := num_counters g; events := evs |}
      else
        mret {| event_group :=
                  if event_group g =? -1 then r else event_group g;
                num_counters := num_counters g + 1;
                events := evs |}
  end.

(** [init_counters]: set up performance counters. *)
Definition init_counters (g : globals) : M globals :=
  foldl (fun (c : M globals) (i : nat) => g' ← c; init_counter i g')
        (mret g) (seq 0 (Z.to_nat EVENT_COUNT)).

(** [struct counters]: the state of the counters at one point in time;
    [ctr] is the array [counters[2 * EVENT_COUNT + 1]]. *)
Record counters := { ts : timespec; ctr : list Z }.

Definition CTR_LEN : nat := Z.to_nat (2 * EVENT_COUNT + 1).

(** A declared but uninitialised [struct counters]: its content is
    whatever the stack holds, here [c]. *)
Definition declare_counters (c : counters) : counters :=
  {| ts := ts c; ctr := resize CTR_LEN 0 (ctr c) |}.

(** Words delivered by the kernel land at the front of the array. *)
Definition overlay (vals old : list Z) : list Z :=
  vals ++ drop (length vals) old.

(** [reset_counters]: set counters to their current value. The result
    is the returned [int] together with the updated [*c]. *)
Definition reset_counters (g : globals) (c : counters) : M (Z * counters) :=
  r ← clock_gettime;
  match r with
  | None => _ ← perror "clock_gettime"; mret (-1, c)
  | Some t =>
      let c := {| ts := t; ctr := ctr c |} in
      if negb (event_group g =? -1) then
        r ← read_group (2 * num_counters g + 1);
        match r with
        | None => _ ← perror "read(event_group, ...)"; mret (-1, c)
        | Some vals => mret (0, {| ts := t; ctr := overlay vals (ctr c) |})
        end
      else mret (0, c)
  end.

(** [counterdiff]: the difference between the two counter vectors.

    The source reads [for (i, j = 0; i < EVENT_COUNT; i++)]: the first
    clause is the comma expression [i, j = 0], which evaluates [i] and
    assigns [j] only. The loop therefore starts at whatever value the
    uninitialised [i] holds, the parameter [i0] here. An access outside
    [events] or [out] makes the result [None]. *)
Fixpoint counterdiff_loop (fuel : nat) (g : globals) (i j : Z)
    (out start end_ : list Z) : option (list Z) :=
  if i <? EVENT_COUNT then
    match fuel with
    | O => None
    | S fuel' =>
        ev ← index (events g) i;
        if fd ev =? -1 then
          out' ← store out i 0;
          counterdiff_loop fuel' g (i + 1) j out' start end_
        else
          e ← index end_ (2 * j + 1);
          s ← index start (2 * j + 1);
          out' ← store out i (SizeT.sub e s);
          counterdiff_loop fuel' g (i + 1) (j + 1) out' start end_
    end
  else Some out.

Definition counterdiff (g : globals) (i0 : Z) (out start end_ : list Z)
  : option (list Z) :=
  counterdiff_loop (Z.to_nat EVENT_COUNT) g i0 0 out start end_.

(** What the uninitialised automatic variables of the program hold
    when they are first read. *)
Record indeterminate := {
  u_i : Z;                (** [i] of [counterdiff] *)
  u_counts : list Z;      (** [counts] of [print_results] *)
  u_start : counters;     (** [start] of [run_test] *)
  u_end : counters        (** [end] of [run_test] *)
}.

(** ** Reporting *)

(** [toupper] in the C locale. *)
Definition toupper (c : ascii) : ascii :=
  let n := nat_of_ascii c in
  if (97 <=? n)%nat && (n <=? 122)%nat then ascii_of_nat (n - 32) else c.

Definition word (l : list Z) (i : nat) : Z := default 0 (l !! i).

(** The values [print_results] hands to [printf], [counts] being the
    array filled by [counterdiff] and [elapsed] the value of [tsdiff]. *)
Definition format_line (g : globals) (counts : list Z) (elapsed : double)
    (name : option string) (filename : string) (n m : Z) : line :=
  (* if (name == NULL || name[0] == '\0') name = " "; *)
  let name :=
    match name with
    | None | Some EmptyString => " "%string
    | Some s => s
    end in
  let '(c, rest) :=
    match name with
    | EmptyString => (" "%char, EmptyString)
    | String c rest => (c, rest)
    end in
  let nm := mul (of_Z n) (of_Z m) in
  {| l_initial := toupper c; l_rest := rest;
     l_filename := filename; l_m := m;
     (* (elapsed * 1e9) / m, (1e-6 * n * m) / elapsed *)
     l_ns_per_op := div (mul elapsed c1e9) (of_Z m);
     l_MBps := div (mul (mul c1e_6 (of_Z n)) (of_Z m)) elapsed;
     l_hw :=
       if num_counters g =? EVENT_COUNT then
         (* counts[0]/((double)n * m), counts[1]/((double)n * m),
            (double)counts[1] / counts[0] *)
         Some (div (of_Z (word counts 0)) nm,
               div (of_Z (word counts 1)) nm,
               div (of_Z (word counts 1)) (of_Z (word counts 0)))
       else None |}.

(** [print_results]: print test results. The value is [false] when
    [counterdiff] went outside its arrays, in which case the model
    prints nothing. *)
Definition print_results (g : globals) (u : indeterminate)
    (name : option string) (start end_ : counters)
    (filename : string) (n m : Z) : M bool :=
  let counts0 := resize (Z.to_nat EVENT_COUNT) 0 (u_counts u) in
  let elapsed := tsdiff (ts start) (ts end_) in
  match counterdiff g (u_i u) counts0 (ctr start) (ctr end_) with
  | None => mret false
  | Some counts =>
      _ ← print (OutLine (format_line g counts elapsed name filename n m));
      mret true
  end.

(** ** Loading the input file *)

(** A block obtained from [memory_allocate]. *)
Record buffer := { buf_size : Z; buf_data : list byte }.

(** The size handed to the allocator:
    [#define memory_allocate(size) aligned_alloc(64, (size) + 63 & ~63)]
    when [ALIGN] is defined, [malloc(size)] otherwise. *)
Definition allocation_size (align : bool) (size : Z) : Z :=
  if align then Z.land (SizeT.add size 63) (SizeT.wrap (Z.lnot 63)) else size.

Definition memory_allocate (align : bool) (size : Z) : M (option buffer) :=
  fun w =>
    let sz := allocation_size align size in
    ((if shead (w_alloc w)
      then Some {| buf_size := sz; buf_data := replicate (Z.to_nat sz) x00 |}
      else None),
     set_alloc (stail (w_alloc w)) w).

(** [open(filename, O_RDONLY)]: the content behind the descriptor. *)
Definition open_file (filename : string) : M (option (list byte)) :=
  fun w =>
    ((if shead (w_open w) then w_fs w !! filename else None),
     set_open (stail (w_open w)) w).

(** [read(fd, buf, req)] at file offset [pos]: the count returned and
    the bytes delivered. At least one byte is delivered unless the
    offset is at the end of the file. *)
Definition sys_read (content : list byte) (pos req : Z)
  : M (Z * list byte) :=
  fun w =>
    let chunk := shead (w_chunk w) in
    let w' := set_chunk (stail (w_chunk w)) w in
    if chunk <? 0 then ((-1, []), w')
    else
      let avail := Z.of_nat (length content) - pos in
      let k := Z.max 0 (Z.min req (Z.min avail (Z.max 1 chunk))) in
      ((k, take (Z.to_nat k) (drop (Z.to_nat pos) content)), w').

(** The kernel stores [bs] at offset [off] of the block: what fits is
    stored, the rest goes past the end of the block and is counted in
    [w_overflow]. *)
Definition store_bytes (b : buffer) (off : Z) (bs : list byte) : M buffer :=
  fun w =>
    let room := Z.to_nat (buf_size b - off) in
    let inside := take room bs in
    ({| buf_size := buf_size b;
        buf_data := take (Z.to_nat off) (buf_data b) ++ inside
                    ++ drop (Z.to_nat off + length inside) (buf_data b) |},
     set_overflow (w_overflow w + Z.of_nat (length bs - room)) w).

(** The [while (rem > 0)] loop of [test_utf16le_validate]. Every turn
    lowers [rem] by one at least, so [Z.to_nat rem] turns are enough:
    with that much fuel the loop is left through its own condition. *)
Fixpoint read_loop (fuel : nat) (filename : string) (content : list byte)
    (n rem : Z) (data : buffer) : M (Z * buffer) :=
  match fuel with
  | O => mret (0, data)
  | S fuel' =>
      if 0 <? rem then
        '(count, bs) ← sys_read content (n - rem) rem;
        if count <? 0 then
          _ ← perror filename; mret (-1, data)
        else if count =? 0 then
          _ ← eprint (ShortFile filename (n - rem) n); mret (-1, data)
        else
          data' ← store_bytes data (n - rem) bs;
          read_loop fuel' filename content n (rem - count) data'
      else mret (0, data)
  end.

(** The buffer seen as [char16_t] units on the little-endian target. *)
Fixpoint units (bs : list byte) : list Z :=
  match bs with
  | lo :: hi :: rest =>
      (Z.of_N (Byte.to_N lo) + 256 * Z.of_N (Byte.to_N hi)) :: units rest
  | _ => []
  end.

(** [typedef size_t utf16le_validate(const char16_t buf[], size_t len)] *)
Definition utf16le_validate : Type := list Z -> Z -> Z.

(** [for (i = 0; i < m; i++) sum += validate(data, len);] with [k]
    turns left, [v] being what the routine returns on the buffer. *)
Fixpoint validate_loop (k : nat) (v : Z) (sum : Z) : Z :=
  match k with
  | O => sum
  | S k' => validate_loop k' v (SizeT.add sum v)
  end.

(** The value of [sum] after the loop, started from [sum = 0]. *)
Definition validate_sum (m v : Z) : Z := validate_loop (Z.to_nat m) v 0.

(** [test_utf16le_validate]: test UTF-16 validation by reading a file
    of [n] bytes from [filename]. *)
Definition test_utf16le_validate (align : bool) (g : globals)
    (c : counters) (validate : utf16le_validate)
    (filename : string) (n m : Z) : M (Z * counters) :=
  let len := n / 2 in
  data ← memory_allocate align (SizeT.mul len 2);
  match data with
  | None => _ ← perror "memory_allocate"; mret (-1, c)
  | Some data =>
      f ← open_file filename;
      match f with
      | None => _ ← perror filename; mret (-1, c)
      | Some content =>
          '(r, data) ← read_loop (Z.to_nat n) filename content n n data;
          if negb (r =? 0) then mret (-1, c)
          else
            '(res, c) ← reset_counters g c;
            if negb (res =? 0) then mret (-1, c)
            else
              let v := validate (take (Z.to_nat len) (units (buf_data data)))
                                len in
              let sum := validate_sum m v in
              _ ← (if negb (sum =? SizeT.mul len m)
                   then eprint (Warning filename) else mret tt);
              mret (0, c)
      end
  end.

(** ** The adaptive driver *)

(** [typedef int testfunc(struct counters *c, void *payload,
    const char *filename, size_t n, size_t m)]; the payload type is a
    parameter. *)
Definition testfunc (P : Type) : Type :=
  counters -> P -> string -> Z -> Z -> M (Z * counters).

(** One completed pass of the loop of [run_test]: the multiplier and
    the warm-up flag it ran with, and the two measurement points. *)
Record pass := {
  p_m : Z;
  p_first_run : bool;
  p_start : counters;
  p_end : counters
}.

Definition p_elapsed (p : pass) : double :=
  tsdiff (ts (p_start p)) (ts (p_end p)).

(** How one turn of the loop ends. *)
Inductive step :=
| SFail
    (** [printf("FAIL\t%s\n", name); return;] *)
| SUndefined (p : pass)
    (** the conversion of [ceil(...)] to [size_t] is undefined *)
| SAgain (m' : Z) (p : pass)
    (** next turn with multiplier [m'], through [continue] or through
        the end of the body; [first_run = 0] either way *)
| SBreak (p : pass).
    (** [break] *)

(** The new multiplier after a pass that stayed below the time goal. *)
Definition grow (m : Z) (elapsed : double) : option Z :=
  if ltb elapsed (mul TIME_GOAL c0_5) then
    (* m *= 2 *)
    Some (SizeT.mul m 2)
  else
    (* newm = ceil(m * TIME_GOAL * 1.05 / elapsed);
       m = newm > m ? newm : m + 1; *)
    newm ← to_size_t (ceil (div (mul (mul (of_Z m) TIME_GOAL) c1_05) elapsed));
    Some (if m <? newm then newm else SizeT.add m 1).

Section Driver.

Context {P : Type}.
Variable g : globals.
Variable u : indeterminate.
Variable name : option string.
Variable test : testfunc P.
Variable payload : P.
Variable filename : string.
Variable n : Z.

Definition fail : M step := _ ← print (OutFail name); mret SFail.

(** The body of [for (;; first_run = 0)]. *)
Definition loop_body (m : Z) (first_run : bool) (start end_ : counters)
  : M step :=
  '(res, start) ← reset_counters g start;
  if negb (res =? 0) then fail
  else
    '(res, start) ← test start payload filename n m;
    if negb (res =? 0) then fail
    else
      '(res, end_) ← reset_counters g end_;
      if negb (res =? 0) then fail
      else
        let p := {| p_m := m; p_first_run := first_run;
                    p_start := start; p_end := end_ |} in
        let elapsed := tsdiff (ts start) (ts end_) in
        if ltb elapsed TIME_GOAL then
          match grow m elapsed with
          | Some m' => mret (SAgain m' p)
          | None => mret (SUndefined p)
          end
        else if first_run then mret (SAgain m p)
        else mret (SBreak p).

(** How [run_test] ends. *)
Inductive status :=
| OutOfFuel     (** the loop is still running *)
| Undefined     (** undefined behaviour was reached *)
| Failed        (** [FAIL] was printed *)
| Reported.     (** a result line was printed *)

(** The outcome of [run_test] with the passes it completed, oldest
    first. *)
Record run_result := { r_status : status; r_passes : list pass }.

Definition add_pass (p : pass) (r : run_result) : run_result :=
  {| r_status := r_status r; r_passes := p :: r_passes r |}.

Fixpoint run_test_loop (fuel : nat) (m : Z) (first_run : bool)
    (start end_ : counters) : M run_result :=
  match fuel with
  | O => mret {| r_status := OutOfFuel; r_passes := [] |}
  | S fuel' =>
      s ← loop_body m first_run start end_;
      match s with
      | SFail => mret {| r_status := Failed; r_passes := [] |}
      | SUndefined p => mret {| r_status := Undefined; r_passes := [p] |}
      | SAgain m' p =>
          r ← run_test_loop fuel' m' false (p_start p) (p_end p);
          mret (add_pass p r)
      | SBreak p =>
          ok ← print_results g u name (p_start p) (p_end p) filename n m;
          mret {| r_status := if ok : bool then Reported else Undefined;
                  r_passes := [p] |}
      end
  end.

(** [run_test]: run one test case for the specified [n] and print
    the result. *)
Definition run_test (fuel : nat) : M run_result :=
  run_test_loop fuel 1 true
    (declare_counters (u_start u)) (declare_counters (u_end u)).

End Driver.

Arguments run_result : clear implicits.

(** ** The program *)

(** [struct utf16le_validate_method]: the table [methods] up to its
    terminating null entry. *)
Definition method : Type := string * utf16le_validate.

Section Main.

Variable align : bool.
Variable u : indeterminate.
Variable methods : list method.
Variable fuel : nat.

(** [stat(path, &st)]: the size of the file, if there is one. *)
Definition stat (path : string) : M (option Z) :=
  fun w => ((fun c => Z.of_nat (length c)) <$> w_fs w !! path, w).

Definition run_methods (g : globals) (path : string) (len : Z) : M unit :=
  foldl (fun (c : M unit) (me : method) =>
           _ ← c;
           _ ← run_test g u (Some me.1) (test_utf16le_validate align g)
                 me.2 path len fuel;
           mret tt)
        (mret tt) methods.

Definition run_file (g : globals) (path : string) : M unit :=
  st ← stat path;
  match st with
  | None => perror path
  | Some size =>
      let len := if SizeT.SIZE_MAX <? size then SizeT.SIZE_MAX else size in
      run_methods g path len
  end.

(** [main]; [argv] is the whole argument vector, program name first.
    The value is the exit status. *)
Definition main (argv : list string) : M Z :=
  g ← init_counters globals0;
  match argv with
  | [] => _ ← eprint (Usage ""); mret 1
  | [prog] => _ ← eprint (Usage prog); mret 1
  | _ :: files =>
      _ ← foldl (fun (c : M unit) (path : string) =>
                   _ ← c; run_file g path) (mret tt) files;
      mret 0
  end.

End Main.


(** * Specification vocabulary *)

(** ** Doubles and time *)

(** Zeros and finite numbers, as opposed to infinities and NaN. *)
Definition is_finite (x : double) : bool :=
  match x with S754_zero _ | S754_finite _ _ _ => true | _ => false end.

(** What [clock_gettime] delivers for a CPU-time clock: a non-negative
    [time_t] and a nanosecond count below one second. *)
Definition valid_timespec (t : timespec) : Prop :=
  0 <= tv_sec t < 2 ^ 63 /\ 0 <= tv_nsec t < 1000000000.

(** A timespec in nanoseconds. *)
Definition nanoseconds (t : timespec) : Z :=
  tv_sec t * 1000000000 + tv_nsec t.

(** ** The shape of a run of the adaptive loop *)

(** [below p]: the pass [p] stayed below the time goal, as tested by
    [elapsed < TIME_GOAL] in the source. *)
Definition below (p : pass) : bool := ltb (p_elapsed p) TIME_GOAL.

(** [trace m first ps st]: started with multiplier [m] and warm-up
    flag [first], the loop completes the passes [ps] and ends with
    status [st]. *)
Inductive trace : Z -> bool -> list pass -> status -> Prop :=
| trace_out_of_fuel m first :
    trace m first [] OutOfFuel
| trace_failed m first :
    trace m first [] Failed
| trace_undefined m first p :
    p_m p = m -> p_first_run p = first ->
    below p = true -> grow m (p_elapsed p) = None ->
    trace m first [p] Undefined
| trace_grow m first p m' ps st :
    p_m p = m -> p_first_run p = first ->
    below p = true -> grow m (p_elapsed p) = Some m' ->
    trace m' false ps st ->
    trace m first (p :: ps) st
| trace_warm_up m p ps st :
    p_m p = m -> p_first_run p = true ->
    below p = false ->
    trace m false ps st ->
    trace m true (p :: ps) st
| trace_accept m p st :
    p_m p = m -> p_first_run p = false ->
    below p = false ->
    st = Reported \/ st = Undefined ->
    trace m false [p] st.

(** [follows p q]: the pass [q] is a legitimate successor of [p]. *)
Definition follows (p q : pass) : Prop :=
  p_first_run q = false /\
  (below p = true /\ grow (p_m p) (p_elapsed p) = Some (p_m q) \/
   below p = false /\ p_first_run p = true /\ p_m q = p_m p).

(** The array [counts] as [counterdiff] leaves it for the pass [p]. *)
Definition counts_of (g : globals) (u : indeterminate) (p : pass)
  : option (list Z) :=
  counterdiff g (u_i u) (resize (Z.to_nat EVENT_COUNT) 0 (u_counts u))
    (ctr (p_start p)) (ctr (p_end p)).

(** The line of a pass, should it be the accepted one. *)
Definition line_of (g : globals) (name : option string) (filename : string)
    (n : Z) (counts : list Z) (p : pass) : line :=
  format_line g counts (p_elapsed p) name filename n (p_m p).

(** ** The growth policy in the words of the specification *)

(** "If [elapsed < TIME_GOAL / 2]: double m. Else: set
    [m = max(m + 1, ceil(m * TIME_GOAL * 1.05 / elapsed))]." The value
    is stored in the [size_t] variable [m]; it is [None] where the C
    conversion of the ceiling to [size_t] is undefined. *)
Definition spec_grow (m : Z) (elapsed : double) : option Z :=
  if ltb elapsed (div TIME_GOAL (of_Z 2)) then Some (SizeT.wrap (2 * m))
  else
    c ← to_size_t (ceil (div (mul (mul (of_Z m) TIME_GOAL) c1_05) elapsed));
    Some (SizeT.wrap (Z.max (m + 1) c)).

(** The multipliers of the passes of a run, oldest first. *)
Definition multipliers (r : run_result) : list Z := p_m <$> r_passes r.

(** ** Monotony of the multiplier *)

(** The multiplier never goes down from one pass to the next. *)
Definition never_lowered (r : run_result) : Prop :=
  forall i a b,
    multipliers r !! i = Some a -> multipliers r !! S i = Some b -> a <= b.

(** The sum of [m] equal terms [v] in [size_t] arithmetic. *)
Definition closed_sum (m v : Z) : Z := SizeT.wrap (Z.max 0 m * v).

(** ** Doubles as real numbers *)

(** The real number a finite double stands for; 0 for the others. *)
Definition value (x : double) : R :=
  match x with
  | S754_finite s m e => (IZR (cond_Zopp s (Zpos m)) * powerRZ 2 e)%R
  | _ => 0%R
  end.

(** [2^-52], the distance from 1 to the next double. *)
Definition ulp1 : R := (/ 4503599627370496)%R.

(** A positive normal double whose exponent lies in [lo .. hi]. *)
Definition normal (lo hi : Z) (x : double) : Prop :=
  exists m e, x = S754_finite false m e /\
    2 ^ 52 <= Zpos m < 2 ^ 53 /\ lo <= e <= hi.

(** [x] is [X] up to the relative error [eps]. *)
Definition near (eps x X : R) : Prop :=
  (X * (1 - eps) <= x <= X * (1 + eps))%R.

(** A double that is zero or normal, of either sign. *)
Definition zero_or_normal (lo hi : Z) (x : double) : Prop :=
  x = S754_zero false \/
  exists s m e, x = S754_finite s m e /\
    2 ^ 52 <= Zpos m < 2 ^ 53 /\ lo <= e <= hi.

(** ** Counter differences *)

(** The counter of the [j]-th open event between two snapshots: the
    group is read with [PERF_FORMAT_GROUP | PERF_FORMAT_ID], so the
    words are the number of events, then a value and an identifier
    per event. *)
Definition delta (start end_ : list Z) (j : nat) : Z :=
  SizeT.sub (word end_ (2 * j + 1)) (word start (2 * j + 1)).

(** What [counterdiff] is meant to leave in [out]: for each event in
    turn, 0 when its handle is absent, the difference of its counter
    otherwise. *)
Definition expected_counts (g : globals) (start end_ : list Z) : list Z :=
  match events g with
  | [e0; e1] =>
      [ if fd e0 =? -1 then 0 else delta start end_ 0;
        if fd e1 =? -1 then 0
        else delta start end_ (if fd e0 =? -1 then 0 else 1) ]
  | _ => []
  end.

(** The three hardware columns computed from a vector of counts. *)
Definition hw_columns (counts : list Z) (n m : Z)
  : double * double * double :=
  (div (of_Z (word counts 0)) (mul (of_Z n) (of_Z m)),
   div (of_Z (word counts 1)) (mul (of_Z n) (of_Z m)),
   div (of_Z (word counts 1)) (of_Z (word counts 0))).

(** All configured events have a handle. *)
Definition all_open (g : globals) : Prop :=
  Forall (fun ev => fd ev <> -1) (events g).

(** ** Loading the input file *)

(** [loaded data content off]: the block holds as many bytes as it was
    allocated for, and the first [off] bytes of the file are in it, as
    far as the block goes. *)
Definition loaded (data : buffer) (content : list byte) (off : Z) : Prop :=
  Z.of_nat (length (buf_data data)) = buf_size data /\
  take (Z.to_nat (Z.min off (buf_size data))) (buf_data data)
  = take (Z.to_nat (Z.min off (buf_size data))) content.

(** Nothing fails before the end of the file is met: the first clock
    and counter reads, the allocation and [open] succeed, and no
    [read] returns an error. *)
Definition no_failure_but_eof (g : globals) (w : world) : Prop :=
  is_Some (shead (w_clock w)) /\
  (event_group g = -1 \/ is_Some (shead (w_perf w))) /\
  shead (w_alloc w) = true /\
  shead (w_open w) = true /\
  forall k, 0 <= w_chunk w k.

(** ** The correctness check *)

(** What the check of one call of the test function writes. *)
Definition check_output (validate : utf16le_validate) (filename : string)
    (n m : Z) (data : list byte) : list diag :=
  let len := n / 2 in
  let v := validate (take (Z.to_nat len) (units data)) len in
  if negb (validate_sum m v =? SizeT.mul len m)
  then [Warning filename] else [].

(** Lines are added to the standard output, [k] of them at most. *)
Definition adds (w0 : world) (k : nat) (w : world) : Prop :=
  exists out, w_stdout w = w_stdout w0 ++ out /\ (length out <= k)%nat.

(** Two worlds that differ by the error stream at most. *)
Definition same_but_stderr (w1 w2 : world) : Prop :=
  w2 = set_stderr (w_stderr w2) w1.

(** Two computations that return the same value and make the same
    changes to the world, the error stream apart, when started in
    worlds that differ by the error stream at most. *)
Definition alike {A} (c1 c2 : M A) : Prop :=
  forall w1 w2 a1 a2 w1' w2',
    same_but_stderr w1 w2 ->
    c1 w1 = (a1, w1') -> c2 w2 = (a2, w2') ->
    a1 = a2 /\ same_but_stderr w1' w2'.

(** * Sample environments *)

Module Sample.

Definition at_ (s ns : Z) : option timespec :=
  Some {| tv_sec := s; tv_nsec := ns |}.

(** The stream that delivers the elements of [l], then [d] for ever. *)
Definition script {A} (d : A) (l : list A) : stream A :=
  fun k => default d (l !! k).

(** Four bytes: the UTF-16LE text ["AB"]. *)
Definition text : list byte := [x41; x00; x42; x00].

Definition zero : counters :=
  {| ts := {| tv_sec := 0; tv_nsec := 0 |}; ctr := [] |}.

(** Uninitialised variables that happen to hold zero, except the two
    words of [counts]. *)
Definition u0 : indeterminate :=
  {| u_i := 0; u_counts := [11; 12]; u_start := zero; u_end := zero |}.

(** The same, except that [i] of [counterdiff] holds 2, 1 or -1. *)
Definition u_i_is (i : Z) : indeterminate :=
  {| u_i := i; u_counts := [11; 12]; u_start := zero; u_end := zero |}.

(** A machine where every call succeeds: both counters open, the
    kernel delivers at most three bytes per [read], the cycle counter
    advances by 100 and the instruction counter by 300 between two
    reads of the group. The clock follows [clk]. *)
Definition calm (clk : list (option timespec)) (file : list byte) : world :=
  {| w_clock := script None clk;
     w_perf := fun k => Some [2; 100 * Z.of_nat k; 7; 300 * Z.of_nat k; 8];
     w_perf_open := script (-1) [3; 4];
     w_alloc := fun _ => true;
     w_open := fun _ => true;
     w_chunk := fun _ => 3;
     w_fs := {[ "f"%string := file ]};
     w_overflow := 0;
     w_stdout := [];
     w_stderr := [] |}.

(** The globals after [init_counters] on that machine. *)
Definition g2 : globals := (init_counters globals0 (calm [] [])).1.

(** A routine that accepts every buffer, and one that rejects all. *)
Definition accept_all : utf16le_validate := fun _ len => len.
Definition reject_all : utf16le_validate := fun _ _ => 0.

(** One case on file ["f"] with [n] declared bytes. *)
Definition case (validate : utf16le_validate) (u : indeterminate)
    (n : Z) (fuel : nat) (w : world) : run_result * world :=
  run_test g2 u (Some "ref"%string) (test_utf16le_validate false g2)
    validate "f" n fuel w.

(** Each pass takes three seconds: the first pass already reaches the
    goal. *)
Definition w_fast : world :=
  calm [at_ 0 0; at_ 0 0; at_ 3 0; at_ 3 0; at_ 3 1; at_ 6 1] text.

(** Passes of 0.6 s, 1.5 s and 3 s. *)
Definition w_grow : world :=
  calm [at_ 0 0; at_ 0 0; at_ 0 600000000;
        at_ 1 0; at_ 1 0; at_ 2 500000000;
        at_ 3 0; at_ 3 0; at_ 6 0] text.

(** The first pass on [w_grow]. *)
Definition slow_pass : pass :=
  {| p_m := 1; p_first_run := true;
     p_start := {| ts := {| tv_sec := 0; tv_nsec := 0 |};
                   ctr := [2; 100; 7; 300; 8] |};
     p_end := {| ts := {| tv_sec := 0; tv_nsec := 600000000 |};
                 ctr := [2; 200; 7; 600; 8] |} |}.

(** One clock reading only: enough for a case that fails in its first
    pass. *)
Definition w_once : world := calm [at_ 0 0] text.

(** A block of four bytes. *)
Definition block4 : buffer :=
  {| buf_size := 4; buf_data := replicate 4 x00 |}.

(** A file of three bytes and one of sixty-five. *)
Definition w_odd : world := calm [at_ 0 0] [x41; x00; x42].
Definition w_65 : world := calm [at_ 0 0] (replicate 65 x41).

End Sample.


(** * Properties *)

(** ** Stepping through the monad *)

Ltac unfold_M :=
  unfold mbind, M_bind, mret, M_ret, print, eprint, perror in *.

Ltac step_M :=
  repeat (simplify_eq /=; try case_match; unfold_M).

(** ** Doubles: which results are numbers *)

Lemma digits2_pos_size p : digits2_pos p = Pos.size p.
Proof. induction p; simpl; congruence. Qed.

Lemma digits2_pos_gt p : Zpos p < 2 ^ Zpos (digits2_pos p).
Proof.
  rewrite digits2_pos_size. pose proof (Pos.size_gt p) as H.
  apply Pos2Z.pos_lt_pos in H. by rewrite Pos2Z.inj_pow in H.
Qed.

Lemma Zdigits2_le m k : 0 <= m < 2 ^ k -> 0 <= k -> Zdigits2 m <= k.
Proof.
  intros [H0 H1] Hk. destruct m as [|p|p]; simpl; [done| |lia].
  rewrite digits2_pos_size.
  destruct (Z.le_gt_cases (Zpos (Pos.size p)) k) as [|Hgt]; [done|exfalso].
  pose proof (Pos.size_le p) as H.
  apply Pos2Z.pos_le_pos in H. rewrite Pos2Z.inj_pow in H.
  assert (2 ^ (k + 1) <= 2 ^ Zpos (Pos.size p))
    by (apply Z.pow_le_mono_r; lia).
  rewrite Z.pow_add_r in * by lia. lia.
Qed.

Lemma shr_1_bounds r :
  0 <= shr_m r -> 0 <= shr_m (shr_1 r) <= shr_m r.
Proof.
  destruct r as [m rb sb]. simpl. intros Hm.
  destruct m as [|[p|p|]|p]; simpl; lia.
Qed.

Lemma iter_shr_1_bounds p : forall r,
  0 <= shr_m r -> 0 <= shr_m (SpecFloat.iter_pos shr_1 p r) <= shr_m r.
Proof.
  induction p as [p IH|p IH|]; intros r Hr; simpl.
  - pose proof (shr_1_bounds r Hr) as H1.
    pose proof (IH _ (proj1 H1)) as H2.
    pose proof (IH _ (proj1 H2)) as H3. lia.
  - pose proof (IH _ Hr) as H2.
    pose proof (IH _ (proj1 H2)) as H3. lia.
  - by apply shr_1_bounds.
Qed.

Lemma shr_record_of_loc_m m l : shr_m (shr_record_of_loc m l) = m.
Proof. by destruct l as [|[]]. Qed.

(** The exponent and the mantissa after [shr_fexp]. *)
Lemma shr_fexp_bounds m e l r e' k :
  shr_fexp prec emax m e l = (r, e') ->
  0 <= m < 2 ^ k -> 0 <= k ->
  0 <= shr_m r <= m /\ e' <= Z.max e (Z.max (k + e - prec) (emin prec emax)).
Proof.
  unfold shr_fexp, shr. intros H Hm Hk.
  pose proof (Zdigits2_le m k Hm Hk) as Hd.
  remember (fexp prec emax (Zdigits2 m + e) - e) as sh eqn:Hsh.
  unfold fexp in Hsh.
  destruct sh as [|p|p]; injection H as <- <-;
    rewrite ?shr_record_of_loc_m.
  - lia.
  - pose proof (iter_shr_1_bounds p (shr_record_of_loc m l)) as Hi.
    rewrite shr_record_of_loc_m in Hi. split; [lia|]. lia.
  - lia.
Qed.

Lemma round_nearest_even_bounds m l :
  0 <= m -> m <= round_nearest_even m l <= m + 1.
Proof. intros. destruct l as [|[]]; simpl; try lia. destruct (Z.even m); lia. Qed.

Lemma binary_round_aux_not_nan s m e l :
  0 <= m -> is_nan (binary_round_aux prec emax s m e l) = false.
Proof.
  intros Hm. unfold binary_round_aux.
  destruct (shr_fexp prec emax m e l) as [r1 e1] eqn:H1.
  destruct (shr_fexp prec emax _ e1 loc_Exact) as [r2 e2] eqn:H2.
  assert (Hk : 0 <= m < 2 ^ (1 + Z.log2 m)).
  { split; [done|]. destruct (Z.eq_dec m 0) as [->|]; [done|].
    rewrite Z.add_comm. apply Z.log2_spec. lia. }
  pose proof (Z.log2_nonneg m).
  apply shr_fexp_bounds with (k := 1 + Z.log2 m) in H1 as [H1 _]; [|done|lia].
  pose proof (round_nearest_even_bounds (shr_m r1) (loc_of_shr_record r1)
                ltac:(lia)) as Hr.
  set (m1 := round_nearest_even _ _) in *.
  assert (Hk1 : 0 <= m1 < 2 ^ (1 + Z.log2 m1)).
  { split; [lia|]. destruct (Z.eq_dec m1 0) as [->|]; [done|].
    rewrite Z.add_comm. apply Z.log2_spec. lia. }
  pose proof (Z.log2_nonneg m1).
  apply shr_fexp_bounds with (k := 1 + Z.log2 m1) in H2 as [H2 _]; [|done|lia].
  destruct (shr_m r2) as [|p|p]; [done| |lia].
  by destruct (e2 <=? emax - prec).
Qed.

Lemma binary_round_aux_finite s m e l k :
  0 <= m < 2 ^ k -> 0 <= k <= 200 -> e <= 200 ->
  is_finite (binary_round_aux prec emax s m e l) = true.
Proof.
  intros Hm Hk He. unfold binary_round_aux.
  destruct (shr_fexp prec emax m e l) as [r1 e1] eqn:H1.
  destruct (shr_fexp prec emax _ e1 loc_Exact) as [r2 e2] eqn:H2.
  apply shr_fexp_bounds with (k := k) in H1 as [H1 He1]; [|done|lia].
  pose proof (round_nearest_even_bounds (shr_m r1) (loc_of_shr_record r1)
                ltac:(lia)) as Hr.
  set (m1 := round_nearest_even _ _) in *.
  assert (Hm1 : 0 <= m1 < 2 ^ (k + 1)).
  { split; [lia|]. rewrite Z.pow_add_r by lia. lia. }
  apply shr_fexp_bounds with (k := k + 1) in H2 as [H2 He2]; [|done|lia].
  unfold emin, prec, emax in *.
  destruct (shr_m r2) as [|p|p]; [done| |lia].
  destruct (Z.leb_spec e2 (1024 - 53)); [done|lia].
Qed.

Lemma shift_pos_value d p : Zpos (Pos.iter xO p d) = Zpos p * 2 ^ Zpos d.
Proof.
  induction d as [|d IH] using Pos.peano_ind.
  - simpl. lia.
  - rewrite Pos.iter_succ, Pos2Z.inj_xO, IH, Pos2Z.inj_succ, Z.pow_succ_r; lia.
Qed.

(** Alignment keeps the value and, toward [fexp], the bound [2^prec]. *)
Lemma shl_align_fexp_bounds mx ex mz ez k :
  shl_align mx ex (fexp prec emax (Zpos (digits2_pos mx) + ex)) = (mz, ez) ->
  Zpos mx < 2 ^ k -> prec <= k ->
  Zpos mz < 2 ^ k /\ ez <= ex.
Proof.
  unfold shl_align, fexp. intros H Hm Hk.
  destruct (Z.max _ _ - ex) as [|d|d] eqn:Hd; injection H as <- <-;
    [lia|lia|].
  rewrite shift_pos_value. split; [|lia].
  pose proof (digits2_pos_gt mx) as Hg.
  assert (Hd' : Zpos d <= prec - Zpos (digits2_pos mx)) by lia.
  assert (0 <= prec - Zpos (digits2_pos mx) - Zpos d) by lia.
  apply Z.lt_le_trans with (2 ^ Zpos (digits2_pos mx) * 2 ^ Zpos d).
  - apply Z.mul_lt_mono_pos_r; [|done]. apply Z.pow_pos_nonneg; lia.
  - rewrite <- Z.pow_add_r by lia. apply Z.pow_le_mono_r; lia.
Qed.

Lemma binary_round_finite s mx ex k :
  Zpos mx < 2 ^ k -> prec <= k <= 200 -> ex <= 200 ->
  is_finite (binary_round prec emax s mx ex) = true.
Proof.
  intros Hm Hk He. unfold binary_round.
  destruct (shl_align _ _ _) as [mz ez] eqn:Ha.
  apply shl_align_fexp_bounds with (k := k) in Ha as [Hz Hez]; [|done|lia].
  apply binary_round_aux_finite with (k := k); unfold prec in *; lia.
Qed.

Lemma binary_round_not_nan s mx ex :
  is_nan (binary_round prec emax s mx ex) = false.
Proof.
  unfold binary_round. destruct (shl_align _ _ _) as [mz ez].
  by apply binary_round_aux_not_nan.
Qed.

Lemma binary_normalize_not_nan m e sz :
  is_nan (binary_normalize prec emax m e sz) = false.
Proof. destruct m; simpl; [done|apply binary_round_not_nan..]. Qed.

(** A 64-bit integer converts to a finite double. *)
Lemma of_Z_finite z : - 2 ^ 64 < z < 2 ^ 64 -> is_finite (of_Z z) = true.
Proof.
  intros Hz. unfold of_Z. destruct z as [|p|p]; simpl; [done|..];
    apply binary_round_finite with (k := 64); unfold prec; lia.
Qed.

Lemma of_Z_not_nan z : is_nan (of_Z z) = false.
Proof. apply binary_normalize_not_nan. Qed.

Lemma mul_not_nan x s m e :
  is_nan x = false -> is_nan (mul x (S754_finite s m e)) = false.
Proof.
  destruct x as [sx|sx| |sx mx ex]; simpl; try done.
  intros _. by apply binary_round_aux_not_nan.
Qed.

Lemma add_not_nan x y :
  is_finite x = true -> is_nan y = false -> is_nan (add x y) = false.
Proof.
  destruct x as [sx|sx| |sx mx ex], y as [sy|sy| |sy my ey]; simpl;
    try done; intros _ _.
  - by destruct sx, sy.
  - apply binary_normalize_not_nan.
Qed.

Lemma compare_cont_swap p q :
  Pos.compare_cont Eq q p = CompOpp (Pos.compare_cont Eq p q).
Proof. by rewrite Pos.compare_cont_antisym. Qed.

Lemma ltb_false_leb x y :
  ltb x y = false -> is_nan x = false -> is_nan y = false -> leb y x = true.
Proof.
  unfold ltb, leb, SFltb, SFleb.
  destruct x as [sx|sx| |sx mx ex], y as [sy|sy| |sy my ey]; simpl;
    try done; try (by destruct sx); try (by destruct sy);
    try (by destruct sx, sy).
  intros H _ _. destruct sx, sy; try done;
    rewrite (Z.compare_antisym ex ey), (compare_cont_swap mx my);
    destruct (ex ?= ey); simpl in *; try done;
    by destruct (Pos.compare_cont Eq mx my).
Qed.

(** ** The shape of a run of the adaptive loop *)

#[local] Hint Constructors trace : core.

Section DriverFacts.

Context {P : Type}.
Variable g : globals.
Variable u : indeterminate.
Variable name : option string.
Variable test : testfunc P.
Variable payload : P.
Variable filename : string.
Variable n : Z.

Lemma loop_body_inv m first start end_ w s w' :
  loop_body g name test payload filename n m first start end_ w = (s, w') ->
  match s with
  | SFail => w_stdout w' <> []
  | SUndefined p =>
      p_m p = m /\ p_first_run p = first /\ below p = true /\
      grow m (p_elapsed p) = None
  | SAgain m' p =>
      p_m p = m /\ p_first_run p = first /\
      (below p = true /\ grow m (p_elapsed p) = Some m' \/
       below p = false /\ first = true /\ m' = m)
  | SBreak p =>
      p_m p = m /\ p_first_run p = first /\ below p = false /\ first = false
  end.
Proof.
  unfold loop_body, fail, below, p_elapsed. intros H.
  step_M; simpl; try (intros E; apply app_eq_nil in E as [_ E]; discriminate);
    repeat split; auto.
Qed.

Lemma run_test_loop_trace fuel : forall m first start end_ w r w',
  run_test_loop g u name test payload filename n fuel m first start end_ w
    = (r, w') ->
  trace m first (r_passes r) (r_status r).
Proof.
  induction fuel as [|fuel IH]; intros m first start end_ w r w' H.
  - cbn in H. step_M. simpl. constructor.
  - cbn [run_test_loop] in H. unfold_M.
    destruct (loop_body _ _ _ _ _ _ _ _ _ _ _) as [s w1] eqn:Hs.
    apply loop_body_inv in Hs.
    destruct s as [|p|m' p|p]; simpl in H.
    + simplify_eq. simpl. constructor.
    + simplify_eq. simpl. destruct Hs as (?&?&?&?). by constructor.
    + destruct (run_test_loop _ _ _ _ _ _ _ _ _ _ _ _ _) as [r1 w2] eqn:Hr.
      apply IH in Hr. simplify_eq. simpl.
      destruct Hs as (?&?&[[? ?]|(?&?&?)]); subst.
      * eapply trace_grow; eauto.
      * match goal with H : p_first_run p = true |- _ => rewrite H end.
        eapply trace_warm_up; eauto.
    + destruct (print_results _ _ _ _ _ _ _ _ _) as [ok w2] eqn:Hp.
      simplify_eq. simpl. destruct Hs as (?&?&?&?); subst.
      match goal with H : p_first_run p = false |- _ => rewrite H end.
      apply trace_accept; auto. destruct ok; auto.
Qed.

End DriverFacts.

(** *** Consequences of the shape of a run *)

Lemma trace_head m first p ps st :
  trace m first (p :: ps) st -> p_m p = m /\ p_first_run p = first.
Proof. inversion 1; subst; auto. Qed.

Lemma trace_follows m first ps st :
  trace m first ps st ->
  forall i p q, ps !! i = Some p -> ps !! S i = Some q -> follows p q.
Proof.
  induction 1 as [| | |m first p m' ps st Hm Hf Hb Hg Ht IH
                  |m p ps st Hm Hf Hb Ht IH|];
    intros i p0 q Hp Hq; try discriminate.
  - destruct i as [|i]; simpl in *; [|eauto].
    injection Hp as <-. destruct ps as [|q' ps]; [discriminate|].
    injection Hq as <-. apply trace_head in Ht as [Hm' Hf'].
    unfold follows. rewrite Hm', Hm. auto.
  - destruct i as [|i]; simpl in *; [|eauto].
    injection Hp as <-. destruct ps as [|q' ps]; [discriminate|].
    injection Hq as <-. apply trace_head in Ht as [Hm' Hf'].
    unfold follows. rewrite Hm', Hm. auto.
Qed.

Lemma trace_reported_last m first ps st :
  trace m first ps st -> st = Reported ->
  exists pl, last ps = Some pl /\ below pl = false /\ p_first_run pl = false.
Proof.
  induction 1 as [| | |m first p m' ps st Hm Hf Hb Hg Ht IH
                  |m p ps st Hm Hf Hb Ht IH|m p st Hm Hf Hb Hst];
    intros E; try discriminate; subst.
  - destruct IH as (pl & Hl & ?); [done|]. exists pl. split; [|done].
    destruct ps; [done|]. done.
  - destruct IH as (pl & Hl & ?); [done|]. exists pl. split; [|done].
    destruct ps; [done|]. done.
  - exists p. auto.
Qed.


Section Reporting.

Context {P : Type}.
Variable g : globals.
Variable u : indeterminate.
Variable name : option string.
Variable test : testfunc P.
Variable payload : P.
Variable filename : string.
Variable n : Z.

(** A run that reports prints, last of all, the line of its last pass. *)
Lemma run_test_loop_reported fuel : forall m first start end_ w r w',
  run_test_loop g u name test payload filename n fuel m first start end_ w
    = (r, w') ->
  r_status r = Reported ->
  exists pl counts,
    last (r_passes r) = Some pl /\ counts_of g u pl = Some counts /\
    last (w_stdout w') =
      Some (OutLine (line_of g name filename n counts pl)).
Proof.
  induction fuel as [|fuel IH]; intros m first start end_ w r w' H Hst.
  - cbn in H. by step_M.
  - cbn [run_test_loop] in H. unfold_M.
    destruct (loop_body _ _ _ _ _ _ _ _ _ _ _) as [s w1] eqn:Hs.
    pose proof (loop_body_inv _ _ _ _ _ _ _ _ _ _ _ _ _ Hs) as Hinv.
    destruct s as [|p|m' p|p]; simpl in H; try (simplify_eq; done).
    + destruct (run_test_loop _ _ _ _ _ _ _ _ _ _ _ _ _) as [r1 w2] eqn:Hr.
      simplify_eq. simpl in *.
      destruct (IH _ _ _ _ _ _ _ Hr Hst) as (pl & counts & Hl & Hc & Ho).
      exists pl, counts. split; [|done].
      destruct (r_passes r1); [done|]. done.
    + destruct (print_results _ _ _ _ _ _ _ _ _) as [ok w2] eqn:Hp.
      simplify_eq. simpl in *. destruct ok; [|done].
      destruct Hinv as (Hm & _). unfold print_results in Hp.
      exists p. unfold counts_of, line_of, p_elapsed.
      destruct (counterdiff _ _ _ _ _) as [counts|]; step_M.
      exists counts. rewrite last_snoc. done.
Qed.

End Reporting.

(** ** The warm-up pass *)



(** ** The growth policy *)

Lemma wrap_in_range z : SizeT.in_range (SizeT.wrap z).
Proof. apply Z.mod_pos_bound. reflexivity. Qed.

Lemma wrap_small z : SizeT.in_range z -> SizeT.wrap z = z.
Proof. intros H. apply Z.mod_small. exact H. Qed.

Lemma to_size_t_range x k : to_size_t x = Some k -> SizeT.in_range k.
Proof.
  destruct x as [s| | |s m e]; simpl; try discriminate.
  - intros [= <-]. split; [lia|reflexivity].
  - destruct (0 <=? trunc s m e) eqn:H0; [|discriminate].
    destruct (trunc s m e <? SizeT.modulus) eqn:H1; [|discriminate].
    simpl. intros [= <-]. split; lia.
Qed.

(** The two thresholds are the same double, 1.0. *)
Lemma half_goal : mul TIME_GOAL c0_5 = div TIME_GOAL (of_Z 2).
Proof. vm_compute. reflexivity. Qed.

(** The source computes what the specification says. *)
Lemma grow_spec m elapsed : grow m elapsed = spec_grow m elapsed.
Proof.
  unfold grow, spec_grow. rewrite half_goal.
  destruct (ltb elapsed _).
  - unfold SizeT.mul. by rewrite Z.mul_comm.
  - destruct (to_size_t _) as [c|] eqn:Hc; [|done]. simpl.
    apply to_size_t_range in Hc. f_equal.
    destruct (Z.ltb_spec m c).
    + rewrite Z.max_r by lia. by rewrite wrap_small.
    + rewrite Z.max_l by lia. done.
Qed.

Lemma grow_in_range m elapsed m' :
  grow m elapsed = Some m' -> SizeT.in_range m'.
Proof.
  unfold grow. destruct (ltb elapsed _).
  - intros [= <-]. apply wrap_in_range.
  - destruct (to_size_t _) as [c|] eqn:Hc; [|done]. simpl.
    apply to_size_t_range in Hc. intros [= <-].
    destruct (m <? c); [done|apply wrap_in_range].
Qed.

Lemma trace_in_range m first ps st :
  trace m first ps st -> SizeT.in_range m ->
  Forall (fun p => SizeT.in_range (p_m p)) ps.
Proof.
  induction 1 as [| |m first p Hm|m first p m' ps st Hm Hf Hb Hg Ht IH
                  |m p ps st Hm Hf Hb Ht IH|m p st Hm];
    intros Hr; try constructor; try rewrite Hm; auto.
  apply IH. eapply grow_in_range, Hg.
Qed.

Lemma one_in_range : SizeT.in_range 1.
Proof. split; [lia|reflexivity]. Qed.

Lemma lookup_last_pass (ps : list pass) i p :
  ps !! i = Some p -> ps !! S i = None -> last ps = Some p.
Proof.
  intros Hp Hn. rewrite last_lookup.
  apply lookup_ge_None in Hn. apply lookup_lt_Some in Hp as Hlt.
  replace (pred (length ps)) with i by lia. done.
Qed.

(** C2. A pass that stays below the time goal is never the one whose
    measurement is printed: when the run reports, another pass comes
    after it. The pass that comes after it runs with the multiplier
    of the specification: [2 * m] when [elapsed < TIME_GOAL / 2],
    [max(m + 1, ceil(m * TIME_GOAL * 1.05 / elapsed))] otherwise, as
    stored in a [size_t]. *)
Theorem grow_policy {P : Type} (g : globals) (u : indeterminate)
    (name : option string) (test : testfunc P) (payload : P)
    (filename : string) (n : Z) (fuel : nat) (w w' : world)
    (r : run_result) (i : nat) (p : pass) :
  run_test g u name test payload filename n fuel w = (r, w') ->
  r_passes r !! i = Some p ->
  below p = true ->
  grow (p_m p) (p_elapsed p) = spec_grow (p_m p) (p_elapsed p) /\
  (forall q, r_passes r !! S i = Some q ->
     p_first_run q = false /\
     spec_grow (p_m p) (p_elapsed p) = Some (p_m q) /\
     (ltb (p_elapsed p) (div TIME_GOAL (of_Z 2)) = true ->
        p_m q = SizeT.wrap (2 * p_m p)) /\
     (ltb (p_elapsed p) (div TIME_GOAL (of_Z 2)) = false ->
        exists c,
          to_size_t (ceil (div (mul (mul (of_Z (p_m p)) TIME_GOAL) c1_05)
                               (p_elapsed p))) = Some c /\
          p_m q = SizeT.wrap (Z.max (p_m p + 1) c))) /\
  (r_status r = Reported ->
     exists q pl, r_passes r !! S i = Some q /\
       last (r_passes r) = Some pl /\ below pl = false).
Proof.
  unfold run_test. intros Hrun Hp Hb.
  pose proof (run_test_loop_trace _ _ _ _ _ _ _ _ _ _ _ _ _ _ _ Hrun) as Ht.
  split; [apply grow_spec|]. split.
  - intros q Hq.
    destruct (trace_follows _ _ _ _ Ht i p q Hp Hq)
      as (Hf & [[_ Hg]|(Hb' & _)]); [|congruence].
    rewrite grow_spec in Hg. split; [done|]. split; [done|].
    unfold spec_grow in Hg. split; intros Hhalf; rewrite Hhalf in Hg.
    + by injection Hg.
    + destruct (to_size_t _) as [c|]; [|done]. exists c.
      split; [done|]. by injection Hg.
  - intros Hst. rewrite Hst in Ht.
    destruct (trace_reported_last _ _ _ _ Ht eq_refl) as (pl & Hl & Hbl & _).
    destruct (r_passes r !! S i) as [q|] eqn:Hq; [by eauto|].
    rewrite (lookup_last_pass _ _ _ Hp Hq) in Hl. congruence.
Qed.

Lemma grow_policy_witness :
  below Sample.slow_pass = true /\
  multipliers (Sample.case Sample.accept_all Sample.u0 4 5 Sample.w_grow).1
    = [1; 2; 3] /\
  exists q pl,
    r_passes (Sample.case Sample.accept_all Sample.u0 4 5 Sample.w_grow).1
      !! 1%nat = Some q /\
    last (r_passes
            (Sample.case Sample.accept_all Sample.u0 4 5 Sample.w_grow).1)
      = Some pl /\ below pl = false.
Proof.
  assert (Hrun : run_test Sample.g2 Sample.u0 (Some "ref"%string)
            (test_utf16le_validate false Sample.g2) Sample.accept_all
            "f" 4 5 Sample.w_grow =
          ((Sample.case Sample.accept_all Sample.u0 4 5 Sample.w_grow).1,
           (Sample.case Sample.accept_all Sample.u0 4 5 Sample.w_grow).2))
    by (vm_compute; reflexivity).
  assert (Hp : r_passes
            (Sample.case Sample.accept_all Sample.u0 4 5 Sample.w_grow).1
            !! 0%nat = Some Sample.slow_pass)
    by (vm_compute; reflexivity).
  assert (Hb : below Sample.slow_pass = true) by (vm_compute; reflexivity).
  assert (Hst : r_status
            (Sample.case Sample.accept_all Sample.u0 4 5 Sample.w_grow).1
            = Reported)
    by (vm_compute; reflexivity).
  split; [exact Hb|]. split; [vm_compute; reflexivity|].
  exact (proj2 (proj2 (grow_policy _ _ _ _ _ _ _ _ _ _ _ _ _ Hrun Hp Hb)) Hst).
Defined.

(** ** The summation loop in closed form *)

Lemma validate_loop_closed k v sum :
  SizeT.wrap (validate_loop k v sum) =
  SizeT.wrap (sum + Z.of_nat k * v).
Proof.
  revert sum. induction k as [|k IH]; intros sum.
  - simpl. f_equal. lia.
  - cbn [validate_loop]. rewrite IH. unfold SizeT.add, SizeT.wrap.
    rewrite Zplus_mod_idemp_l. f_equal. lia.
Qed.

Lemma validate_loop_in_range k v sum :
  SizeT.in_range sum -> SizeT.in_range (validate_loop k v sum).
Proof.
  revert sum. induction k as [|k IH]; intros sum H; [done|].
  cbn [validate_loop]. apply IH, wrap_in_range.
Qed.

Lemma validate_sum_closed m v : validate_sum m v = closed_sum m v.
Proof.
  unfold validate_sum, closed_sum.
  rewrite <- (wrap_small (validate_loop _ _ _)).
  - rewrite validate_loop_closed. f_equal. lia.
  - apply validate_loop_in_range. split; [lia|reflexivity].
Qed.

(** ** Monotony of the multiplier *)

Lemma grow_no_wrap m elapsed m' :
  grow m elapsed = Some m' -> 0 <= m < 2 ^ 63 -> m <= m'.
Proof.
  unfold grow. intros H Hm. destruct (ltb elapsed _).
  - injection H as <-. unfold SizeT.mul.
    rewrite wrap_small; [lia|]. unfold SizeT.in_range, SizeT.modulus.
    change (2 ^ SizeT.bits) with (2 * 2 ^ 63). lia.
  - destruct (to_size_t _) as [c|]; [|done]. simpl in H.
    injection H as <-. destruct (Z.ltb_spec m c); [lia|].
    unfold SizeT.add. rewrite wrap_small; [lia|].
    unfold SizeT.in_range, SizeT.modulus.
    change (2 ^ SizeT.bits) with (2 * 2 ^ 63). lia.
Qed.

(** Steps that do not go down make a sorted list. *)
Lemma never_lowered_sorted (l : list Z) :
  (forall i a b, l !! i = Some a -> l !! S i = Some b -> a <= b) ->
  forall i j a b, (i <= j)%nat -> l !! i = Some a -> l !! j = Some b -> a <= b.
Proof.
  intros Hstep i j a b Hij. revert b.
  induction Hij as [|j Hij IH]; intros b Ha Hb.
  - rewrite Ha in Hb. injection Hb as ->. lia.
  - destruct (l !! j) as [c|] eqn:Hc.
    + specialize (IH c Ha eq_refl). specialize (Hstep j c b Hc Hb). lia.
    + apply lookup_ge_None in Hc. apply lookup_lt_Some in Hb. lia.
Qed.

(** The update is [size_t] arithmetic: at [2^63] a doubling gives 0.
    This is why the multiplier of a pass below the goal is bounded in
    the theorem that follows. *)
Lemma grow_wraps_at_limit :
  grow (2 ^ 63) (tsdiff {| tv_sec := 0; tv_nsec := 0 |}
                   {| tv_sec := 0; tv_nsec := 500000000 |}) = Some 0.
Proof. vm_compute. reflexivity. Qed.

(** C3. The multiplier of the first pass is 1, and across the passes
    of one case it never goes down: the multiplier of a later pass is
    at least that of an earlier one, every multiplier is at least 1
    and fits [size_t]. The run is taken to hold no pass that stays
    below the time goal with a multiplier of [2^63] or more, that is,
    no pass that makes [2^63] calls of the routine in less than
    [TIME_GOAL] seconds. *)
Theorem multiplier_monotone {P : Type} (g : globals) (u : indeterminate)
    (name : option string) (test : testfunc P) (payload : P)
    (filename : string) (n : Z) (fuel : nat) (w w' : world)
    (r : run_result) :
  run_test g u name test payload filename n fuel w = (r, w') ->
  (forall i p, r_passes r !! i = Some p -> below p = true ->
               p_m p < 2 ^ 63) ->
  (forall a, multipliers r !! 0%nat = Some a -> a = 1) /\
  (forall i a, multipliers r !! i = Some a -> 1 <= a /\ SizeT.in_range a) /\
  never_lowered r /\
  (forall i j a b, (i <= j)%nat ->
     multipliers r !! i = Some a -> multipliers r !! j = Some b -> a <= b).
Proof.
  unfold run_test, never_lowered, multipliers. intros Hrun Hlim.
  pose proof (run_test_loop_trace _ _ _ _ _ _ _ _ _ _ _ _ _ _ _ Hrun) as Ht.
  pose proof (trace_in_range _ _ _ _ Ht one_in_range) as Hr.
  assert (H0 : forall a, (p_m <$> r_passes r) !! 0%nat = Some a -> a = 1).
  { intros a Ha. apply list_lookup_fmap_Some in Ha as (p & -> & Hp).
    destruct (r_passes r) as [|p' ps]; [done|]. injection Hp as ->.
    by apply trace_head in Ht as [? _]. }
  assert (Hstep : forall i a b,
            (p_m <$> r_passes r) !! i = Some a ->
            (p_m <$> r_passes r) !! S i = Some b -> a <= b).
  { intros i a b Ha Hb.
    apply list_lookup_fmap_Some in Ha as (p & -> & Hp).
    apply list_lookup_fmap_Some in Hb as (q & -> & Hq).
    rewrite Forall_lookup in Hr. pose proof (Hr _ _ Hp) as [Hp0 _].
    destruct (trace_follows _ _ _ _ Ht i p q Hp Hq)
      as (_ & [[Hb Hg]|(_ & _ & ->)]); [|lia].
    eapply grow_no_wrap; [exact Hg|]. split; [done|]. by eapply Hlim. }
  pose proof (never_lowered_sorted _ Hstep) as Hsorted.
  split; [exact H0|]. split; [|split; [exact Hstep|exact Hsorted]].
  intros i a Ha. split.
  - destruct ((p_m <$> r_passes r) !! 0%nat) as [a0|] eqn:E0.
    + rewrite (H0 a0 eq_refl) in E0.
      apply (Hsorted 0%nat i 1 a); [lia|done|done].
    + apply lookup_ge_None in E0. apply lookup_lt_Some in Ha. lia.
  - apply list_lookup_fmap_Some in Ha as (p & -> & Hp).
    rewrite Forall_lookup in Hr. by eapply Hr.
Qed.

Lemma multiplier_monotone_witness :
  multipliers (Sample.case Sample.accept_all Sample.u0 4 5 Sample.w_grow).1
    = [1; 2; 3] /\
  never_lowered (Sample.case Sample.accept_all Sample.u0 4 5 Sample.w_grow).1.
Proof.
  assert (Hrun : run_test Sample.g2 Sample.u0 (Some "ref"%string)
            (test_utf16le_validate false Sample.g2) Sample.accept_all
            "f" 4 5 Sample.w_grow =
          ((Sample.case Sample.accept_all Sample.u0 4 5 Sample.w_grow).1,
           (Sample.case Sample.accept_all Sample.u0 4 5 Sample.w_grow).2))
    by (vm_compute; reflexivity).
  assert (Hm : multipliers
            (Sample.case Sample.accept_all Sample.u0 4 5 Sample.w_grow).1
            = [1; 2; 3]) by (vm_compute; reflexivity).
  assert (Hlim : forall i p,
            r_passes
              (Sample.case Sample.accept_all Sample.u0 4 5 Sample.w_grow).1
              !! i = Some p ->
            below p = true -> p_m p < 2 ^ 63).
  { intros i p Hp _.
    assert (Hi : multipliers
              (Sample.case Sample.accept_all Sample.u0 4 5 Sample.w_grow).1
              !! i = Some (p_m p))
      by (unfold multipliers; by rewrite list_lookup_fmap, Hp).
    rewrite Hm in Hi.
    destruct i as [|[|[|i]]]; cbn in Hi; [| | |done];
      injection Hi as <-; lia. }
  split; [exact Hm|].
  exact (proj1 (proj2 (proj2
           (multiplier_monotone _ _ _ _ _ _ _ _ _ _ _ Hrun Hlim)))).
Defined.

(** ** The accepted pass *)

(** [tsdiff] splits the difference into whole seconds and a
    nanosecond count below one second, borrowing one second when the
    nanoseconds of [end_] are behind those of [start]. *)
Lemma tsdiff_borrow start end_ :
  valid_timespec start -> valid_timespec end_ ->
  exists sec nsec,
    tsdiff start end_ = add (of_Z sec) (mul (of_Z nsec) c1e_9) /\
    0 <= nsec < 1000000000 /\ - 2 ^ 63 <= sec < 2 ^ 63 /\
    sec * 1000000000 + nsec = nanoseconds end_ - nanoseconds start.
Proof.
  unfold valid_timespec, nanoseconds, tsdiff. intros Hs He.
  destruct (Z.ltb_spec (tv_nsec end_ - tv_nsec start) 0).
  - exists (tv_sec end_ - tv_sec start - 1),
           (tv_nsec end_ - tv_nsec start + 1000000000).
    split; [done|]. lia.
  - exists (tv_sec end_ - tv_sec start), (tv_nsec end_ - tv_nsec start).
    split; [done|]. lia.
Qed.

Lemma tsdiff_not_nan start end_ :
  valid_timespec start -> valid_timespec end_ ->
  is_nan (tsdiff start end_) = false.
Proof.
  intros Hs He.
  destruct (tsdiff_borrow _ _ Hs He) as (sec & nsec & -> & _ & Hsec & _).
  apply add_not_nan.
  - apply of_Z_finite. lia.
  - apply mul_not_nan, of_Z_not_nan.
Qed.

(** C4. When [run_test] prints a result line, the line is that of the
    last pass, whose two measurement points are taken to hold valid
    timespecs. The elapsed time of that pass is [tsdiff] of the two
    points, which is the double [sec + nsec * 1.0e-9] where [sec]
    seconds and [nsec < 10^9] nanoseconds make up the exact
    difference; and [TIME_GOAL <= elapsed] holds as a comparison of
    doubles. *)
Theorem accepted_pass_reaches_goal {P : Type} (g : globals)
    (u : indeterminate) (name : option string) (test : testfunc P)
    (payload : P) (filename : string) (n : Z) (fuel : nat) (w w' : world)
    (r : run_result) :
  run_test g u name test payload filename n fuel w = (r, w') ->
  r_status r = Reported ->
  (forall p, last (r_passes r) = Some p ->
     valid_timespec (ts (p_start p)) /\ valid_timespec (ts (p_end p))) ->
  exists pl counts,
    last (r_passes r) = Some pl /\
    counts_of g u pl = Some counts /\
    last (w_stdout w') = Some (OutLine (line_of g name filename n counts pl)) /\
    leb TIME_GOAL (p_elapsed pl) = true /\
    ltb (p_elapsed pl) TIME_GOAL = false /\
    exists sec nsec,
      p_elapsed pl = add (of_Z sec) (mul (of_Z nsec) c1e_9) /\
      0 <= nsec < 1000000000 /\
      sec * 1000000000 + nsec
      = nanoseconds (ts (p_end pl)) - nanoseconds (ts (p_start pl)).
Proof.
  unfold run_test. intros Hrun Hst Hvalid.
  pose proof (run_test_loop_trace _ _ _ _ _ _ _ _ _ _ _ _ _ _ _ Hrun) as Ht.
  rewrite Hst in Ht.
  destruct (trace_reported_last _ _ _ _ Ht eq_refl) as (pl & Hl & Hb & _).
  destruct (run_test_loop_reported _ _ _ _ _ _ _ _ _ _ _ _ _ _ _ Hrun Hst)
    as (pl' & counts & Hl' & Hc & Ho).
  rewrite Hl in Hl'. injection Hl' as <-.
  destruct (Hvalid _ Hl) as [Hs He].
  exists pl, counts. repeat split; auto.
  - apply ltb_false_leb; [exact Hb| |done].
    by apply tsdiff_not_nan.
  - destruct (tsdiff_borrow _ _ Hs He) as (sec & nsec & ? & ? & ? & ?).
    by exists sec, nsec.
Qed.

Lemma accepted_pass_reaches_goal_witness :
  r_status (Sample.case Sample.accept_all Sample.u0 4 5 Sample.w_grow).1
    = Reported /\
  exists pl counts,
    last (r_passes
            (Sample.case Sample.accept_all Sample.u0 4 5 Sample.w_grow).1)
      = Some pl /\
    counts_of Sample.g2 Sample.u0 pl = Some counts /\
    last (w_stdout
            (Sample.case Sample.accept_all Sample.u0 4 5 Sample.w_grow).2)
      = Some (OutLine (line_of Sample.g2 (Some "ref"%string) "f" 4 counts pl))
    /\
    leb TIME_GOAL (p_elapsed pl) = true /\
    ltb (p_elapsed pl) TIME_GOAL = false /\
    exists sec nsec,
      p_elapsed pl = add (of_Z sec) (mul (of_Z nsec) c1e_9) /\
      0 <= nsec < 1000000000 /\
      sec * 1000000000 + nsec
      = nanoseconds (ts (p_end pl)) - nanoseconds (ts (p_start pl)).
Proof.
  assert (Hrun : run_test Sample.g2 Sample.u0 (Some "ref"%string)
            (test_utf16le_validate false Sample.g2) Sample.accept_all
            "f" 4 5 Sample.w_grow =
          ((Sample.case Sample.accept_all Sample.u0 4 5 Sample.w_grow).1,
           (Sample.case Sample.accept_all Sample.u0 4 5 Sample.w_grow).2))
    by (vm_compute; reflexivity).
  assert (Hst : r_status
            (Sample.case Sample.accept_all Sample.u0 4 5 Sample.w_grow).1
            = Reported)
    by (vm_compute; reflexivity).
  assert (Hvalid : forall p,
            last (r_passes
              (Sample.case Sample.accept_all Sample.u0 4 5 Sample.w_grow).1)
            = Some p ->
            valid_timespec (ts (p_start p)) /\
            valid_timespec (ts (p_end p))).
  { intros p Hp. vm_compute in Hp. injection Hp as <-.
    unfold valid_timespec. simpl. lia. }
  split; [exact Hst|].
  exact (accepted_pass_reaches_goal _ _ _ _ _ _ _ _ _ _ _ Hrun Hst Hvalid).
Defined.

(** ** Doubles: rounding error *)

Lemma Zdigits2_eq m d :
  0 < d -> 2 ^ (d - 1) <= m < 2 ^ d -> Zdigits2 m = d.
Proof.
  intros Hd [Hlo Hhi].
  assert (0 < m) by (pose proof (Z.pow_pos_nonneg 2 (d - 1)); lia).
  destruct m as [|p|p]; try lia. simpl. rewrite digits2_pos_size.
  pose proof (Pos.size_gt p) as Hgt. pose proof (Pos.size_le p) as Hle.
  apply Pos2Z.pos_lt_pos in Hgt. apply Pos2Z.pos_le_pos in Hle.
  rewrite Pos2Z.inj_pow in Hgt, Hle.
  assert (Hp0 : Z.pos p~0 = 2 * Z.pos p) by lia. rewrite Hp0 in Hle.
  clear Hp0.
  assert (Hs : 0 < Z.pos (Pos.size p)) by lia.
  revert Hgt Hle Hs. generalize (Z.pos (Pos.size p)). intros s Hgt Hle Hs.
  destruct (Z.lt_trichotomy s d) as [Hlt|[E|Hgt']]; [exfalso|done|exfalso].
  - assert (2 ^ s <= 2 ^ (d - 1)) by (apply Z.pow_le_mono_r; lia). lia.
  - assert (2 ^ d <= 2 ^ (s - 1)) by (apply Z.pow_le_mono_r; lia).
    replace s with (s - 1 + 1) in Hle by lia.
    rewrite Z.pow_add_r in Hle by lia. lia.
Qed.

Lemma shr_1_div2 r : 0 <= shr_m r -> shr_m (shr_1 r) = shr_m r / 2.
Proof.
  destruct r as [m rb sb]. simpl. intros Hm.
  destruct m as [|[p|p|]|p]; simpl; try lia; try done.
  - apply Z.div_unique with (r := 1); lia.
  - apply Z.div_unique with (r := 0); lia.
Qed.

Lemma iter_shr_1_div p : forall r,
  0 <= shr_m r ->
  shr_m (SpecFloat.iter_pos shr_1 p r) = shr_m r / 2 ^ Zpos p.
Proof.
  induction p as [p IH|p IH|]; intros r Hr; simpl SpecFloat.iter_pos.
  - pose proof (shr_1_bounds r Hr) as H1.
    pose proof (iter_shr_1_bounds p _ (proj1 H1)) as H2.
    rewrite IH by lia. rewrite IH by lia. rewrite shr_1_div2 by done.
    assert (0 < 2 ^ Z.pos p) by (apply Z.pow_pos_nonneg; lia).
    rewrite !Z.div_div by lia. f_equal.
    replace (Z.pos p~1) with (Z.pos p + Z.pos p + 1) by lia.
    rewrite !Z.pow_add_r by lia. change (2 ^ 1) with 2. ring.
  - pose proof (iter_shr_1_bounds p _ Hr) as H2.
    rewrite IH by lia. rewrite IH by lia.
    assert (0 < 2 ^ Z.pos p) by (apply Z.pow_pos_nonneg; lia).
    rewrite !Z.div_div by lia. f_equal.
    replace (Z.pos p~0) with (Z.pos p + Z.pos p) by lia.
    by rewrite !Z.pow_add_r by lia.
  - by apply shr_1_div2.
Qed.

(** [shr] by [k] places divides the mantissa by [2^k]. *)
Lemma shr_div r e k :
  0 <= shr_m r -> 0 <= k ->
  (shr r e k).2 = e + k /\ shr_m (shr r e k).1 = shr_m r / 2 ^ k.
Proof.
  intros Hr Hk. unfold shr. destruct k as [|p|p]; [|..|lia]; simpl.
  - split; [lia|]. by rewrite Z.div_1_r.
  - split; [done|]. by apply iter_shr_1_div.
Qed.

Lemma fexp_normal x : emin prec emax <= x - prec -> fexp prec emax x = x - prec.
Proof. unfold fexp. lia. Qed.

(** Rounding a mantissa of [d >= 53] digits in the normal range gives a
    normal number; its mantissa times [2^(e' - e)] is within
    [2^(d - 53)] of [q]. *)
Lemma round_aux_normal s q e l d :
  53 <= d -> 2 ^ (d - 1) <= q < 2 ^ d -> -1021 <= d + e <= 1023 ->
  exists m' e',
    binary_round_aux prec emax s q e l = S754_finite s m' e' /\
    2 ^ 52 <= Zpos m' < 2 ^ 53 /\
    d + e - 53 <= e' <= d + e - 52 /\
    q - 2 ^ (d - 53) <= Zpos m' * 2 ^ (e' - e) <= q + 2 ^ (d - 53).
Proof.
  intros Hd Hq He. unfold binary_round_aux, shr_fexp.
  rewrite (Zdigits2_eq q d) by (try done; lia).
  rewrite fexp_normal by (unfold emin, prec, emax; lia).
  set (k := d - 53). replace (d + e - prec - e) with k by (unfold k, prec; lia).
  assert (Hk : 0 <= k) by (unfold k; lia).
  assert (Hq0 : 0 <= q) by (pose proof (Z.pow_pos_nonneg 2 (d - 1)); lia).
  pose proof (shr_div (shr_record_of_loc q l) e k) as Hshr.
  rewrite shr_record_of_loc_m in Hshr. specialize (Hshr Hq0 Hk).
  destruct (shr (shr_record_of_loc q l) e k) as [r1 e1].
  destruct Hshr as [He1 Hr1]. simpl in He1, Hr1. subst e1.
  assert (H2k : 0 < 2 ^ k) by (apply Z.pow_pos_nonneg; lia).
  assert (Hsplit : 2 ^ d = 2 ^ 53 * 2 ^ k).
  { rewrite <- Z.pow_add_r by lia. f_equal. unfold k. lia. }
  assert (Hsplit' : 2 ^ (d - 1) = 2 ^ 52 * 2 ^ k).
  { rewrite <- Z.pow_add_r by lia. f_equal. unfold k. lia. }
  set (F := q / 2 ^ k) in *.
  assert (HF : 2 ^ 52 <= F < 2 ^ 53).
  { split.
    - apply Z.div_le_lower_bound; [done|]. lia.
    - apply Z.div_lt_upper_bound; [done|]. lia. }
  pose proof (Z.div_mod q (2 ^ k) ltac:(lia)) as Hdm.
  pose proof (Z.mod_pos_bound q (2 ^ k) H2k) as Hmod. fold F in Hdm.
  pose proof (round_nearest_even_bounds (shr_m r1) (loc_of_shr_record r1))
    as Hm1.
  rewrite Hr1 in Hm1 |- *. specialize (Hm1 ltac:(lia)).
  set (m1 := round_nearest_even F (loc_of_shr_record r1)) in *.
  change (2 ^ 52) with 4503599627370496 in *.
  change (2 ^ 53) with 9007199254740992 in *.
  destruct (Z.eq_dec m1 9007199254740992) as [E|NE].
  - (* the mantissa was rounded up to [2^53] *)
    rewrite E. rewrite (Zdigits2_eq _ 54) by done.
    rewrite fexp_normal by (unfold emin, prec, emax; lia).
    replace (54 + (e + k) - prec - (e + k)) with 1 by (unfold prec; lia).
    exists 4503599627370496%positive, (e + k + 1). cbn.
    destruct (Z.leb_spec (e + k + 1) (emax - prec));
      [|unfold emax, prec, k in *; lia].
    split; [done|]. split; [lia|]. split; [unfold k; lia|].
    replace (e + k + 1 - e) with (k + 1) by lia.
    rewrite Z.pow_add_r by lia. change (2 ^ 1) with 2. fold k.
    clearbody m1 F. nia.
  - rewrite (Zdigits2_eq m1 53) by (try done; cbn; lia).
    rewrite fexp_normal by (unfold emin, prec, emax, k; lia).
    replace (53 + (e + k) - prec - (e + k)) with 0 by (unfold prec; lia).
    cbn [shr shr_record_of_loc shr_m fst snd].
    destruct m1 as [|p|p] eqn:Em1; try lia.
    exists p, (e + k).
    destruct (Z.leb_spec (e + k) (emax - prec));
      [|unfold emax, prec, k in *; lia].
    split; [done|]. split; [lia|]. split; [unfold k; lia|].
    replace (e + k - e) with k by lia. fold k.
    clearbody F. nia.
Qed.

Lemma IZR_pow2 k : 0 <= k -> IZR (2 ^ k) = powerRZ 2 k.
Proof.
  intros Hk. rewrite <- (Z2Nat.id k Hk) at 1 2.
  by rewrite <- pow_IZR, pow_powerRZ.
Qed.

Lemma pow2_pos e : (0 < powerRZ 2 e)%R.
Proof. apply powerRZ_lt. lra. Qed.

Lemma pow2_add a b : powerRZ 2 (a + b) = (powerRZ 2 a * powerRZ 2 b)%R.
Proof. apply powerRZ_add. lra. Qed.

Lemma round_aux_near s q e l d :
  53 <= d -> 2 ^ (d - 1) <= q < 2 ^ d -> -1021 <= d + e <= 1023 ->
  exists m' e',
    binary_round_aux prec emax s q e l = S754_finite s m' e' /\
    2 ^ 52 <= Zpos m' < 2 ^ 53 /\
    d + e - 53 <= e' <= d + e - 52 /\
    near ulp1 (IZR (Zpos m') * powerRZ 2 e') (IZR q * powerRZ 2 e).
Proof.
  intros Hd Hq He.
  destruct (round_aux_normal s q e l d Hd Hq He)
    as (m' & e' & Hres & Hm & He' & Hlo & Hhi).
  exists m', e'. split; [done|]. split; [done|]. split; [done|].
  assert (Hk : 2 ^ (d - 53) * 2 ^ 52 <= q).
  { rewrite <- Z.pow_add_r by lia. replace (d - 53 + 52) with (d - 1) by lia.
    lia. }
  apply IZR_le in Hk, Hlo, Hhi.
  rewrite mult_IZR in Hk. rewrite minus_IZR in Hlo. rewrite plus_IZR in Hhi.
  change (2 ^ 52) with 4503599627370496 in Hk.
  unfold near, ulp1.
  replace e' with ((e' - e) + e) by lia. rewrite pow2_add.
  rewrite <- Rmult_assoc, <- (IZR_pow2 (e' - e)), <- mult_IZR by lia.
  pose proof (pow2_pos e) as HP.
  set (P := powerRZ 2 e) in *. set (X := IZR (Z.pos m' * 2 ^ (e' - e))) in *.
  set (K := IZR (2 ^ (d - 53))) in *. set (Q := IZR q) in *.
  split; nra.
Qed.

Lemma value_normal lo hi x :
  normal lo hi x -> (0 < value x)%R.
Proof.
  intros (m & e & -> & Hm & _). simpl.
  apply Rmult_lt_0_compat; [apply IZR_lt; lia|apply pow2_pos].
Qed.

Lemma normal_weaken lo hi lo' hi' x :
  normal lo hi x -> lo' <= lo -> hi <= hi' -> normal lo' hi' x.
Proof. intros (m & e & -> & Hm & He) ? ?. exists m, e. repeat split; lia. Qed.

(** The product of two normal doubles. *)
Lemma mul_normal a b c d x y :
  normal a b x -> normal c d y -> -1126 <= a + c -> b + d <= 917 ->
  normal (a + c + 52) (b + d + 54) (mul x y) /\
  near ulp1 (value (mul x y)) (value x * value y).
Proof.
  intros (mx & ex & -> & Hmx & Hex) (my & ey & -> & Hmy & Hey) Hlo Hhi.
  unfold mul, SFmul. cbn [xorb].
  change (2 ^ 52) with 4503599627370496 in *.
  change (2 ^ 53) with 9007199254740992 in *.
  set (q := Zpos (mx * my)).
  assert (Hq : q = Zpos mx * Zpos my) by (unfold q; lia).
  assert (Hq104 : 2 ^ 104 <= q) by (change (2 ^ 104) with
    (4503599627370496 * 4503599627370496); nia).
  assert (Hq106 : q < 2 ^ 106) by (change (2 ^ 106) with
    (9007199254740992 * 9007199254740992); nia).
  assert (Hval : (value (S754_finite false mx ex) *
                  value (S754_finite false my ey)
                  = IZR q * powerRZ 2 (ex + ey))%R).
  { cbn [value cond_Zopp]. rewrite Hq, mult_IZR, pow2_add. ring. }
  rewrite Hval.
  destruct (Z.lt_ge_cases q (2 ^ 105)) as [H105|H105].
  - destruct (round_aux_near false q (ex + ey) loc_Exact 105)
      as (m' & e' & -> & Hm' & He' & Hnear); [lia|split; [done|lia]|lia|].
    split; [|exact Hnear]. exists m', e'. repeat split; try done; lia.
  - destruct (round_aux_near false q (ex + ey) loc_Exact 106)
      as (m' & e' & -> & Hm' & He' & Hnear); [lia|split; [done|lia]|lia|].
    split; [|exact Hnear]. exists m', e'. repeat split; try done; lia.
Qed.

(** The quotient of two normal doubles. *)
Lemma div_normal a b c d x y :
  normal a b x -> normal c d y -> -1021 <= a - d -> b - c <= 1022 ->
  normal (a - d - 53) (b - c - 51) (div x y) /\
  near (2 * ulp1) (value (div x y)) (value x / value y).
Proof.
  intros (mx & ex & -> & Hmx & Hex) (my & ey & -> & Hmy & Hey) Hlo Hhi.
  unfold div, SFdiv, SFdiv_core_binary. cbn [xorb].
  rewrite (Zdigits2_eq (Zpos mx) 53), (Zdigits2_eq (Zpos my) 53)
    by (try done; cbn; lia).
  replace (53 + ex - (53 + ey)) with (ex - ey) by lia.
  rewrite fexp_normal by (unfold emin, prec, emax; lia).
  rewrite Z.min_l by (unfold prec; lia).
  replace (ex - ey - (ex - ey - prec)) with 53 by (unfold prec; lia).
  rewrite Z.shiftl_mul_pow2 by lia.
  change (2 ^ 52) with 4503599627370496 in *.
  change (2 ^ 53) with 9007199254740992 in *.
  set (m' := Zpos mx * 9007199254740992).
  pose proof (Z.div_mod m' (Zpos my) ltac:(lia)) as Hdm.
  pose proof (Z.mod_pos_bound m' (Zpos my) ltac:(lia)) as Hmod.
  assert (Hde : Z.div_eucl m' (Zpos my) = (m' / Zpos my, m' mod Zpos my)).
  { unfold Z.div, Z.modulo. by destruct (Z.div_eucl m' (Zpos my)). }
  rewrite Hde. set (q := m' / Zpos my) in *. set (r := m' mod Zpos my) in *.
  assert (Hq52 : 2 ^ 52 <= q).
  { apply Z.div_le_lower_bound; [lia|]. unfold m'.
    change (2 ^ 52) with 4503599627370496. nia. }
  assert (Hq54 : q < 2 ^ 54).
  { apply Z.div_lt_upper_bound; [lia|]. unfold m'.
    change (2 ^ 54) with (2 * 9007199254740992). nia. }
  set (e' := ex - ey - prec).
  assert (Hval : (value (S754_finite false mx ex) /
                  value (S754_finite false my ey)
                  = (IZR q + IZR r / IZR (Zpos my)) * powerRZ 2 e')%R).
  { cbn [value cond_Zopp].
    assert (Hm' : (IZR (Zpos mx) * 9007199254740992
                   = IZR (Zpos my) * IZR q + IZR r)%R).
    { rewrite <- (mult_IZR (Zpos my) q), <- (plus_IZR (Zpos my * q) r), <- Hdm.
      unfold m'. by rewrite mult_IZR. }
    replace ex with (e' + (ey + 53)) at 1 by (unfold e', prec; lia).
    rewrite !pow2_add. change (powerRZ 2 53) with (2 ^ 53)%R.
    assert (IZR (Zpos my) <> 0%R) by (apply not_0_IZR; lia).
    pose proof (pow2_pos ey). pose proof (pow2_pos e').
    field_simplify; [|lra..].
    replace (2 ^ 53)%R with 9007199254740992%R by lra.
    transitivity ((IZR (Z.pos mx) * 9007199254740992) * powerRZ 2 e'
                  / IZR (Z.pos my))%R; [field; lra|].
    rewrite Hm'. field. lra. }
  rewrite Hval.
  assert (Hbounds : forall m'' e'',
    2 ^ 52 <= Zpos m'' < 2 ^ 53 ->
    near ulp1 (IZR (Zpos m'') * powerRZ 2 e'') (IZR q * powerRZ 2 e') ->
    near (2 * ulp1) (value (S754_finite false m'' e''))
      ((IZR q + IZR r / IZR (Z.pos my)) * powerRZ 2 e')).
  { intros m'' e'' _ [Hn1 Hn2]. unfold near, ulp1 in *. cbn [value cond_Zopp].
    pose proof (pow2_pos e') as HP. set (P := powerRZ 2 e') in *.
    set (V := (IZR (Z.pos m'') * powerRZ 2 e'')%R) in *.
    assert (HQ : (4503599627370496 <= IZR q)%R)
      by (apply IZR_le in Hq52; exact Hq52).
    assert (Hrho : (0 <= IZR r / IZR (Z.pos my) < 1)%R).
    { assert (0 < IZR (Z.pos my))%R by (apply IZR_lt; lia).
      destruct Hmod as [Hr0 Hr1]. apply IZR_le in Hr0. apply IZR_lt in Hr1.
      split.
      - apply Rmult_le_pos; [done|]. apply Rlt_le, Rinv_0_lt_compat. done.
      - apply Rmult_lt_reg_r with (IZR (Z.pos my)); [done|].
        unfold Rdiv. rewrite Rmult_assoc, Rinv_l by lra. lra. }
    set (rho := (IZR r / IZR (Z.pos my))%R) in *. set (Q := IZR q) in *.
    split; nra. }
  destruct (Z.lt_ge_cases q (2 ^ 53)) as [H53|H53].
  - destruct (round_aux_near false q e' (new_location (Zpos my) r) 53)
      as (m'' & e'' & -> & Hm'' & He'' & Hnear);
      [lia|split; [done|lia]|unfold e', prec; lia|].
    split; [|by apply Hbounds].
    exists m'', e''. unfold e', prec in *. repeat split; try done; lia.
  - destruct (round_aux_near false q e' (new_location (Zpos my) r) 54)
      as (m'' & e'' & -> & Hm'' & He'' & Hnear);
      [lia|split; [done|lia]|unfold e', prec; lia|].
    split; [|by apply Hbounds].
    exists m'', e''. unfold e', prec in *. repeat split; try done; lia.
Qed.

(** Rounding a positive integer mantissa of [d] digits whose value lies
    in the normal range. *)
Lemma binary_round_normal s mx ex d :
  0 < d -> 2 ^ (d - 1) <= Zpos mx < 2 ^ d -> -1021 <= d + ex <= 1023 ->
  exists m' e',
    binary_round prec emax s mx ex = S754_finite s m' e' /\
    2 ^ 52 <= Zpos m' < 2 ^ 53 /\
    d + ex - 53 <= e' <= d + ex - 52 /\
    near ulp1 (IZR (Zpos m') * powerRZ 2 e') (IZR (Zpos mx) * powerRZ 2 ex).
Proof.
  intros Hd Hm He. unfold binary_round.
  pose proof (Zdigits2_eq (Zpos mx) d Hd Hm) as Hdig. simpl in Hdig.
  rewrite Hdig, fexp_normal by (unfold emin, prec, emax; lia).
  unfold shl_align.
  destruct (d + ex - prec - ex) as [|k|k] eqn:Hk.
  - apply (round_aux_near s (Zpos mx) ex loc_Exact d); unfold prec in *; lia.
  - apply (round_aux_near s (Zpos mx) ex loc_Exact d); unfold prec in *; lia.
  - unfold shift_pos.
    assert (Hk' : Zpos k = 53 - d) by (unfold prec in *; lia).
    assert (Hv : Zpos (Pos.iter xO mx k) = Zpos mx * 2 ^ (53 - d))
      by (rewrite shift_pos_value; congruence).
    assert (Hr : 2 ^ (53 - 1) <= Zpos (Pos.iter xO mx k) < 2 ^ 53).
    { rewrite Hv.
      replace (53 - 1) with ((d - 1) + (53 - d)) by lia.
      replace 53 with (d + (53 - d)) at 4 by lia.
      rewrite !Z.pow_add_r by lia.
      assert (0 < 2 ^ (53 - d)) by (apply Z.pow_pos_nonneg; lia).
      nia. }
    destruct (round_aux_near s (Zpos (Pos.iter xO mx k)) (d + ex - prec)
                loc_Exact 53) as (m' & e' & Hres & Hm' & He' & Hn);
      [lia|exact Hr|unfold prec; lia|].
    exists m', e'. split; [done|]. split; [done|].
    split; [unfold prec in *; lia|].
    replace (IZR (Zpos mx) * powerRZ 2 ex)%R
      with (IZR (Zpos (Pos.iter xO mx k)) * powerRZ 2 (d + ex - prec))%R;
      [done|].
    rewrite Hv, mult_IZR, IZR_pow2 by lia.
    rewrite Rmult_assoc, <- pow2_add. f_equal. f_equal. unfold prec. lia.
Qed.

(** The number of binary digits of a positive number. *)
Lemma size_bounds p :
  2 ^ (Zpos (Pos.size p) - 1) <= Zpos p < 2 ^ Zpos (Pos.size p).
Proof.
  pose proof (Pos.size_gt p) as Hgt. pose proof (Pos.size_le p) as Hle.
  apply Pos2Z.pos_lt_pos in Hgt. apply Pos2Z.pos_le_pos in Hle.
  rewrite Pos2Z.inj_pow in Hgt, Hle.
  assert (Hp0 : Z.pos p~0 = 2 * Z.pos p) by lia. rewrite Hp0 in Hle.
  clear Hp0. split; [|done].
  replace (Zpos (Pos.size p)) with (Zpos (Pos.size p) - 1 + 1) in Hle by lia.
  rewrite Z.pow_add_r in Hle by lia. lia.
Qed.

Lemma size_le_of_lt p k : 0 <= k -> Zpos p < 2 ^ k -> Zpos (Pos.size p) <= k.
Proof.
  intros Hk Hp. destruct (size_bounds p) as [Hlo _].
  destruct (Z.le_gt_cases (Zpos (Pos.size p)) k) as [|Hgt]; [done|exfalso].
  assert (2 ^ k <= 2 ^ (Zpos (Pos.size p) - 1))
    by (apply Z.pow_le_mono_r; lia).
  lia.
Qed.

(** A positive [size_t] converts to a normal double, with one rounding. *)
Lemma of_Z_normal z :
  0 < z < 2 ^ 64 ->
  normal (-52) 12 (of_Z z) /\ near ulp1 (value (of_Z z)) (IZR z).
Proof.
  intros Hz. destruct z as [|p|p]; try lia.
  unfold of_Z. cbn [binary_normalize].
  pose proof (size_bounds p) as Hd.
  pose proof (size_le_of_lt p 64 ltac:(lia) ltac:(lia)) as Hd64.
  destruct (binary_round_normal false p 0 (Zpos (Pos.size p)))
    as (m' & e' & -> & Hm' & He' & Hn); [lia|done|lia|].
  split.
  - exists m', e'. repeat split; try done; lia.
  - cbn [value cond_Zopp]. change (powerRZ 2 0) with 1%R in Hn.
    by rewrite Rmult_1_r in Hn.
Qed.

(** A double at least [TIME_GOAL] is positive, with an exponent no
    smaller than that of [TIME_GOAL]. *)
Lemma leb_goal_finite s m e :
  leb TIME_GOAL (S754_finite s m e) = true -> s = false /\ -51 <= e.
Proof.
  unfold leb, SFleb, TIME_GOAL, c2_0. cbn [SFcompare].
  destruct s; [done|]. intros H. split; [done|].
  destruct (Z.compare_spec (-51) e); try lia; done.
Qed.

Lemma leb_goal_negative mx ex :
  leb TIME_GOAL (binary_round prec emax true mx ex) = false.
Proof.
  unfold binary_round, binary_round_aux.
  destruct (shl_align _ _ _) as [mz ez].
  destruct (shr_fexp prec emax (Zpos mz) ez loc_Exact) as [r1 e1].
  destruct (shr_fexp prec emax _ e1 loc_Exact) as [r2 e2].
  destruct (shr_m r2); [done| |done].
  by destruct (e2 <=? emax - prec).
Qed.

Lemma shl_align_value mx ex ez :
  ez <= ex -> Zpos (shl_align mx ex ez).1 = Zpos mx * 2 ^ (ex - ez).
Proof.
  intros H. unfold shl_align.
  destruct (ez - ex) as [|k|k] eqn:Hk; cbn [fst]; try lia.
  - replace (ex - ez) with 0 by lia. lia.
  - rewrite shift_pos_value. f_equal. f_equal. lia.
Qed.

Lemma of_Z_zero_or_normal z :
  - 2 ^ 64 < z < 2 ^ 64 -> zero_or_normal (-52) 12 (of_Z z).
Proof.
  intros Hz. destruct z as [|p|p]; [by left|right..];
    unfold of_Z; cbn [binary_normalize].
  - pose proof (size_bounds p) as Hd.
    pose proof (size_le_of_lt p 64 ltac:(lia) ltac:(lia)) as Hd64.
    destruct (binary_round_normal false p 0 (Zpos (Pos.size p)))
      as (m' & e' & -> & Hm' & He' & _); [lia|done|lia|].
    exists false, m', e'. repeat split; try done; lia.
  - pose proof (size_bounds p) as Hd.
    pose proof (size_le_of_lt p 64 ltac:(lia) ltac:(lia)) as Hd64.
    destruct (binary_round_normal true p 0 (Zpos (Pos.size p)))
      as (m' & e' & -> & Hm' & He' & _); [lia|done|lia|].
    exists true, m', e'. repeat split; try done; lia.
Qed.

(** A sum of two such doubles that reaches [TIME_GOAL] is normal. *)
Lemma add_goal_normal x y :
  zero_or_normal (-52) 12 x -> zero_or_normal (-82) (-16) y ->
  leb TIME_GOAL (add x y) = true ->
  normal (-51) 14 (add x y).
Proof.
  intros [->|(sx & mx & ex & -> & Hmx & Hex)]
         [->|(sy & my & ey & -> & Hmy & Hey)]; unfold add; cbn [SFadd].
  - done.
  - intros [-> He]%leb_goal_finite. exists my, ey. repeat split; lia.
  - intros [-> He]%leb_goal_finite. exists mx, ex. repeat split; lia.
  - cbn zeta.
    rewrite !shl_align_value by lia.
    set (ez := Z.min ex ey).
    assert (HA : 0 < 2 ^ (ex - ez) <= 2 ^ (12 - ez)).
    { split; [apply Z.pow_pos_nonneg; lia|apply Z.pow_le_mono_r; lia]. }
    assert (HB : 0 < 2 ^ (ey - ez) <= 2 ^ (12 - ez)).
    { split; [apply Z.pow_pos_nonneg; lia|apply Z.pow_le_mono_r; lia]. }
    assert (HC : 2 ^ (66 - ez) = 2 ^ 53 * 2 * 2 ^ (12 - ez)).
    { replace (66 - ez) with (53 + 1 + (12 - ez)) by lia.
      by rewrite !Z.pow_add_r by lia. }
    set (A := 2 ^ (ex - ez)) in *. set (B := 2 ^ (ey - ez)) in *.
    set (C := 2 ^ (12 - ez)) in *.
    assert (Hsum : cond_Zopp sx (Zpos mx * A) + cond_Zopp sy (Zpos my * B)
                   < 2 ^ (66 - ez)).
    { rewrite HC. change (2 ^ 53) with 9007199254740992 in *.
      destruct sx, sy; cbn [cond_Zopp]; nia. }
    destruct (cond_Zopp sx (Zpos mx * A) + cond_Zopp sy (Zpos my * B))
      as [|p|p] eqn:Hp; cbn [binary_normalize].
    + done.
    + intros Hle.
      pose proof (size_bounds p) as Hd.
      pose proof (size_le_of_lt p (66 - ez) ltac:(lia) Hsum) as Hd66.
      destruct (binary_round_normal false p ez (Zpos (Pos.size p)))
        as (m' & e' & Hres & Hm' & He' & _); [lia|done|lia|].
      rewrite Hres in Hle |- *.
      apply leb_goal_finite in Hle as [_ Hle].
      exists m', e'. repeat split; try done; lia.
    + by rewrite leb_goal_negative.
Qed.

Lemma c1e_9_normal : normal (-82) (-82) c1e_9.
Proof. exists 4835703278458517%positive, (-82). repeat split; lia. Qed.

(** An accepted elapsed time is a normal double. *)
Lemma tsdiff_normal start end_ :
  valid_timespec start -> valid_timespec end_ ->
  leb TIME_GOAL (tsdiff start end_) = true ->
  normal (-51) 14 (tsdiff start end_).
Proof.
  intros Hs He.
  destruct (tsdiff_borrow _ _ Hs He) as (sec & nsec & -> & Hns & Hsec & _).
  apply add_goal_normal.
  - apply of_Z_zero_or_normal. lia.
  - destruct (Z.eq_dec nsec 0) as [->|Hnz]; [by left|right].
    destruct (of_Z_normal nsec ltac:(lia)) as [Hn _].
    destruct (mul_normal _ _ _ _ _ _ Hn c1e_9_normal ltac:(lia) ltac:(lia))
      as [(m & e & -> & Hm & He') _].
    exists false, m, e. repeat split; try done; lia.
Qed.

(** *** Relative errors *)

Lemma ulp1_bounds : (0 <= ulp1 <= 1)%R.
Proof. unfold ulp1. lra. Qed.

Lemma near_mul a b x y X Y :
  (0 <= X)%R -> (0 <= Y)%R -> (0 <= a <= 1)%R -> (0 <= b <= 1)%R ->
  near a x X -> near b y Y -> near (a + b + a * b) (x * y) (X * Y).
Proof.
  unfold near. intros HX HY Ha Hb [Hx1 Hx2] [Hy1 Hy2].
  assert (0 <= X * (1 - a))%R by nra.
  assert (0 <= Y * (1 - b))%R by nra.
  assert (0 <= X * Y)%R by nra.
  assert (0 <= a * b)%R by nra.
  assert (X * (1 - a) * (Y * (1 - b)) <= x * y)%R
    by (apply Rmult_le_compat; lra).
  assert (x * y <= X * (1 + a) * (Y * (1 + b)))%R
    by (apply Rmult_le_compat; lra).
  split; nra.
Qed.

Lemma near_trans a b x Y Z :
  (0 <= Z)%R -> (0 <= a <= 1)%R -> (0 <= b <= 1)%R ->
  near a x Y -> near b Y Z -> near (a + b + a * b) x Z.
Proof.
  unfold near. intros HZ Ha Hb [Hx1 Hx2] [Hy1 Hy2].
  assert (0 <= Z * a * b)%R by nra.
  split; nra.
Qed.

Lemma near_scale eps x X k :
  (0 <= k)%R -> near eps x X -> near eps (x * k) (X * k).
Proof. unfold near. intros Hk [H1 H2]. split; nra. Qed.

Lemma near_weaken a b x X :
  (0 <= X)%R -> (a <= b)%R -> near a x X -> near b x X.
Proof. unfold near. intros HX Hab [H1 H2]. split; nra. Qed.

Lemma near_zero eps : near eps 0 0.
Proof. unfold near. lra. Qed.

Lemma c1e_6_normal : normal (-72) (-72) c1e_6.
Proof. exists 4722366482869645%positive, (-72). repeat split; lia. Qed.

(** The double nearest to [10^-6]. *)
Lemma c1e_6_near : near ulp1 (value c1e_6) (/ 1000000).
Proof.
  unfold near, ulp1, c1e_6, value. cbn [cond_Zopp].
  change (powerRZ 2 (-72)) with (/ 2 ^ 72)%R.
  replace (2 ^ 72)%R with 4722366482869645213696%R by lra.
  lra.
Qed.

Lemma of_Z_cases z :
  0 <= z < 2 ^ 64 ->
  (z = 0 /\ of_Z z = S754_zero false) \/
  (0 < z /\ normal (-52) 12 (of_Z z) /\ near ulp1 (value (of_Z z)) (IZR z)).
Proof.
  intros Hz. destruct (Z.eq_dec z 0) as [->|Hnz]; [by left|right].
  split; [lia|]. apply of_Z_normal. lia.
Qed.

Lemma mul_zero_l lo hi y :
  y = S754_zero false \/ normal lo hi y ->
  mul (S754_zero false) y = S754_zero false.
Proof. by intros [->|(m & e & -> & _)]. Qed.

Lemma mul_zero_r lo hi x :
  normal lo hi x -> mul x (S754_zero false) = S754_zero false.
Proof. by intros (m & e & -> & _). Qed.

Lemma div_zero_l lo hi y :
  normal lo hi y -> div (S754_zero false) y = S754_zero false.
Proof. by intros (m & e & -> & _). Qed.

Lemma normal_finite lo hi x : normal lo hi x -> is_finite x = true.
Proof. by intros (m & e & -> & _). Qed.

(** Six roundings separate the printed throughput from [n * m / (10^6 *
    elapsed)]: that of the constant, of the two conversions, of the two
    products and of the quotient. *)
Lemma round_trip n m e :
  SizeT.in_range n -> SizeT.in_range m -> normal (-51) 14 e ->
  is_finite (div (mul (mul c1e_6 (of_Z n)) (of_Z m)) e) = true /\
  near (8 * ulp1) (value (div (mul (mul c1e_6 (of_Z n)) (of_Z m)) e) * value e * 1000000)
    (IZR n * IZR m).
Proof.
  unfold SizeT.in_range, SizeT.modulus, SizeT.bits. intros Hn Hm He.
  destruct (of_Z_cases n Hn) as [[-> ->]|(Hn0 & HNn & HNv)].
  { rewrite (mul_zero_r _ _ _ c1e_6_normal).
    rewrite (mul_zero_l (-52) 12), (div_zero_l _ _ _ He).
    - split; [done|]. cbn [value]. rewrite !Rmult_0_l. apply near_zero.
    - destruct (of_Z_cases m Hm) as [[_ ->]|(_ & H & _)]; [by left|by right]. }
  destruct (mul_normal _ _ _ _ _ _ c1e_6_normal HNn ltac:(lia) ltac:(lia))
    as [HA1n HA1v].
  destruct (of_Z_cases m Hm) as [[-> ->]|(Hm0 & HMn & HMv)].
  { rewrite (mul_zero_r _ _ _ HA1n), (div_zero_l _ _ _ He).
    split; [done|]. cbn [value]. rewrite Rmult_0_r, !Rmult_0_l.
    apply near_zero. }
  destruct (mul_normal _ _ _ _ _ _ HA1n HMn ltac:(lia) ltac:(lia))
    as [HA2n HA2v].
  destruct (div_normal _ _ _ _ _ _ HA2n He ltac:(lia) ltac:(lia))
    as [HTn HTv].
  split; [by eapply normal_finite|].
  pose proof ulp1_bounds as Hu.
  pose proof (value_normal _ _ _ He) as HE.
  assert (HN : (0 < IZR n)%R) by (by apply IZR_lt).
  assert (HM : (0 < IZR m)%R) by (by apply IZR_lt).
  set (T := value (div _ e)) in *.
  set (A2 := value (mul _ (of_Z m))) in *.
  set (A1 := value (mul c1e_6 (of_Z n))) in *.
  set (u := ulp1) in *.
  assert (Hu2 : (u <= / 1000)%R) by (unfold u, ulp1; lra).
  (* 1e-6 * n *)
  set (e1 := (u + u + u * u)%R).
  assert (He1 : (0 <= e1 <= 2 * u + u / 10)%R) by (unfold e1; nra).
  assert (H1 : near e1 (value c1e_6 * value (of_Z n)) (/ 1000000 * IZR n))
    by (apply near_mul; [lra|lra|done|done|exact c1e_6_near|exact HNv]).
  set (e2 := (u + e1 + u * e1)%R).
  assert (He2 : (0 <= e2 <= 3 * u + u / 5)%R) by (unfold e2; nra).
  assert (H2 : near e2 A1 (/ 1000000 * IZR n))
    by (apply near_trans with (value c1e_6 * value (of_Z n))%R;
        [nra|done|lra|done|done]).
  (* ... * m *)
  set (e3 := (e2 + u + e2 * u)%R).
  assert (He3 : (0 <= e3 <= 4 * u + u / 4)%R) by (unfold e3; nra).
  assert (H3 : near e3 (A1 * value (of_Z m)) (/ 1000000 * IZR n * IZR m))
    by (apply near_mul; [nra|lra|lra|done|done|exact HMv]).
  set (e4 := (u + e3 + u * e3)%R).
  assert (He4 : (0 <= e4 <= 5 * u + u / 3)%R) by (unfold e4; nra).
  assert (H4 : near e4 A2 (/ 1000000 * IZR n * IZR m))
    by (apply near_trans with (A1 * value (of_Z m))%R;
        [nra|done|lra|done|done]).
  (* ... / elapsed, and back *)
  assert (H5 : near (2 * u) (T * value e) A2).
  { assert (Hq : A2 = (A2 / value e * value e)%R) by (field; lra).
    rewrite Hq. destruct HTv as [Ht1 Ht2]. unfold near.
    set (q := (A2 / value e)%R) in *. split; nra. }
  set (e6 := (2 * u + e4 + 2 * u * e4)%R).
  assert (He6 : (0 <= e6 <= 8 * u)%R) by (unfold e6; nra).
  assert (H6 : near e6 (T * value e) (/ 1000000 * IZR n * IZR m))
    by (apply near_trans with A2; [nra|lra|lra|done|done]).
  apply (near_scale _ _ _ 1000000) in H6; [|lra].
  replace (/ 1000000 * IZR n * IZR m * 1000000)%R with (IZR n * IZR m)%R
    in H6 by (field; lra).
  eapply near_weaken; [nra| |exact H6].
  lra.
Qed.

Lemma format_line_metrics g counts elapsed name filename n m :
  l_m (format_line g counts elapsed name filename n m) = m /\
  l_ns_per_op (format_line g counts elapsed name filename n m)
  = div (mul elapsed c1e9) (of_Z m) /\
  l_MBps (format_line g counts elapsed name filename n m)
  = div (mul (mul c1e_6 (of_Z n)) (of_Z m)) elapsed.
Proof. unfold format_line. by destruct name as [[|c rest]|]. Qed.

(** C6. When [run_test] prints a result line for a file of [n] bytes
    ([n] a [size_t]), the line is that of the last pass, whose two
    measurement points are taken to hold valid timespecs. With [e] the
    elapsed time and [m] the multiplier of that pass, the line shows
    [m], the ns/op column is the double [(e * 1e9) / m] and the MB/s
    column is the double [(1e-6 * n * m) / e]. The latter is finite,
    and as real numbers [MBps * e * 10^6] is [n * m] up to the relative
    error [8 * 2^-52]. *)
Theorem metrics_round_trip {P : Type} (g : globals) (u : indeterminate)
    (name : option string) (test : testfunc P) (payload : P)
    (filename : string) (n : Z) (fuel : nat) (w w' : world)
    (r : run_result) :
  run_test g u name test payload filename n fuel w = (r, w') ->
  r_status r = Reported ->
  (forall p, last (r_passes r) = Some p ->
     valid_timespec (ts (p_start p)) /\ valid_timespec (ts (p_end p))) ->
  SizeT.in_range n ->
  exists pl counts ln,
    last (r_passes r) = Some pl /\
    counts_of g u pl = Some counts /\
    ln = line_of g name filename n counts pl /\
    last (w_stdout w') = Some (OutLine ln) /\
    l_m ln = p_m pl /\
    l_ns_per_op ln = div (mul (p_elapsed pl) c1e9) (of_Z (p_m pl)) /\
    l_MBps ln
    = div (mul (mul c1e_6 (of_Z n)) (of_Z (p_m pl))) (p_elapsed pl) /\
    is_finite (l_MBps ln) = true /\
    near (8 * ulp1) (value (l_MBps ln) * value (p_elapsed pl) * 1000000)
      (IZR n * IZR (p_m pl)).
Proof.
  unfold run_test. intros Hrun Hst Hvalid Hn.
  pose proof (run_test_loop_trace _ _ _ _ _ _ _ _ _ _ _ _ _ _ _ Hrun) as Ht.
  pose proof (trace_in_range _ _ _ _ Ht one_in_range) as Hr.
  rewrite Hst in Ht.
  destruct (trace_reported_last _ _ _ _ Ht eq_refl) as (pl & Hl & Hb & _).
  destruct (run_test_loop_reported _ _ _ _ _ _ _ _ _ _ _ _ _ _ _ Hrun Hst)
    as (pl' & counts & Hl' & Hc & Ho).
  rewrite Hl in Hl'. injection Hl' as <-.
  destruct (Hvalid _ Hl) as [Hs He].
  assert (Hm : SizeT.in_range (p_m pl)).
  { rewrite Forall_forall in Hr. by apply Hr, last_Some_elem_of. }
  assert (Hle : leb TIME_GOAL (p_elapsed pl) = true).
  { apply ltb_false_leb; [exact Hb| |done]. by apply tsdiff_not_nan. }
  pose proof (tsdiff_normal _ _ Hs He Hle) as Hnorm.
  destruct (round_trip n (p_m pl) (p_elapsed pl) Hn Hm Hnorm) as [Hfin Hnear].
  destruct (format_line_metrics g counts (p_elapsed pl) name filename n
              (p_m pl)) as (Hlm & Hns & Hmb).
  exists pl, counts, (line_of g name filename n counts pl).
  unfold line_of. rewrite Hmb.
  do 4 (split; [done|]). split; [exact Hlm|]. split; [exact Hns|].
  split; [done|]. split; [exact Hfin|exact Hnear].
Qed.

Lemma metrics_round_trip_witness :
  r_status (Sample.case Sample.accept_all Sample.u0 4 5 Sample.w_grow).1
    = Reported /\
  exists pl counts ln,
    last (r_passes
            (Sample.case Sample.accept_all Sample.u0 4 5 Sample.w_grow).1)
      = Some pl /\
    counts_of Sample.g2 Sample.u0 pl = Some counts /\
    ln = line_of Sample.g2 (Some "ref"%string) "f" 4 counts pl /\
    last (w_stdout
            (Sample.case Sample.accept_all Sample.u0 4 5 Sample.w_grow).2)
      = Some (OutLine ln) /\
    l_m ln = p_m pl /\
    l_ns_per_op ln = div (mul (p_elapsed pl) c1e9) (of_Z (p_m pl)) /\
    l_MBps ln
    = div (mul (mul c1e_6 (of_Z 4)) (of_Z (p_m pl))) (p_elapsed pl) /\
    is_finite (l_MBps ln) = true /\
    near (8 * ulp1) (value (l_MBps ln) * value (p_elapsed pl) * 1000000)
      (IZR 4 * IZR (p_m pl)).
Proof.
  assert (Hrun : run_test Sample.g2 Sample.u0 (Some "ref"%string)
            (test_utf16le_validate false Sample.g2) Sample.accept_all
            "f" 4 5 Sample.w_grow =
          ((Sample.case Sample.accept_all Sample.u0 4 5 Sample.w_grow).1,
           (Sample.case Sample.accept_all Sample.u0 4 5 Sample.w_grow).2))
    by (vm_compute; reflexivity).
  assert (Hst : r_status
            (Sample.case Sample.accept_all Sample.u0 4 5 Sample.w_grow).1
            = Reported)
    by (vm_compute; reflexivity).
  assert (Hvalid : forall p,
            last (r_passes
              (Sample.case Sample.accept_all Sample.u0 4 5 Sample.w_grow).1)
            = Some p ->
            valid_timespec (ts (p_start p)) /\
            valid_timespec (ts (p_end p))).
  { intros p Hp. vm_compute in Hp. injection Hp as <-.
    unfold valid_timespec. simpl. lia. }
  assert (Hn : SizeT.in_range 4) by (split; [lia|reflexivity]).
  split; [exact Hst|].
  exact (metrics_round_trip _ _ _ _ _ _ _ _ _ _ _ Hrun Hst Hvalid Hn).
Defined.

(** ** Hardware counters *)

(** With its index started at 0, [counterdiff] does what it is meant
    to do. *)
Lemma counterdiff_from_zero g out start end_ :
  length (events g) = 2%nat -> length out = 2%nat ->
  length start = CTR_LEN -> length end_ = CTR_LEN ->
  counterdiff g 0 out start end_ = Some (expected_counts g start end_).
Proof.
  unfold expected_counts, counterdiff, delta, word.
  destruct g as [eg nc evs]. cbn [events].
  destruct evs as [|e0 [|e1 [|? ?]]]; try done.
  destruct out as [|o0 [|o1 [|? ?]]]; try done.
  destruct start as [|s0 [|s1 [|s2 [|s3 [|s4 [|? ?]]]]]]; try done.
  destruct end_ as [|d0 [|d1 [|d2 [|d3 [|d4 [|? ?]]]]]]; try done.
  intros _ _ _ _. cbv -[Z.eqb SizeT.sub fd].
  destruct (fd e0 =? -1); destruct (fd e1 =? -1); reflexivity.
Qed.

Lemma init_counter_spec i g w g' w' ev :
  events g !! i = Some ev ->
  init_counter i g w = (g', w') ->
  events g' = <[i := {| ev_type := ev_type ev;
                        fd := shead (w_perf_open w);
                        conf := conf ev |}]> (events g) /\
  num_counters g' =
    num_counters g + (if shead (w_perf_open w) =? -1 then 0 else 1) /\
  event_group g' =
    (if shead (w_perf_open w) =? -1 then event_group g
     else if event_group g =? -1 then shead (w_perf_open w)
          else event_group g).
Proof.
  unfold init_counter. intros -> H.
  unfold mbind, M_bind, mret, M_ret, perf_event_open, perror, eprint in H.
  destruct (shead (w_perf_open w) =? -1); cbn in H;
    injection H as <- <-; cbn; repeat split; lia.
Qed.

(** [init_counters] counts the handles it obtains. *)
Lemma init_counters_count w g w' :
  init_counters globals0 w = (g, w') ->
  length (events g) = 2%nat /\
  (num_counters g = EVENT_COUNT <-> all_open g) /\
  (event_group g = -1 <-> num_counters g = 0).
Proof.
  unfold init_counters, all_open.
  change (seq 0 (Z.to_nat EVENT_COUNT)) with [0%nat; 1%nat].
  cbn [foldl]. unfold mbind at 1 2, M_bind at 1 2, mret, M_ret.
  destruct (init_counter 0 globals0 w) as [g0 w0] eqn:H0.
  apply init_counter_spec with (ev := {| ev_type := PERF_TYPE_HARDWARE;
    fd := -1; conf := PERF_COUNT_HW_CPU_CYCLES |}) in H0 as (He0 & Hn0 & Hg0);
    [|done].
  intros H1.
  apply init_counter_spec with (ev := {| ev_type := PERF_TYPE_HARDWARE;
    fd := -1; conf := PERF_COUNT_HW_INSTRUCTIONS |}) in H1
    as (He1 & Hn1 & Hg1); [|by rewrite He0].
  rewrite He1, He0, Hn1, Hn0, Hg1, Hg0. cbn.
  rewrite !Forall_cons, Forall_nil. cbn. unfold EVENT_COUNT.
  destruct (Z.eqb_spec (shead (w_perf_open w)) (-1)) as [E0|E0];
    destruct (Z.eqb_spec (shead (w_perf_open w0)) (-1)) as [E1|E1];
    cbn; rewrite ?E0, ?E1; (split; [done|]); split; split;
    try done; try lia; try tauto.
  all: try (destruct (Z.eqb_spec (shead (w_perf_open w)) (-1)); lia).
Qed.

(** Started at [EVENT_COUNT] or beyond, the loop of [counterdiff] does
    not run at all and [out] keeps what it held. *)
Lemma counterdiff_skipped g i0 out start end_ :
  EVENT_COUNT <= i0 -> counterdiff g i0 out start end_ = Some out.
Proof.
  intros H. unfold counterdiff. change (Z.to_nat EVENT_COUNT) with 2%nat.
  cbn [counterdiff_loop]. destruct (Z.ltb_spec i0 EVENT_COUNT); [lia|done].
Qed.

(** The hardware columns are printed exactly when [num_counters]
    equals [EVENT_COUNT], and are then computed from the array that
    [counterdiff] has filled. *)
Lemma hw_columns_gate g u name start end_ filename n m w w' :
  print_results g u name start end_ filename n m w = (true, w') ->
  exists counts l,
    counterdiff g (u_i u) (resize (Z.to_nat EVENT_COUNT) 0 (u_counts u))
      (ctr start) (ctr end_) = Some counts /\
    w_stdout w' = w_stdout w ++ [OutLine l] /\
    l_hw l = (if num_counters g =? EVENT_COUNT
              then Some (hw_columns counts n m) else None).
Proof.
  unfold print_results. destruct (counterdiff _ _ _ _ _) as [counts|];
    [|by intros [=]].
  unfold mbind, M_bind, mret, M_ret, print. intros [= <-].
  eexists counts, _. split; [done|]. split; [done|].
  unfold format_line. by repeat case_match.
Qed.

(** C10. The index of [counterdiff] is not initialised: the loop
    starts wherever [i] happens to stand. On two snapshots 100 cycles
    and 300 instructions apart, with both counters open, the function
    yields those differences only when [i] happens to be 0; from 2 it
    leaves the uninitialised [out] as it is, from 1 it stores the
    cycle difference as the instruction count, from -1 it leaves the
    arrays. *)
Theorem counterdiff_index_uninitialised :
  expected_counts Sample.g2 [2; 400; 7; 1200; 8] [2; 500; 7; 1500; 8]
    = [100; 300] /\
  counterdiff Sample.g2 0 [11; 12] [2; 400; 7; 1200; 8] [2; 500; 7; 1500; 8]
    = Some [100; 300] /\
  counterdiff Sample.g2 2 [11; 12] [2; 400; 7; 1200; 8] [2; 500; 7; 1500; 8]
    = Some [11; 12] /\
  counterdiff Sample.g2 1 [11; 12] [2; 400; 7; 1200; 8] [2; 500; 7; 1500; 8]
    = Some [11; 100] /\
  counterdiff Sample.g2 (-1) [11; 12] [2; 400; 7; 1200; 8]
    [2; 500; 7; 1500; 8] = None.
Proof. repeat split; vm_compute; reflexivity. Qed.

(** C5. With both counters open the three columns are printed, but
    they are computed from what [counterdiff] leaves in [counts]. When
    the uninitialised index of [counterdiff] holds 2, the run below
    reports the columns of the stack content [11; 12] and not those of
    the differences [100; 300] between its two snapshots. *)
Theorem hw_columns_of_stale_counts :
  all_open Sample.g2 /\
  r_status (Sample.case Sample.accept_all (Sample.u_i_is 2) 4 5
              Sample.w_fast).1 = Reported /\
  exists pl l,
    last (r_passes (Sample.case Sample.accept_all (Sample.u_i_is 2) 4 5
                      Sample.w_fast).1) = Some pl /\
    w_stdout (Sample.case Sample.accept_all (Sample.u_i_is 2) 4 5
                Sample.w_fast).2 = [OutLine l] /\
    expected_counts Sample.g2 (ctr (p_start pl)) (ctr (p_end pl))
      = [100; 300] /\
    l_hw l = Some (hw_columns [11; 12] 4 (p_m pl)) /\
    l_hw l <> Some (hw_columns [100; 300] 4 (p_m pl)).
Proof.
  split.
  { unfold all_open. vm_compute. repeat constructor; discriminate. }
  split; [vm_compute; reflexivity|].
  eexists _, _. split; [vm_compute; reflexivity|].
  split; [vm_compute; reflexivity|].
  split; [vm_compute; reflexivity|].
  split; [vm_compute; reflexivity|].
  vm_compute. discriminate.
Qed.

(** ** Loading the file *)

Lemma sys_read_spec content pos req w count bs w' :
  sys_read content pos req w = ((count, bs), w') ->
  w' = set_chunk (stail (w_chunk w)) w /\
  (shead (w_chunk w) < 0 /\ count = -1 /\ bs = [] \/
   0 <= shead (w_chunk w) /\
   count = Z.max 0 (Z.min req (Z.min (Z.of_nat (length content) - pos)
                                     (Z.max 1 (shead (w_chunk w))))) /\
   bs = take (Z.to_nat count) (drop (Z.to_nat pos) content)).
Proof.
  unfold sys_read. destruct (Z.ltb_spec (shead (w_chunk w)) 0);
    intros [= <- <- <-]; auto.
Qed.

Lemma read_loop_short filename content n fuel :
  Z.of_nat (length content) < n ->
  forall rem data w r data' w',
    0 < rem <= n -> n - rem <= Z.of_nat (length content) ->
    (Z.to_nat rem <= fuel)%nat ->
    read_loop fuel filename content n rem data w = ((r, data'), w') ->
    r = -1 /\ w_stdout w' = w_stdout w /\
    ((forall k, 0 <= w_chunk w k) ->
     w_stderr w' =
       w_stderr w ++ [ShortFile filename (Z.of_nat (length content)) n]).
Proof.
  intros Hlen. induction fuel as [|fuel IH];
    intros rem data w r data' w' Hrem Hoff Hfuel H; [lia|].
  cbn [read_loop] in H. destruct (Z.ltb_spec 0 rem); [|lia].
  unfold mbind, M_bind in H.
  destruct (sys_read _ _ _ _) as [[count bs] w1] eqn:Hread.
  apply sys_read_spec in Hread as (-> & [(Hc & -> & ->)|(Hc & Hcount & ->)]).
  - cbn in H. injection H as <- <- <-. cbn. split; [done|]. split; [done|].
    intros Hk. specialize (Hk 0%nat). unfold shead in Hc. lia.
  - destruct (Z.ltb_spec count 0); [lia|].
    destruct (Z.eqb_spec count 0) as [E|E].
    + cbn in H. injection H as <- <- <-. cbn. split; [done|]. split; [done|].
      intros _. do 3 f_equal. lia.
    + unfold store_bytes at 1 in H.
      apply IH in H as (-> & Hout & Herr); [|lia..].
      split; [done|]. split; [done|].
      intros Hk. apply Herr. intros k. apply (Hk (S k)).
Qed.

Lemma store_bytes_loaded data content off k w data' w' :
  loaded data content off -> 0 <= off -> 0 < k ->
  off + k <= Z.of_nat (length content) ->
  store_bytes data off (take (Z.to_nat k) (drop (Z.to_nat off) content)) w
    = (data', w') ->
  loaded data' content (off + k) /\
  buf_size data' = buf_size data /\
  w' = set_overflow
         (w_overflow w + (Z.max (off + k) (buf_size data)
                          - Z.max off (buf_size data))) w.
Proof.
  unfold loaded, store_bytes. intros [Hlen Hpre] Hoff Hk Hfit [= <- <-].
  cbn [buf_size buf_data].
  set (B := take (Z.to_nat k) (drop (Z.to_nat off) content)).
  assert (HB : length B = Z.to_nat k).
  { unfold B. rewrite length_take, length_drop. lia. }
  destruct (Z.le_gt_cases (buf_size data) off) as [Hge|Hlt].
  - (* the block is full already *)
    replace (Z.to_nat (buf_size data - off)) with 0%nat by lia.
    rewrite take_0, app_nil_l, Nat.add_0_r, take_drop.
    rewrite Z.min_r in Hpre by lia. rewrite Z.min_r by lia.
    repeat split; [done..|]. f_equal. rewrite HB. lia.
  - set (room := Z.to_nat (buf_size data - off)).
    set (inside := take room B).
    assert (Hin : length inside = Nat.min room (Z.to_nat k)).
    { unfold inside. by rewrite length_take, HB. }
    rewrite Z.min_l in Hpre by lia.
    assert (Htake : length (take (Z.to_nat off) (buf_data data))
                    = Z.to_nat off).
    { rewrite length_take. lia. }
    repeat split.
    + rewrite !length_app, length_drop. lia.
    + replace (Z.to_nat (Z.min (off + k) (buf_size data)))
        with (Z.to_nat off + length inside)%nat by lia.
      rewrite take_app_add' by done. rewrite take_app_length.
      rewrite <- take_take_drop. f_equal; [done|].
      rewrite Hin. unfold inside, B. by rewrite take_take.
    + f_equal. rewrite HB. unfold room. lia.
Qed.

Lemma read_loop_complete filename content n fuel :
  n <= Z.of_nat (length content) ->
  forall rem data w r data' w',
    0 <= rem <= n -> (Z.to_nat rem <= fuel)%nat ->
    (forall k, 0 <= w_chunk w k) ->
    loaded data content (n - rem) ->
    read_loop fuel filename content n rem data w = ((r, data'), w') ->
    r = 0 /\ loaded data' content n /\ buf_size data' = buf_size data /\
    w_stdout w' = w_stdout w /\ w_stderr w' = w_stderr w /\
    w_overflow w' = w_overflow w + (Z.max n (buf_size data)
                                    - Z.max (n - rem) (buf_size data)).
Proof.
  intros Hlen. induction fuel as [|fuel IH];
    intros rem data w r data' w' Hrem Hfuel Hk Hl H.
  - cbn in H. injection H as <- <- <-.
    assert (rem = 0) as -> by lia. rewrite Z.sub_0_r in *.
    repeat split; try done; try apply Hl. lia.
  - cbn [read_loop] in H. destruct (Z.ltb_spec 0 rem).
    2:{ cbn in H. injection H as <- <- <-.
        assert (rem = 0) as -> by lia. rewrite Z.sub_0_r in *.
        repeat split; try done; try apply Hl. lia. }
    unfold mbind, M_bind in H.
    destruct (sys_read _ _ _ _) as [[count bs] w1] eqn:Hread.
    apply sys_read_spec in Hread
      as (-> & [(Hc & -> & ->)|(Hc & Hcount & ->)]).
    { specialize (Hk 0%nat). unfold shead in Hc. lia. }
    destruct (Z.ltb_spec count 0); [lia|].
    destruct (Z.eqb_spec count 0) as [E|E]; [lia|].
    destruct (store_bytes _ _ _ _) as [data1 w2] eqn:Hstore.
    apply store_bytes_loaded in Hstore as (Hl1 & Hs1 & ->);
      [|done|lia..].
    apply IH in H as (-> & Hl' & Hs' & Hout & Herr & Hov).
    + repeat split; try done; try apply Hl'; try congruence.
      rewrite Hov, Hs1. cbn.
      replace (n - (rem - count)) with (n - rem + count) by lia. lia.
    + lia.
    + lia.
    + intros k. apply (Hk (S k)).
    + by replace (n - (rem - count)) with (n - rem + count) by lia.
Qed.

Lemma reset_counters_frame g c w res c' w' :
  reset_counters g c w = ((res, c'), w') ->
  w_stdout w' = w_stdout w /\ w_fs w' = w_fs w /\
  w_alloc w' = w_alloc w /\ w_open w' = w_open w /\
  w_chunk w' = w_chunk w /\ w_overflow w' = w_overflow w /\
  (res = 0 -> w_stderr w' = w_stderr w) /\
  (is_Some (shead (w_clock w)) ->
   event_group g = -1 \/ is_Some (shead (w_perf w)) -> res = 0).
Proof.
  unfold reset_counters, clock_gettime, read_group.
  unfold mbind, M_bind, mret, M_ret, perror, eprint, shead.
  destruct (w_clock w 0%nat) as [t|] eqn:Hc.
  - destruct (Z.eqb_spec (event_group g) (-1)) as [Hg|Hg]; cbn.
    + intros H. simplify_eq. cbn. by repeat split.
    + destruct (w_perf w 0%nat) as [vals|] eqn:Hp; cbn;
        intros H; simplify_eq; cbn; repeat split; try done.
      intros _ [?|[? ?]]; done.
  - intros H. simplify_eq. cbn. repeat split; try done.
Qed.

(** On a file shorter than [n] the test function fails, whatever
    happens, and writes nothing to the standard output. *)
Lemma test_short_file align g c validate filename n m w content res c' w' :
  w_fs w !! filename = Some content ->
  Z.of_nat (length content) < n ->
  test_utf16le_validate align g c validate filename n m w = ((res, c'), w') ->
  res = -1 /\ w_stdout w' = w_stdout w /\
  (shead (w_alloc w) = true -> shead (w_open w) = true ->
   (forall k, 0 <= w_chunk w k) ->
   w_stderr w' =
     w_stderr w ++ [ShortFile filename (Z.of_nat (length content)) n]).
Proof.
  intros Hfs Hlen. unfold test_utf16le_validate.
  unfold mbind at 1, M_bind at 1, memory_allocate.
  destruct (shead (w_alloc w)) eqn:Ha.
  2:{ unfold mbind, M_bind, mret, M_ret, perror, eprint.
      intros H. simplify_eq. cbn. by repeat split. }
  unfold mbind at 1, M_bind at 1, open_file. cbn [w_open w_fs set_alloc].
  destruct (shead (w_open w)) eqn:Ho.
  2:{ unfold mbind, M_bind, mret, M_ret, perror, eprint.
      intros H. simplify_eq. cbn. by repeat split. }
  rewrite Hfs. unfold mbind at 1, M_bind at 1.
  destruct (read_loop _ _ _ _ _ _ _) as [[r data] w1] eqn:Hr.
  apply read_loop_short in Hr; [|lia..].
  destruct Hr as (-> & Hout & Herr).
  cbn. unfold mret, M_ret. intros H. simplify_eq.
  split; [done|]. split; [done|].
  intros _ _ Hk. by apply Herr.
Qed.

Lemma loop_body_short_file align g name validate filename n m first
    start end_ w content s w' :
  w_fs w !! filename = Some content ->
  Z.of_nat (length content) < n ->
  loop_body g name (test_utf16le_validate align g) validate filename n
    m first start end_ w = (s, w') ->
  s = SFail /\ w_stdout w' = w_stdout w ++ [OutFail name] /\
  (no_failure_but_eof g w ->
   w_stderr w' =
     w_stderr w ++ [ShortFile filename (Z.of_nat (length content)) n]).
Proof.
  intros Hfs Hlen. unfold loop_body, fail.
  unfold mbind at 1, M_bind at 1.
  destruct (reset_counters g start w) as [[res c] w1] eqn:Hreset.
  apply reset_counters_frame in Hreset
    as (Hout & Hfs1 & Ha1 & Ho1 & Hc1 & _ & Herr1 & Hok).
  destruct (Z.eqb_spec res 0) as [->|Hres]; cbn [negb].
  - unfold mbind at 1, M_bind at 1.
    destruct (test_utf16le_validate _ _ _ _ _ _ _ _) as [[res c'] w2] eqn:Ht.
    apply test_short_file with (content := content) in Ht
      as (-> & Hout2 & Herr2); [|congruence|done].
    cbn. unfold mbind, M_bind, mret, M_ret, print. intros H. simplify_eq.
    cbn. split; [done|]. split; [congruence|].
    intros (_ & _ & Ha & Ho & Hk). rewrite Herr2, Herr1; try done.
    + by rewrite Ha1.
    + by rewrite Ho1.
    + by rewrite Hc1.
  - unfold mbind, M_bind, mret, M_ret, print. intros H. simplify_eq.
    cbn. split; [done|]. split; [congruence|].
    intros (Hclk & Hperf & _). by specialize (Hok Hclk Hperf).
Qed.

(** The reads of a complete load: each returns at least one byte and at
    most what the kernel was ready to deliver, and they are repeated
    until their counts add up to the bytes that were missing. *)
Lemma read_loop_counts filename content n fuel :
  n <= Z.of_nat (length content) ->
  forall rem data w r data' w',
    0 <= rem <= n -> (Z.to_nat rem <= fuel)%nat ->
    (forall k, 0 <= w_chunk w k) ->
    read_loop fuel filename content n rem data w = ((r, data'), w') ->
    exists counts : list Z,
      (forall i c, counts !! i = Some c ->
                   0 < c <= Z.max 1 (w_chunk w i)) /\
      foldr Z.add 0 counts = rem /\
      w_chunk w' = Nat.iter (length counts) stail (w_chunk w).
Proof.
  intros Hlen. induction fuel as [|fuel IH];
    intros rem data w r data' w' Hrem Hfuel Hk H.
  - cbn in H. injection H as <- <- <-. exists [].
    split; [done|]. split; [cbn; lia|done].
  - cbn [read_loop] in H. destruct (Z.ltb_spec 0 rem).
    2:{ cbn in H. injection H as <- <- <-. exists [].
        split; [done|]. split; [cbn; lia|done]. }
    unfold mbind, M_bind in H.
    destruct (sys_read _ _ _ _) as [[count bs] w1] eqn:Hread.
    apply sys_read_spec in Hread
      as (-> & [(Hc & -> & ->)|(Hc & Hcount & ->)]).
    { specialize (Hk 0%nat). unfold shead in Hc. lia. }
    destruct (Z.ltb_spec count 0); [lia|].
    destruct (Z.eqb_spec count 0) as [E|E]; [lia|].
    unfold store_bytes in H.
    apply IH in H as (counts & Hc' & Hsum & Hw); [|lia|lia|].
    2:{ intros k. apply (Hk (S k)). }
    cbn [w_chunk set_overflow set_chunk] in Hw, Hc'.
    exists (count :: counts). split; [|split].
    + intros [|i] c Hi; cbn in Hi.
      * injection Hi as <-. unfold shead in *. lia.
      * apply (Hc' i c Hi).
    + cbn. lia.
    + cbn [length]. by rewrite Nat.iter_succ_r.
Qed.

(** C9. On a file that ends before the [n] declared bytes, the case
    fails at its first pass whatever else happens: [FAIL] is printed,
    no pass is completed and no result line is printed. When nothing
    else fails, the partial reads are repeated up to the end of the
    file and the diagnostic names the file with the bytes obtained and
    the bytes expected. On a file of [n] bytes or more, partial reads
    are repeated until the [n] bytes have been delivered: each read
    returns at least one byte and at most what the kernel was ready to
    deliver, the counts of the reads issued add up to [n], the loop
    ends with status 0 and no diagnostic, and the block, which keeps
    its size, holds the first [n] bytes of the file when it has room
    for them. *)
Theorem short_file_fails_partial_reads_retried (align : bool) (g : globals)
    (u : indeterminate) (name : option string) (validate : utf16le_validate)
    (filename : string) (content : list byte) (n : Z) :
  (forall fuel w r w',
     w_fs w !! filename = Some content ->
     Z.of_nat (length content) < n ->
     run_test g u name (test_utf16le_validate align g) validate filename n
       (S fuel) w = (r, w') ->
     r_status r = Failed /\ r_passes r = [] /\
     w_stdout w' = w_stdout w ++ [OutFail name] /\
     (no_failure_but_eof g w ->
      w_stderr w' =
        w_stderr w ++ [ShortFile filename (Z.of_nat (length content)) n])) /\
  (forall data w r data' w',
     0 <= n <= Z.of_nat (length content) ->
     (forall k, 0 <= w_chunk w k) ->
     Z.of_nat (length (buf_data data)) = buf_size data ->
     read_loop (Z.to_nat n) filename content n n data w = ((r, data'), w') ->
     r = 0 /\ loaded data' content n /\ w_stderr w' = w_stderr w /\
     buf_size data' = buf_size data /\
     (n <= buf_size data ->
      take (Z.to_nat n) (buf_data data') = take (Z.to_nat n) content) /\
     exists counts : list Z,
       (forall i c, counts !! i = Some c ->
                    0 < c <= Z.max 1 (w_chunk w i)) /\
       foldr Z.add 0 counts = n /\
       w_chunk w' = Nat.iter (length counts) stail (w_chunk w)).
Proof.
  split.
  - intros fuel w r w' Hfs Hlen. unfold run_test. cbn [run_test_loop].
    unfold mbind at 1, M_bind at 1.
    destruct (loop_body _ _ _ _ _ _ _ _ _ _ _) as [s w1] eqn:Hbody.
    apply loop_body_short_file with (content := content) in Hbody
      as (-> & Hout & Herr); [|done..].
    unfold mret, M_ret. intros H. simplify_eq. by cbn.
  - intros data w r data' w' Hlen Hk Hdata H.
    assert (Hrem : 0 <= n <= n) by lia.
    assert (Hfuel : (Z.to_nat n <= Z.to_nat n)%nat) by lia.
    pose proof (read_loop_counts _ _ _ _ (proj2 Hlen) _ _ _ _ _ _
                  Hrem Hfuel Hk H) as Hcounts.
    apply read_loop_complete in H; [|lia..|done|].
    + destruct H as (Hr & Hl & Hs & _ & He & _).
      split; [done|]. split; [done|]. split; [done|]. split; [done|].
      split; [|done].
      intros Hfit. destruct Hl as [_ Hl]. rewrite Hs in Hl.
      by rewrite Z.min_l in Hl by lia.
    + split; [done|]. rewrite Z.sub_diag.
      by replace (Z.to_nat (0 `min` buf_size data)) with 0%nat by lia.
Qed.

Lemma short_file_fails_partial_reads_retried_witness :
  (r_status (Sample.case Sample.accept_all Sample.u0 8 1 Sample.w_once).1
     = Failed /\
   r_passes (Sample.case Sample.accept_all Sample.u0 8 1 Sample.w_once).1
     = [] /\
   w_stdout (Sample.case Sample.accept_all Sample.u0 8 1 Sample.w_once).2
     = [OutFail (Some "ref"%string)] /\
   w_stderr (Sample.case Sample.accept_all Sample.u0 8 1 Sample.w_once).2
     = [ShortFile "f" 4 8]) /\
  ((read_loop 4 "f" Sample.text 4 4 Sample.block4 Sample.w_once).1.1 = 0 /\
   loaded (read_loop 4 "f" Sample.text 4 4 Sample.block4 Sample.w_once).1.2
     Sample.text 4 /\
   w_stderr (read_loop 4 "f" Sample.text 4 4 Sample.block4 Sample.w_once).2
     = [] /\
   buf_size (read_loop 4 "f" Sample.text 4 4 Sample.block4 Sample.w_once).1.2
     = buf_size Sample.block4 /\
   (4 <= buf_size Sample.block4 ->
    take (Z.to_nat 4)
      (buf_data
         (read_loop 4 "f" Sample.text 4 4 Sample.block4 Sample.w_once).1.2)
    = take (Z.to_nat 4) Sample.text) /\
   exists counts : list Z,
     (forall i c, counts !! i = Some c ->
                  0 < c <= Z.max 1 (w_chunk Sample.w_once i)) /\
     foldr Z.add 0 counts = 4 /\
     w_chunk (read_loop 4 "f" Sample.text 4 4 Sample.block4 Sample.w_once).2
     = Nat.iter (length counts) stail (w_chunk Sample.w_once)).
Proof.
  assert (Hfs : w_fs Sample.w_once !! "f"%string = Some Sample.text)
    by (vm_compute; reflexivity).
  assert (Hlen : Z.of_nat (length Sample.text) < 8)
    by (vm_compute; reflexivity).
  assert (Hrun : run_test Sample.g2 Sample.u0 (Some "ref"%string)
            (test_utf16le_validate false Sample.g2) Sample.accept_all
            "f" 8 1 Sample.w_once =
          ((Sample.case Sample.accept_all Sample.u0 8 1 Sample.w_once).1,
           (Sample.case Sample.accept_all Sample.u0 8 1 Sample.w_once).2))
    by (vm_compute; reflexivity).
  assert (Hcalm : no_failure_but_eof Sample.g2 Sample.w_once).
  { split; [vm_compute; eauto|]. split; [right; vm_compute; eauto|].
    split; [reflexivity|]. split; [reflexivity|]. intros k. cbn. lia. }
  assert (Hn : 0 <= 4 <= Z.of_nat (length Sample.text))
    by (vm_compute; split; discriminate).
  assert (Hk : forall k, 0 <= w_chunk Sample.w_once k)
    by (intros k; cbn; lia).
  assert (Hdata : Z.of_nat (length (buf_data Sample.block4))
                  = buf_size Sample.block4) by (vm_compute; reflexivity).
  assert (Hread : read_loop (Z.to_nat 4) "f" Sample.text 4 4 Sample.block4
            Sample.w_once =
          ((read_loop 4 "f" Sample.text 4 4 Sample.block4 Sample.w_once).1.1,
           (read_loop 4 "f" Sample.text 4 4 Sample.block4 Sample.w_once).1.2,
           (read_loop 4 "f" Sample.text 4 4 Sample.block4 Sample.w_once).2))
    by (vm_compute; reflexivity).
  split.
  - destruct (proj1 (short_file_fails_partial_reads_retried false Sample.g2
        Sample.u0 (Some "ref"%string) Sample.accept_all "f" Sample.text 8)
        _ _ _ _ Hfs Hlen Hrun) as (Hst & Hps & Hout & Herr).
    split; [exact Hst|]. split; [exact Hps|]. split; [exact Hout|].
    exact (Herr Hcalm).
  - exact (proj2 (short_file_fails_partial_reads_retried false Sample.g2
        Sample.u0 (Some "ref"%string) Sample.accept_all "f" Sample.text 4)
        _ _ _ _ _ Hn Hk Hdata Hread).
Defined.

(** ** The size of the block *)

Lemma allocation_size_nonneg align size :
  0 <= size -> 0 <= allocation_size align size.
Proof.
  intros H. unfold allocation_size. destruct align; [|done].
  apply Z.land_nonneg. left. apply wrap_in_range.
Qed.

(** Without [ALIGN] the block has [n] bytes for an even [n] and
    [n - 1] bytes for an odd one. *)
Lemma malloc_size n :
  SizeT.in_range n ->
  allocation_size false (SizeT.mul (n / 2) 2) = n - n mod 2.
Proof.
  intros [H0 H1]. unfold allocation_size, SizeT.mul.
  pose proof (Z.div_mod n 2 ltac:(lia)) as Hdiv.
  pose proof (Z.mod_pos_bound n 2 ltac:(lia)).
  rewrite wrap_small; [lia|]. split; lia.
Qed.

(** A load that meets no failure delivers [n] bytes; those that do not
    fit the block are stored past its end. *)
Lemma load_overflow align g c validate filename n m w content res c' w' :
  w_fs w !! filename = Some content ->
  0 <= n <= Z.of_nat (length content) ->
  shead (w_alloc w) = true -> shead (w_open w) = true ->
  (forall k, 0 <= w_chunk w k) ->
  test_utf16le_validate align g c validate filename n m w = ((res, c'), w') ->
  w_overflow w' =
    w_overflow w
    + (Z.max n (allocation_size align (SizeT.mul (n / 2) 2))
       - allocation_size align (SizeT.mul (n / 2) 2)).
Proof.
  intros Hfs Hn Ha Ho Hk. unfold test_utf16le_validate.
  unfold mbind at 1, M_bind at 1, memory_allocate. rewrite Ha.
  unfold mbind at 1, M_bind at 1, open_file. cbn [w_open w_fs set_alloc].
  rewrite Ho, Hfs. unfold mbind at 1, M_bind at 1.
  set (size := allocation_size align (SizeT.mul (n / 2) 2)).
  pose proof (allocation_size_nonneg align (SizeT.mul (n / 2) 2)
                (proj1 (wrap_in_range _))) as Hsize.
  fold size in Hsize.
  destruct (read_loop _ _ _ _ _ _ _) as [[r data] w1] eqn:Hr.
  apply read_loop_complete in Hr; [|lia..|done|].
  2:{ split; cbn; [rewrite length_replicate; lia|]. rewrite Z.sub_diag.
      by replace (Z.to_nat (0 `min` size)) with 0%nat by lia. }
  destruct Hr as (-> & _ & _ & _ & _ & Hov). cbn in Hov.
  rewrite Z.sub_diag, (Z.max_r 0 size) in Hov by lia.
  cbn [negb Z.eqb]. unfold mbind at 1, M_bind at 1.
  destruct (reset_counters g c w1) as [[res0 c0] w2] eqn:Hreset.
  apply reset_counters_frame in Hreset as (_ & _ & _ & _ & _ & Hov2 & _).
  unfold mbind, M_bind, mret, M_ret, eprint.
  repeat case_match; intros E; simplify_eq; cbn; lia.
Qed.

(** C8. The block is allocated for [len * sizeof *data] bytes, [len]
    being [n / 2] rounded down, and the loop then reads [n] bytes into
    it. For 3 declared bytes the block has 2 and the third byte read
    is stored past its end; with [ALIGN] the same happens for 65
    declared bytes and a block of 64. *)
Theorem odd_length_overruns_block :
  allocation_size false (SizeT.mul (3 / 2) 2) = 2 /\
  (test_utf16le_validate false Sample.g2 Sample.zero Sample.accept_all
     "f" 3 1 Sample.w_odd).1.1 = 0 /\
  w_overflow (test_utf16le_validate false Sample.g2 Sample.zero
                Sample.accept_all "f" 3 1 Sample.w_odd).2 = 1 /\
  allocation_size true (SizeT.mul (65 / 2) 2) = 64 /\
  (test_utf16le_validate true Sample.g2 Sample.zero Sample.accept_all
     "f" 65 1 Sample.w_65).1.1 = 0 /\
  w_overflow (test_utf16le_validate true Sample.g2 Sample.zero
                Sample.accept_all "f" 65 1 Sample.w_65).2 = 1.
Proof. repeat split; vm_compute; reflexivity. Qed.

(** ** The correctness check *)

Lemma read_loop_ok_stderr filename content n fuel :
  forall rem data w data' w',
    read_loop fuel filename content n rem data w = ((0, data'), w') ->
    w_stderr w' = w_stderr w.
Proof.
  induction fuel as [|fuel IH]; intros rem data w data' w' H.
  - cbn in H. unfold mret, M_ret in H. by simplify_eq.
  - cbn [read_loop] in H. unfold mbind, M_bind, mret, M_ret in H.
    destruct (0 <? rem); [|by simplify_eq].
    destruct (sys_read _ _ _ _) as [[count bs] w1] eqn:Hread.
    apply sys_read_spec in Hread as (-> & _).
    destruct (count <? 0); [cbn in H; by simplify_eq|].
    destruct (count =? 0); [cbn in H; by simplify_eq|].
    unfold store_bytes at 1 in H. by apply IH in H.
Qed.


Lemma alike_ret {A} (a : A) : alike (mret a) (mret a).
Proof. intros w1 w2 a1 a2 w1' w2' Hw [= <- <-] [= <- <-]. done. Qed.

Lemma alike_bind {A B} (c1 c2 : M A) (f1 f2 : A -> M B) :
  alike c1 c2 -> (forall a, alike (f1 a) (f2 a)) ->
  alike (c1 ≫= f1) (c2 ≫= f2).
Proof.
  intros Hc Hf w1 w2 b1 b2 w1' w2' Hw. unfold mbind, M_bind.
  destruct (c1 w1) as [a1 v1] eqn:E1. destruct (c2 w2) as [a2 v2] eqn:E2.
  destruct (Hc _ _ _ _ _ _ Hw E1 E2) as [<- Hv]. by apply Hf.
Qed.

(** A basic operation that neither reads nor writes the error stream. *)
Ltac alike_basic :=
  intros w1 w2 a1 a2 w1' w2' Hw H1 H2;
  unfold same_but_stderr in Hw; rewrite Hw in H2;
  cbv beta delta [clock_gettime read_group perf_event_open print
                  memory_allocate open_file sys_read store_bytes stat]
    in H1, H2;
  unfold shead in H1, H2; cbn in H1, H2;
  repeat case_match; simplify_eq; split; reflexivity.

Lemma alike_clock_gettime : alike clock_gettime clock_gettime.
Proof. alike_basic. Qed.

Lemma alike_read_group k : alike (read_group k) (read_group k).
Proof. alike_basic. Qed.

Lemma alike_print o : alike (print o) (print o).
Proof. alike_basic. Qed.

Lemma alike_memory_allocate align size :
  alike (memory_allocate align size) (memory_allocate align size).
Proof. alike_basic. Qed.

Lemma alike_open_file filename :
  alike (open_file filename) (open_file filename).
Proof. alike_basic. Qed.

Lemma alike_sys_read content pos req :
  alike (sys_read content pos req) (sys_read content pos req).
Proof.
  intros w1 w2 a1 a2 w1' w2' Hw H1 H2.
  unfold same_but_stderr in Hw. rewrite Hw in H2.
  unfold sys_read, shead in H1, H2. cbn in H2.
  destruct (w_chunk w1 0%nat <? 0); simplify_eq; split; reflexivity.
Qed.

Lemma alike_store_bytes data off bs :
  alike (store_bytes data off bs) (store_bytes data off bs).
Proof. alike_basic. Qed.

(** Whatever is written to the error stream. *)
Lemma alike_eprint d1 d2 : alike (eprint d1) (eprint d2).
Proof.
  intros w1 w2 a1 a2 w1' w2' Hw [= <- <-] [= <- <-].
  split; [done|]. unfold same_but_stderr in *. rewrite Hw. reflexivity.
Qed.

Lemma alike_eprint_l d : alike (eprint d) (mret tt).
Proof.
  intros w1 w2 a1 a2 w1' w2' Hw [= <- <-] [= <- <-].
  split; [done|]. unfold same_but_stderr in *. rewrite Hw. reflexivity.
Qed.

Lemma alike_eprint_r d : alike (mret tt) (eprint d).
Proof.
  intros w1 w2 a1 a2 w1' w2' Hw [= <- <-] [= <- <-].
  split; [done|]. unfold same_but_stderr in *. rewrite Hw. reflexivity.
Qed.

Create HintDb alike.

#[local] Hint Resolve alike_ret alike_clock_gettime alike_read_group
  alike_print alike_memory_allocate alike_open_file alike_sys_read
  alike_store_bytes alike_eprint alike_eprint_l alike_eprint_r : alike.

Ltac alike_step :=
  first
    [ apply alike_bind; [|intros ?]
    | progress (unfold perror)
    | solve [eauto with alike]
    | match goal with
      | |- alike (match ?x with _ => _ end) _ => destruct x
      | |- alike (if ?b then _ else _) _ => destruct b
      | |- alike (let '(_, _) := ?x in _) _ => destruct x
      end ].

Lemma alike_reset_counters g c :
  alike (reset_counters g c) (reset_counters g c).
Proof. unfold reset_counters. repeat alike_step. Qed.

Lemma alike_read_loop filename content n fuel : forall rem data,
  alike (read_loop fuel filename content n rem data)
        (read_loop fuel filename content n rem data).
Proof.
  induction fuel as [|fuel IH]; intros rem data; cbn [read_loop];
    repeat alike_step.
Qed.

#[local] Hint Resolve alike_reset_counters alike_read_loop : alike.


Lemma alike_print_results g u name start end_ filename n m :
  alike (print_results g u name start end_ filename n m)
        (print_results g u name start end_ filename n m).
Proof. unfold print_results. repeat alike_step. Qed.

#[local] Hint Resolve alike_print_results : alike.

Section Alike.

Context {P : Type}.
Variable g : globals.
Variable u : indeterminate.
Variable name : option string.
Variable test1 test2 : testfunc P.
Variable payload1 payload2 : P.
Variable filename : string.
Variable n : Z.
Hypothesis alike_tests : forall c m,
  alike (test1 c payload1 filename n m) (test2 c payload2 filename n m).



End Alike.

(** A call of the test function that returns 0 has loaded the file and
    has written to the error stream what the check says, nothing
    else. *)
Lemma test_check align g c validate filename n m w content c' w' :
  w_fs w !! filename = Some content ->
  0 <= n <= Z.of_nat (length content) ->
  (forall k, 0 <= w_chunk w k) ->
  test_utf16le_validate align g c validate filename n m w = ((0, c'), w') ->
  exists data,
    loaded data content n /\
    buf_size data = allocation_size align (SizeT.mul (n / 2) 2) /\
    w_stderr w' =
      w_stderr w ++ check_output validate filename n m (buf_data data).
Proof.
  intros Hfs Hn Hk. unfold test_utf16le_validate, check_output.
  unfold mbind at 1, M_bind at 1, memory_allocate.
  destruct (shead (w_alloc w)).
  2:{ unfold mbind, M_bind, mret, M_ret, perror, eprint. intros H.
      by simplify_eq. }
  unfold mbind at 1, M_bind at 1, open_file. cbn [w_open w_fs set_alloc].
  rewrite Hfs. destruct (shead (w_open w)).
  2:{ unfold mbind, M_bind, mret, M_ret, perror, eprint. intros H.
      by simplify_eq. }
  unfold mbind at 1, M_bind at 1.
  set (size := allocation_size align (SizeT.mul (n / 2) 2)).
  pose proof (allocation_size_nonneg align (SizeT.mul (n / 2) 2)
                (proj1 (wrap_in_range _))) as Hsize.
  fold size in Hsize.
  destruct (read_loop _ _ _ _ _ _ _) as [[r data] w1] eqn:Hr.
  apply read_loop_complete in Hr; [|lia..|done|].
  2:{ split; cbn; [rewrite length_replicate; lia|]. rewrite Z.sub_diag.
      by replace (Z.to_nat (0 `min` size)) with 0%nat by lia. }
  destruct Hr as (-> & Hl & Hs & _ & Herr1 & _). cbn in Hs, Herr1.
  cbn [negb Z.eqb]. unfold mbind at 1, M_bind at 1.
  destruct (reset_counters g c w1) as [[res0 c0] w2] eqn:Hreset.
  apply reset_counters_frame in Hreset as (_ & _ & _ & _ & _ & _ & Herr & _).
  destruct (Z.eqb_spec res0 0) as [->|]; cbn [negb].
  2:{ unfold mret, M_ret. intros H. by simplify_eq. }
  exists data. split; [done|]. split; [done|].
  unfold mbind, M_bind, mret, M_ret, eprint in *.
  destruct (negb _); simplify_eq; cbn; rewrite Herr, ?Herr1, ?app_nil_r; done.
Qed.



(** * Further properties of the program *)

(** ** Setting up and reading the counters *)

(** X1. [init_counters], started from the initial values of the
    file-scope variables, asks for the two events in turn. Each event
    records the descriptor it was given; [num_counters] is the number
    of events that were opened, [event_group] the descriptor of the
    first of them (and -1 when there is none); every failure is
    reported once on the error stream, and nothing is printed. *)
Theorem init_counters_summary (w : world) :
  let r0 := w_perf_open w 0%nat in
  let r1 := w_perf_open w 1%nat in
  let g := (init_counters globals0 w).1 in
  let w' := (init_counters globals0 w).2 in
  events g =
    [ {| ev_type := PERF_TYPE_HARDWARE; fd := r0;
         conf := PERF_COUNT_HW_CPU_CYCLES |};
      {| ev_type := PERF_TYPE_HARDWARE; fd := r1;
         conf := PERF_COUNT_HW_INSTRUCTIONS |} ] /\
  num_counters g
  = (if r0 =? -1 then 0 else 1) + (if r1 =? -1 then 0 else 1) /\
  0 <= num_counters g <= EVENT_COUNT /\
  event_group g = (if r0 =? -1 then r1 else r0) /\
  w_stderr w' =
    w_stderr w ++ replicate (Z.to_nat (EVENT_COUNT - num_counters g))
                    (Perror "perf_event_open") /\
  w_stdout w' = w_stdout w /\
  w_perf_open w' = stail (stail (w_perf_open w)).
Proof.
  unfold init_counters.
  change (seq 0 (Z.to_nat EVENT_COUNT)) with [0%nat; 1%nat].
  unfold init_counter, perf_event_open, perror, eprint.
  cbn -[Z.eqb]. unfold mbind, M_bind, mret, M_ret, shead. cbn -[Z.eqb].
  destruct (Z.eqb_spec (w_perf_open w 0%nat) (-1)) as [E0|N0];
    cbn -[Z.eqb]; unfold shead, stail; cbn -[Z.eqb];
    destruct (Z.eqb_spec (w_perf_open w 1%nat) (-1)) as [E1|N1];
    cbn -[Z.eqb]; rewrite ?E0, ?E1;
    repeat split; try done; try lia;
    try (by rewrite <- app_assoc); try (by rewrite app_nil_r).
  change (-1 =? -1) with true. cbn match.
  by destruct (Z.eqb_spec (w_perf_open w 0%nat) (-1)).
Qed.

(** X2. [reset_counters] prints nothing, and it either returns 0 with
    the error stream as it was and the clock reading stored in [c->ts],
    or returns -1 after exactly one [perror]. When the clock fails,
    [*c] is left as it was and the counter group is not read; when
    there is no counter group, it is not read either and the array of
    counters is left as it was. *)
Theorem reset_counters_diagnosed (g : globals) (c : counters) (w : world) :
  let res := (reset_counters g c w).1.1 in
  let c' := (reset_counters g c w).1.2 in
  let w' := (reset_counters g c w).2 in
  w_stdout w' = w_stdout w /\
  (res = 0 /\ w_stderr w' = w_stderr w /\ shead (w_clock w) = Some (ts c')
   \/ res = -1 /\ exists what, w_stderr w' = w_stderr w ++ [Perror what]) /\
  (shead (w_clock w) = None -> c' = c /\ w_perf w' = w_perf w) /\
  (event_group g = -1 -> ctr c' = ctr c /\ w_perf w' = w_perf w) /\
  w_clock w' = stail (w_clock w).
Proof.
  unfold reset_counters, clock_gettime, read_group, perror, eprint.
  unfold mbind, M_bind, mret, M_ret. cbn -[Z.eqb].
  destruct (shead (w_clock w)) as [t|] eqn:Hc; cbn -[Z.eqb].
  - destruct (Z.eqb_spec (event_group g) (-1)) as [E|N]; cbn -[Z.eqb].
    + split; [done|]. split; [by left|]. by repeat split.
    + destruct (w_perf w 0%nat) as [vals|]; cbn -[Z.eqb].
      * split; [done|]. split; [by left|]. by repeat split.
      * split; [done|]. split; [right; split; [done|by eexists]|].
        by repeat split.
  - split; [done|]. split; [right; split; [done|by eexists]|].
    by repeat split.
Qed.

Lemma init_counters_num w :
  0 <= num_counters (init_counters globals0 w).1 <= EVENT_COUNT.
Proof.
  unfold init_counters.
  change (seq 0 (Z.to_nat EVENT_COUNT)) with [0%nat; 1%nat].
  unfold init_counter, perf_event_open, perror, eprint.
  cbn -[Z.eqb]. unfold mbind, M_bind, mret, M_ret, shead. cbn -[Z.eqb].
  destruct (w_perf_open w 0%nat =? -1); cbn -[Z.eqb];
    unfold shead, stail; cbn -[Z.eqb];
    destruct (w_perf_open w 1%nat =? -1); cbn; unfold EVENT_COUNT; lia.
Qed.

Lemma overlay_length vals old :
  length (overlay vals old) = (length vals `max` length old)%nat.
Proof. unfold overlay. rewrite length_app, length_drop. lia. Qed.

(** X3. With the globals as [init_counters] leaves them,
    [reset_counters] stays within the array [c->counters]: the group
    read asks for [2 * num_counters + 1] words, at most the
    [2 * EVENT_COUNT + 1] words the array has, whatever the kernel
    delivers. *)
Theorem reset_counters_in_bounds (w0 : world) (c : counters) (w : world) :
  length (ctr c) = CTR_LEN ->
  length (ctr (reset_counters (init_counters globals0 w0).1 c w).1.2)
  = CTR_LEN.
Proof.
  intros Hc. pose proof (init_counters_num w0) as Hn.
  set (g := (init_counters globals0 w0).1) in *.
  unfold reset_counters, clock_gettime, read_group, perror, eprint.
  unfold mbind, M_bind, mret, M_ret, shead. cbn -[Z.eqb].
  destruct (w_clock w 0%nat) as [t|]; cbn -[Z.eqb]; [|done].
  destruct (event_group g =? -1); cbn -[Z.eqb]; [done|].
  destruct (w_perf w 0%nat) as [vals|]; cbn -[Z.eqb]; [|done].
  rewrite overlay_length, length_take, Hc.
  unfold CTR_LEN, EVENT_COUNT in *. lia.
Qed.

Lemma reset_counters_in_bounds_witness :
  length (ctr (declare_counters Sample.zero)) = CTR_LEN /\
  length (ctr (reset_counters (init_counters globals0 (Sample.calm [] [])).1
                 (declare_counters Sample.zero)
                 (Sample.calm [Sample.at_ 1 0] [])).1.2)
  = CTR_LEN.
Proof.
  assert (H : length (ctr (declare_counters Sample.zero)) = CTR_LEN)
    by reflexivity.
  split; [exact H|].
  exact (reset_counters_in_bounds (Sample.calm [] [])
           (declare_counters Sample.zero)
           (Sample.calm [Sample.at_ 1 0] []) H).
Defined.

(** ** The allocation macro *)

Lemma land_align x :
  0 <= x < 2 ^ 64 -> Z.land x (SizeT.wrap (Z.lnot 63)) = 64 * (x / 64).
Proof.
  intros Hx.
  change (SizeT.wrap (Z.lnot 63)) with (Z.ldiff (Z.ones 64) (Z.ones 6)).
  assert (H : Z.land x (Z.ldiff (Z.ones 64) (Z.ones 6))
              = Z.ldiff (Z.land x (Z.ones 64)) (Z.ones 6)).
  { apply Z.bits_inj'. intros i Hi.
    rewrite !Z.land_spec, !Z.ldiff_spec, Z.land_spec.
    by destruct (Z.testbit x i), (Z.testbit (Z.ones 64) i),
         (Z.testbit (Z.ones 6) i). }
  rewrite H, Z.land_ones, Z.mod_small, Z.ldiff_ones_r by lia.
  rewrite Z.shiftr_div_pow2, Z.shiftl_mul_pow2 by lia.
  change (2 ^ 6) with 64. lia.
Qed.

(** X4. The size handed to the allocator. Without [ALIGN] it is the
    size asked for. With [ALIGN] it is that size rounded up to the next
    multiple of 64, as long as the size is at most [SIZE_MAX - 63];
    above that the addition wraps around and the allocator is asked for
    no byte at all. *)
Theorem allocation_size_aligned (size : Z) :
  SizeT.in_range size ->
  allocation_size false size = size /\
  (size <= SizeT.SIZE_MAX - 63 ->
   allocation_size true size mod 64 = 0 /\
   size <= allocation_size true size < size + 64) /\
  (SizeT.SIZE_MAX - 63 < size -> allocation_size true size = 0).
Proof.
  unfold SizeT.in_range, SizeT.SIZE_MAX, SizeT.modulus, SizeT.bits.
  intros Hs. split; [done|]. unfold allocation_size, SizeT.add.
  change (2 ^ 64) with 18446744073709551616 in *.
  split; intros Hb.
  - rewrite wrap_small
      by (unfold SizeT.in_range, SizeT.modulus, SizeT.bits; lia).
    rewrite land_align by lia.
    pose proof (Z.div_mod (size + 63) 64 ltac:(lia)) as Hd.
    pose proof (Z.mod_pos_bound (size + 63) 64 ltac:(lia)) as Hm.
    split; [|lia].
    rewrite Z.mul_comm. apply Z.mod_mul. lia.
  - assert (Hw : SizeT.wrap (size + 63) = size + 63 - 18446744073709551616).
    { unfold SizeT.wrap, SizeT.modulus, SizeT.bits.
      change (2 ^ 64) with 18446744073709551616.
      symmetry. apply Z.mod_unique with (q := 1); lia. }
    rewrite Hw, land_align by lia.
    rewrite Z.div_small by lia. lia.
Qed.

Lemma allocation_size_aligned_witness :
  SizeT.in_range 100 /\
  allocation_size false 100 = 100 /\
  (100 <= SizeT.SIZE_MAX - 63 ->
   allocation_size true 100 mod 64 = 0 /\
   100 <= allocation_size true 100 < 100 + 64) /\
  (SizeT.SIZE_MAX - 63 < 100 -> allocation_size true 100 = 0).
Proof.
  assert (H : SizeT.in_range 100) by (split; [lia|reflexivity]).
  split; [exact H|]. exact (allocation_size_aligned 100 H).
Defined.

(** ** What the program prints *)

Lemma sys_read_stdout content pos req w :
  w_stdout (sys_read content pos req w).2 = w_stdout w.
Proof. unfold sys_read. by destruct (_ <? 0). Qed.

Lemma read_loop_stdout filename content n fuel : forall rem data w,
  w_stdout (read_loop fuel filename content n rem data w).2 = w_stdout w.
Proof.
  induction fuel as [|fuel IH]; intros rem data w; [done|].
  cbn [read_loop]. destruct (0 <? rem); [|done].
  unfold mbind at 1, M_bind at 1.
  pose proof (sys_read_stdout content (n - rem) rem w) as Hs.
  destruct (sys_read content (n - rem) rem w) as [[count bs] w1].
  cbn [snd] in Hs.
  destruct (count <? 0); [by unfold_M|].
  destruct (count =? 0); [by unfold_M|].
  unfold mbind, M_bind, store_bytes. rewrite IH. done.
Qed.

Lemma reset_counters_stdout g c w :
  w_stdout (reset_counters g c w).2 = w_stdout w.
Proof.
  destruct (reset_counters g c w) as [[res c'] w'] eqn:H.
  by apply reset_counters_frame in H as (H & _).
Qed.

(** The test function writes to the error stream only. *)
Lemma test_stdout align g c validate filename n m w :
  w_stdout (test_utf16le_validate align g c validate filename n m w).2
  = w_stdout w.
Proof.
  unfold test_utf16le_validate.
  unfold mbind at 1, M_bind at 1, memory_allocate.
  destruct (shead (w_alloc w)); [|by unfold_M].
  unfold mbind at 1, M_bind at 1, open_file. cbn [w_open w_fs set_alloc].
  destruct (if shead (w_open w) then _ else _) as [content|];
    [|by unfold_M].
  unfold mbind at 1, M_bind at 1.
  match goal with
  | |- context [read_loop ?f ?a ?b ?c ?d ?e ?w0] =>
      pose proof (read_loop_stdout a b c f d e w0) as Hr;
      destruct (read_loop f a b c d e w0) as [[r data] w1]
  end.
  cbn [snd] in Hr. cbn [w_stdout set_open set_alloc] in Hr.
  destruct (negb (r =? 0)); [by unfold_M|].
  unfold mbind at 1, M_bind at 1.
  pose proof (reset_counters_stdout g c w1) as Hc.
  destruct (reset_counters g c w1) as [[res c1] w2]. cbn [snd] in Hc.
  destruct (negb (res =? 0)); [unfold_M; cbn; congruence|].
  cbn zeta. destruct (negb _); unfold_M; cbn; congruence.
Qed.

Section Lines.

Variable align : bool.
Variable g : globals.
Variable u : indeterminate.
Variable name : option string.
Variable validate : utf16le_validate.
Variable filename : string.
Variable n : Z.

Lemma loop_body_stdout m first start end_ w s w' :
  loop_body g name (test_utf16le_validate align g) validate
    filename n m first start end_ w = (s, w') ->
  w_stdout w'
  = w_stdout w ++ match s with SFail => [OutFail name] | _ => [] end.
Proof.
  unfold loop_body, fail.
  unfold mbind at 1, M_bind at 1.
  pose proof (reset_counters_stdout g start w) as H1.
  destruct (reset_counters g start w) as [[res c] w1]. cbn [snd] in H1.
  destruct (negb (res =? 0));
    [unfold_M; intros H; simplify_eq; cbn; congruence|].
  unfold mbind at 1, M_bind at 1.
  pose proof (test_stdout align g c validate filename n m w1) as H2.
  destruct (test_utf16le_validate _ _ _ _ _ _ _ _) as [[res2 c2] w2].
  cbn [snd] in H2.
  destruct (negb (res2 =? 0));
    [unfold_M; intros H; simplify_eq; cbn; congruence|].
  unfold mbind at 1, M_bind at 1.
  pose proof (reset_counters_stdout g end_ w2) as H3.
  destruct (reset_counters g end_ w2) as [[res3 c3] w3]. cbn [snd] in H3.
  destruct (negb (res3 =? 0));
    [unfold_M; intros H; simplify_eq; cbn; congruence|].
  cbn zeta. destruct (ltb _ _).
  - destruct (grow _ _); unfold_M; intros H; simplify_eq;
      rewrite app_nil_r; congruence.
  - destruct first; unfold_M; intros H; simplify_eq;
      rewrite app_nil_r; congruence.
Qed.

Lemma run_test_loop_stdout fuel : forall m first start end_ w r w',
  run_test_loop g u name (test_utf16le_validate align g) validate
    filename n fuel m first start end_ w = (r, w') ->
  match r_status r with
  | Failed => w_stdout w' = w_stdout w ++ [OutFail name]
  | Reported =>
      exists pl counts,
        last (r_passes r) = Some pl /\ counts_of g u pl = Some counts /\
        w_stdout w'
        = w_stdout w ++ [OutLine (line_of g name filename n counts pl)]
  | OutOfFuel | Undefined => w_stdout w' = w_stdout w
  end.
Proof.
  induction fuel as [|fuel IH]; intros m first start end_ w r w' H.
  { cbn in H. unfold_M. by simplify_eq. }
  cbn [run_test_loop] in H. unfold mbind at 1, M_bind at 1 in H.
  destruct (loop_body _ _ _ _ _ _ _ _ _ _ _) as [s w1] eqn:Hs.
  pose proof (loop_body_stdout _ _ _ _ _ _ _ Hs) as Hb.
  destruct s as [|p|m' p|p].
  - unfold_M. by simplify_eq.
  - unfold_M. simplify_eq. cbn. by rewrite Hb, app_nil_r.
  - rewrite app_nil_r in Hb. unfold mbind, M_bind, mret, M_ret in H.
    destruct (run_test_loop _ _ _ _ _ _ _ _ _ _ _ _ _) as [r1 w2] eqn:Hr.
    simplify_eq. apply IH in Hr. cbn [add_pass r_status r_passes].
    destruct (r_status r1); try congruence.
    destruct Hr as (pl & counts & Hl & Hc & Ho).
    exists pl, counts. split; [|split; [done|congruence]].
    by destruct (r_passes r1).
  - rewrite app_nil_r in Hb.
    pose proof (loop_body_inv _ _ _ _ _ _ _ _ _ _ _ _ _ Hs) as (Hm & _).
    unfold mbind, M_bind, mret, M_ret, print_results in H.
    destruct (counterdiff _ _ _ _ _) as [counts|] eqn:Hc; unfold_M;
      simplify_eq; cbn.
    + exists p, counts. unfold counts_of, line_of, p_elapsed.
      rewrite Hc, Hb. done.
    + done.
Qed.

End Lines.

(** X5. Each call of [run_test] on the file test adds one line to the
    standard output when it ends, and nothing else: the line [FAIL]
    with the name of the method when a pass fails, the result line of
    its last pass when it reports. (No line is there while the loop
    is running, nor when the run meets undefined behaviour.) *)
Theorem run_test_prints_one_line (align : bool) (g : globals)
    (u : indeterminate) (name : option string) (validate : utf16le_validate)
    (filename : string) (n : Z) (fuel : nat) (w : world) :
  let r := run_test g u name (test_utf16le_validate align g) validate
             filename n fuel w in
  match r_status r.1 with
  | Failed => w_stdout r.2 = w_stdout w ++ [OutFail name]
  | Reported =>
      exists pl counts,
        last (r_passes r.1) = Some pl /\ counts_of g u pl = Some counts /\
        w_stdout r.2
        = w_stdout w ++ [OutLine (line_of g name filename n counts pl)]
  | OutOfFuel | Undefined => w_stdout r.2 = w_stdout w
  end.
Proof.
  cbn zeta. unfold run_test.
  destruct (run_test_loop _ _ _ _ _ _ _ _ _ _ _ _ _) as [r w'] eqn:H.
  by apply run_test_loop_stdout in H.
Qed.

(** ** The program as a whole *)

(** Iterating a command over a list, as the loops of [main] do. *)
Lemma foldl_M_ind {A} (F : A -> M unit) (I : nat -> world -> Prop)
    (l : list A) :
  (forall k x w, I k w -> I (S k) (F x w).2) ->
  forall (c0 : M unit) k w,
    I k (c0 w).2 ->
    I (k + length l)%nat
      (foldl (fun (c : M unit) (x : A) => _ ← c; F x) c0 l w).2.
Proof.
  intros Hstep. induction l as [|x l IH]; intros c0 k w H0; cbn [foldl length].
  - by rewrite Nat.add_0_r.
  - replace (k + S (length l))%nat with (S k + length l)%nat by lia.
    apply IH. unfold mbind, M_bind.
    destruct (c0 w) as [[] w1]. by apply Hstep.
Qed.

Lemma init_counters_stdout g w :
  w_stdout (init_counters g w).2 = w_stdout w.
Proof.
  unfold init_counters.
  change (seq 0 (Z.to_nat EVENT_COUNT)) with [0%nat; 1%nat].
  cbn [foldl]. unfold mbind, M_bind, mret, M_ret.
  assert (Hstep : forall i g w, w_stdout (init_counter i g w).2 = w_stdout w).
  { intros i g0 w0. unfold init_counter.
    destruct (events g0 !! i); [|done].
    unfold mbind, M_bind, perf_event_open.
    destruct (shead (w_perf_open w0) =? -1); by unfold_M. }
  pose proof (Hstep 0%nat g w) as H0.
  destruct (init_counter 0 g w) as [g1 w1]. cbn [snd] in H0.
  rewrite Hstep. done.
Qed.

Section MainFacts.

Variable align : bool.
Variable u : indeterminate.
Variable methods : list method.
Variable fuel : nat.

Lemma run_test_adds g name validate filename n w :
  exists out,
    w_stdout (run_test g u name (test_utf16le_validate align g) validate
                filename n fuel w).2 = w_stdout w ++ out /\
    (length out <= 1)%nat.
Proof.
  unfold run_test.
  destruct (run_test_loop _ _ _ _ _ _ _ _ _ _ _ _ _) as [r w'] eqn:H.
  apply run_test_loop_stdout in H. cbn [snd].
  destruct (r_status r).
  - exists []. rewrite app_nil_r. split; [done|cbn; lia].
  - exists []. rewrite app_nil_r. split; [done|cbn; lia].
  - eexists [_]. split; [done|cbn; lia].
  - destruct H as (pl & counts & _ & _ & ->). eexists [_].
    split; [done|cbn; lia].
Qed.

Lemma adds_trans w0 w1 w2 j k :
  adds w0 j w1 -> adds w1 k w2 -> adds w0 (j + k) w2.
Proof.
  intros (o1 & H1 & L1) (o2 & H2 & L2). exists (o1 ++ o2).
  rewrite H2, H1, <- app_assoc, length_app. split; [done|lia].
Qed.

Lemma adds_refl w : adds w 0 w.
Proof. exists []. rewrite app_nil_r. split; [done|cbn; lia]. Qed.

Lemma adds_weaken w0 w j k : adds w0 j w -> (j <= k)%nat -> adds w0 k w.
Proof. intros (o & H & L) ?. exists o. split; [done|lia]. Qed.

Lemma run_methods_adds g path len w :
  adds w (length methods) (run_methods align u methods fuel g path len w).2.
Proof.
  unfold run_methods.
  apply (foldl_M_ind
           (fun me : method =>
              _ ← run_test g u (Some me.1) (test_utf16le_validate align g)
                    me.2 path len fuel; mret tt)
           (fun k w' => adds w k w') methods) with (k := 0%nat).
  - intros k me w1 Hk. unfold mbind, M_bind, mret, M_ret.
    destruct (run_test_adds g (Some me.1) me.2 path len w1) as (o & Ho & Lo).
    destruct (run_test _ _ _ _ _ _ _ _ _) as [r w2]. cbn [snd] in *.
    replace (S k) with (k + 1)%nat by lia.
    apply adds_trans with w1; [done|]. by exists o.
  - apply adds_refl.
Qed.

Lemma run_file_adds g path w :
  adds w (length methods) (run_file align u methods fuel g path w).2.
Proof.
  unfold run_file, stat. unfold mbind at 1, M_bind at 1.
  destruct (w_fs w !! path) as [content|]; cbn [fmap option_fmap option_map].
  - apply run_methods_adds.
  - unfold_M. cbn. exists []. rewrite app_nil_r. split; [done|cbn; lia].
Qed.

End MainFacts.



(** X7. [main] only adds lines to the standard output, and at most one
    for each file argument and each method of the table. *)
Theorem main_line_bound (align : bool) (u : indeterminate)
    (methods : list method) (fuel : nat) (argv : list string) (w : world) :
  exists out,
    w_stdout (main align u methods fuel argv w).2 = w_stdout w ++ out /\
    (length out <= (length argv - 1) * length methods)%nat.
Proof.
  unfold main. unfold mbind at 1, M_bind at 1.
  pose proof (init_counters_stdout globals0 w) as Hi.
  destruct (init_counters globals0 w) as [g w1]. cbn [snd] in Hi.
  destruct argv as [|prog [|file files]].
  - unfold_M. cbn. exists []. by rewrite app_nil_r.
  - unfold_M. cbn. exists []. by rewrite app_nil_r.
  - unfold mbind at 1, M_bind at 1.
    pose proof (foldl_M_ind (run_file align u methods fuel g)
                  (fun k w' => adds w1 (k * length methods) w')
                  (file :: files)) as Hf.
    specialize (Hf ltac:(intros k x w0 Hk; cbn [Nat.mul];
                         rewrite Nat.add_comm;
                         eapply adds_trans; [exact Hk|apply run_file_adds])
                   (mret tt) 0%nat w1 (adds_refl w1)).
    cbn beta in Hf.
    match type of Hf with
    | context [foldl ?f ?a ?l ?w0] =>
        destruct (foldl f a l w0) as [[] w2]
    end.
    cbn [snd] in *.
    unfold mret, M_ret. cbn [snd].
    destruct Hf as (out & Ho & Lo). exists out. rewrite Ho, Hi.
    split; [done|]. cbn [length] in *. lia.
Qed.

Lemma init_counters_fs g w : w_fs (init_counters g w).2 = w_fs w.
Proof.
  unfold init_counters.
  change (seq 0 (Z.to_nat EVENT_COUNT)) with [0%nat; 1%nat].
  cbn [foldl]. unfold mbind, M_bind, mret, M_ret.
  assert (Hstep : forall i g w, w_fs (init_counter i g w).2 = w_fs w).
  { intros i g0 w0. unfold init_counter.
    destruct (events g0 !! i); [|done].
    unfold mbind, M_bind, perf_event_open.
    destruct (shead (w_perf_open w0) =? -1); by unfold_M. }
  pose proof (Hstep 0%nat g w) as H0.
  destruct (init_counter 0 g w) as [g1 w1]. cbn [snd] in H0.
  rewrite Hstep. done.
Qed.

Lemma foldl_missing align u methods fuel g files : forall (c0 : M unit) w,
  Forall (fun f => w_fs (c0 w).2 !! f = None) files ->
  let w' := (foldl (fun (c : M unit) (path : string) =>
                      _ ← c; run_file align u methods fuel g path)
               c0 files w).2 in
  w_fs w' = w_fs (c0 w).2 /\ w_stdout w' = w_stdout (c0 w).2 /\
  w_stderr w' = w_stderr (c0 w).2 ++ (Perror <$> files) /\
  w_clock w' = w_clock (c0 w).2.
Proof.
  induction files as [|f files IH]; intros c0 w Hall; cbn [foldl fmap list_fmap].
  - by rewrite app_nil_r.
  - apply Forall_cons in Hall as [Hf Hall].
    set (c1 := (_ ← c0; run_file align u methods fuel g f) : M unit).
    assert (H1 : w_fs (c1 w).2 = w_fs (c0 w).2 /\
                 w_stdout (c1 w).2 = w_stdout (c0 w).2 /\
                 w_stderr (c1 w).2 = w_stderr (c0 w).2 ++ [Perror f] /\
                 w_clock (c1 w).2 = w_clock (c0 w).2).
    { unfold c1, mbind, M_bind. destruct (c0 w) as [[] w1]. cbn [snd] in *.
      unfold run_file, stat, mbind, M_bind. rewrite Hf. by unfold_M. }
    destruct H1 as (E1 & E2 & E3 & E4).
    destruct (IH c1 w) as (F1 & F2 & F3 & F4).
    { rewrite E1. done. }
    rewrite F1, F2, F3, F4, E1, E2, E3, E4, <- app_assoc. done.
Qed.

Lemma init_counters_clock g w : w_clock (init_counters g w).2 = w_clock w.
Proof.
  unfold init_counters.
  change (seq 0 (Z.to_nat EVENT_COUNT)) with [0%nat; 1%nat].
  cbn [foldl]. unfold mbind, M_bind, mret, M_ret.
  assert (Hstep : forall i g w, w_clock (init_counter i g w).2 = w_clock w).
  { intros i g0 w0. unfold init_counter.
    destruct (events g0 !! i); [|done].
    unfold mbind, M_bind, perf_event_open.
    destruct (shead (w_perf_open w0) =? -1); by unfold_M. }
  pose proof (Hstep 0%nat g w) as H0.
  destruct (init_counter 0 g w) as [g1 w1]. cbn [snd] in H0.
  rewrite Hstep. done.
Qed.

(** [main] with a file on the command line. *)
Lemma main_files align u methods fuel prog file files w :
  main align u methods fuel (prog :: file :: files) w
  = (0, (foldl (fun (c : M unit) (path : string) =>
                  _ ← c;
                  run_file align u methods fuel
                    (init_counters globals0 w).1 path)
           (mret tt) (file :: files) (init_counters globals0 w).2).2).
Proof.
  unfold main. unfold mbind at 1, M_bind at 1.
  destruct (init_counters globals0 w) as [g w1]. cbn [fst snd].
  unfold mbind at 1, M_bind at 1.
  match goal with
  | |- context [foldl ?f ?a ?l ?w0] => by destruct (foldl f a l w0) as [[] w2]
  end.
Qed.

(** X8. When none of the files named on the command line exists,
    [main] reports each of them once with [perror], in the order of the
    command line and after the messages of [init_counters]; it prints
    no line, takes no time measurement, and still exits with
    [EXIT_SUCCESS]. *)
Theorem main_missing_files (align : bool) (u : indeterminate)
    (methods : list method) (fuel : nat) (prog : string)
    (files : list string) (w : world) :
  files <> [] ->
  Forall (fun f => w_fs w !! f = None) files ->
  (main align u methods fuel (prog :: files) w).1 = 0 /\
  w_stdout (main align u methods fuel (prog :: files) w).2 = w_stdout w /\
  w_stderr (main align u methods fuel (prog :: files) w).2
  = w_stderr (init_counters globals0 w).2 ++ (Perror <$> files) /\
  w_clock (main align u methods fuel (prog :: files) w).2 = w_clock w.
Proof.
  intros Hne Hall. destruct files as [|file files]; [done|].
  rewrite main_files. cbn [fst snd].
  pose proof (init_counters_stdout globals0 w) as Ho.
  pose proof (init_counters_fs globals0 w) as Hfs.
  pose proof (init_counters_clock globals0 w) as Hclk.
  destruct (foldl_missing align u methods fuel (init_counters globals0 w).1
              (file :: files) (mret tt) (init_counters globals0 w).2)
    as (F1 & F2 & F3 & F4).
  { unfold mret, M_ret. cbn [snd]. by rewrite Hfs. }
  change ((mret tt : M unit) (init_counters globals0 w).2).2
    with (init_counters globals0 w).2 in F1, F2, F3, F4.
  split; [done|]. split; [congruence|]. split; [done|congruence].
Qed.

Lemma main_missing_files_witness :
  ["nofile"%string] <> [] /\
  Forall (fun f => w_fs (Sample.calm [] []) !! f = None) ["nofile"%string] /\
  (main false Sample.u0 [] 0 ["bench"%string; "nofile"%string]
     (Sample.calm [] [])).1 = 0 /\
  w_stdout (main false Sample.u0 [] 0 ["bench"%string; "nofile"%string]
              (Sample.calm [] [])).2 = w_stdout (Sample.calm [] []) /\
  w_stderr (main false Sample.u0 [] 0 ["bench"%string; "nofile"%string]
              (Sample.calm [] [])).2
  = w_stderr (init_counters globals0 (Sample.calm [] [])).2
    ++ (Perror <$> ["nofile"%string]) /\
  w_clock (main false Sample.u0 [] 0 ["bench"%string; "nofile"%string]
             (Sample.calm [] [])).2 = w_clock (Sample.calm [] []).
Proof.
  assert (H1 : ["nofile"%string] <> []) by discriminate.
  assert (H2 : Forall (fun f => w_fs (Sample.calm [] []) !! f = None)
                 ["nofile"%string])
    by (repeat constructor; vm_compute; reflexivity).
  split; [exact H1|]. split; [exact H2|].
  exact (main_missing_files false Sample.u0 [] 0 "bench" ["nofile"%string]
           (Sample.calm [] []) H1 H2).
Defined.

(** ** Failures before the first read *)

Lemma reset_counters_clock g c w :
  w_clock (reset_counters g c w).2 = stail (w_clock w).
Proof.
  unfold reset_counters, clock_gettime, read_group, perror, eprint.
  unfold mbind, M_bind, mret, M_ret, shead. cbn -[Z.eqb].
  destruct (w_clock w 0%nat) as [t|]; cbn -[Z.eqb]; [|done].
  destruct (event_group g =? -1); cbn -[Z.eqb]; [done|].
  by destruct (w_perf w 0%nat).
Qed.

(** The test function when the block or the file cannot be had. *)
Lemma test_cannot_open align g c validate filename n m w :
  shead (w_alloc w) = false \/ shead (w_open w) = false \/
  w_fs w !! filename = None ->
  let r := test_utf16le_validate align g c validate filename n m w in
  r.1 = (-1, c) /\
  w_stdout r.2 = w_stdout w /\
  w_stderr r.2 =
    w_stderr w ++ [Perror (if shead (w_alloc w) then filename
                           else "memory_allocate"%string)] /\
  w_chunk r.2 = w_chunk w /\ w_clock r.2 = w_clock w /\
  w_overflow r.2 = w_overflow w.
Proof.
  intros H. cbn zeta. unfold test_utf16le_validate.
  unfold mbind, M_bind, memory_allocate.
  destruct (shead (w_alloc w)) eqn:Ha; [|by unfold_M].
  unfold open_file. cbn [w_open w_fs set_alloc].
  destruct H as [H|[H|H]]; [done|rewrite H|rewrite H].
  - by unfold_M.
  - destruct (shead (w_open w)); by unfold_M.
Qed.

Lemma loop_body_cannot_open align g name validate filename n m first
    start end_ w s w' :
  is_Some (shead (w_clock w)) ->
  event_group g = -1 \/ is_Some (shead (w_perf w)) ->
  shead (w_alloc w) = false \/ shead (w_open w) = false \/
  w_fs w !! filename = None ->
  loop_body g name (test_utf16le_validate align g) validate filename n
    m first start end_ w = (s, w') ->
  s = SFail /\ w_stdout w' = w_stdout w ++ [OutFail name] /\
  w_stderr w' =
    w_stderr w ++ [Perror (if shead (w_alloc w) then filename
                           else "memory_allocate"%string)] /\
  w_chunk w' = w_chunk w /\ w_clock w' = stail (w_clock w).
Proof.
  intros Hclk Hperf Hfail. unfold loop_body, fail.
  unfold mbind at 1, M_bind at 1.
  pose proof (reset_counters_clock g start w) as Hc.
  destruct (reset_counters g start w) as [[res c] w1] eqn:Hreset.
  cbn [snd] in Hc.
  apply reset_counters_frame in Hreset
    as (Hout & Hfs1 & Ha1 & Ho1 & Hc1 & _ & Herr1 & Hok).
  rewrite (Hok Hclk Hperf) in *. specialize (Herr1 eq_refl).
  cbn [negb Z.eqb]. unfold mbind at 1, M_bind at 1.
  destruct (test_cannot_open align g c validate filename n m w1)
    as (T1 & T2 & T3 & T4 & T5 & _).
  { by rewrite Ha1, Ho1, Hfs1. }
  destruct (test_utf16le_validate _ _ _ _ _ _ _ _) as [[res2 c2] w2].
  cbn [fst snd] in *. injection T1 as -> ->. cbn [negb Z.eqb].
  unfold_M. intros H. simplify_eq. cbn.
  rewrite T2, T3, T4, T5, Ha1. repeat split; congruence.
Qed.

(** X9. When the block cannot be allocated, or the file cannot be
    opened (the counters being readable), [run_test] gives up in its
    first pass: one [perror] naming the allocation or the file, then
    the line [FAIL]; no pass is completed, nothing is read from a
    file, and the clock has been read once. *)
Theorem run_test_cannot_open (align : bool) (g : globals)
    (u : indeterminate) (name : option string) (validate : utf16le_validate)
    (filename : string) (n : Z) (fuel : nat) (w : world) :
  is_Some (shead (w_clock w)) ->
  event_group g = -1 \/ is_Some (shead (w_perf w)) ->
  shead (w_alloc w) = false \/ shead (w_open w) = false \/
  w_fs w !! filename = None ->
  let r := run_test g u name (test_utf16le_validate align g) validate
             filename n (S fuel) w in
  r.1 = {| r_status := Failed; r_passes := [] |} /\
  w_stdout r.2 = w_stdout w ++ [OutFail name] /\
  w_stderr r.2 =
    w_stderr w ++ [Perror (if shead (w_alloc w) then filename
                           else "memory_allocate"%string)] /\
  w_chunk r.2 = w_chunk w /\ w_clock r.2 = stail (w_clock w).
Proof.
  intros Hclk Hperf Hfail. cbn zeta.
  destruct (run_test g u name (test_utf16le_validate align g) validate
              filename n (S fuel) w) as [r w'] eqn:Hrun.
  cbn [fst snd]. unfold run_test in Hrun. cbn [run_test_loop] in Hrun.
  unfold mbind at 1, M_bind at 1 in Hrun.
  destruct (loop_body _ _ _ _ _ _ _ _ _ _ _) as [s w1] eqn:Hs.
  apply loop_body_cannot_open in Hs as (-> & H1 & H2 & H3 & H4); try done.
  unfold_M. by simplify_eq.
Qed.

Lemma run_test_cannot_open_witness :
  is_Some (shead (w_clock (Sample.calm [Sample.at_ 0 0] []))) /\
  let r := run_test Sample.g2 Sample.u0 (Some "ref"%string)
             (test_utf16le_validate false Sample.g2) Sample.accept_all
             "nofile" 4 1 (Sample.calm [Sample.at_ 0 0] []) in
  r.1 = {| r_status := Failed; r_passes := [] |} /\
  w_stdout r.2
  = w_stdout (Sample.calm [Sample.at_ 0 0] [])
    ++ [OutFail (Some "ref"%string)] /\
  w_stderr r.2 =
    w_stderr (Sample.calm [Sample.at_ 0 0] [])
    ++ [Perror (if shead (w_alloc (Sample.calm [Sample.at_ 0 0] []))
                then "nofile"%string else "memory_allocate"%string)] /\
  w_chunk r.2 = w_chunk (Sample.calm [Sample.at_ 0 0] []) /\
  w_clock r.2 = stail (w_clock (Sample.calm [Sample.at_ 0 0] [])).
Proof.
  assert (H1 : is_Some (shead (w_clock (Sample.calm [Sample.at_ 0 0] []))))
    by (vm_compute; eauto).
  assert (H2 : event_group Sample.g2 = -1 \/
               is_Some (shead (w_perf (Sample.calm [Sample.at_ 0 0] []))))
    by (right; vm_compute; eauto).
  assert (H3 : shead (w_alloc (Sample.calm [Sample.at_ 0 0] [])) = false \/
               shead (w_open (Sample.calm [Sample.at_ 0 0] [])) = false \/
               w_fs (Sample.calm [Sample.at_ 0 0] []) !! "nofile"%string
               = None)
    by (right; right; vm_compute; reflexivity).
  split; [exact H1|].
  exact (run_test_cannot_open false Sample.g2 Sample.u0 (Some "ref"%string)
           Sample.accept_all "nofile" 4 0 _ H1 H2 H3).
Defined.

(** ** The block and what the validator is given *)

Lemma allocation_size_round size :
  0 <= size <= SizeT.SIZE_MAX - 63 ->
  allocation_size true size = 64 * ((size + 63) / 64).
Proof.
  unfold SizeT.SIZE_MAX, SizeT.modulus, SizeT.bits.
  change (2 ^ 64) with 18446744073709551616. intros Hs.
  unfold allocation_size, SizeT.add.
  rewrite wrap_small
    by (unfold SizeT.in_range, SizeT.modulus, SizeT.bits; lia).
  apply land_align. lia.
Qed.

(** The size of the block for a file of [n] bytes. *)
Lemma block_size align n :
  0 <= n <= SizeT.SIZE_MAX - 64 ->
  allocation_size align (SizeT.mul (n / 2) 2)
  = if align then 64 * ((n - n mod 2 + 63) / 64) else n - n mod 2.
Proof.
  unfold SizeT.SIZE_MAX, SizeT.modulus, SizeT.bits.
  change (2 ^ 64) with 18446744073709551616. intros Hn.
  pose proof (Z.div_mod n 2 ltac:(lia)) as Hdiv.
  pose proof (Z.mod_pos_bound n 2 ltac:(lia)) as Hmod.
  assert (Hm : SizeT.mul (n / 2) 2 = n - n mod 2).
  { unfold SizeT.mul. rewrite wrap_small; [lia|].
    unfold SizeT.in_range, SizeT.modulus, SizeT.bits. lia. }
  rewrite Hm. destruct align; [|done].
  apply allocation_size_round.
  unfold SizeT.SIZE_MAX, SizeT.modulus, SizeT.bits. lia.
Qed.

(** X10. How far the reads go past the block, when the file has its
    [n] bytes and nothing fails: by [n mod 2] bytes with [malloc], and
    with [ALIGN] by one byte when [n] is one more than a multiple of
    64, not at all otherwise. A file of even length is never read past
    its block. *)
Theorem overrun_extent (align : bool) (g : globals) (c : counters)
    (validate : utf16le_validate) (filename : string) (n m : Z)
    (w : world) (content : list byte) :
  w_fs w !! filename = Some content ->
  0 <= n <= Z.of_nat (length content) ->
  n <= SizeT.SIZE_MAX - 64 ->
  shead (w_alloc w) = true -> shead (w_open w) = true ->
  (forall k, 0 <= w_chunk w k) ->
  w_overflow (test_utf16le_validate align g c validate filename n m w).2
  = w_overflow w
    + (if align then (if n mod 64 =? 1 then 1 else 0) else n mod 2).
Proof.
  intros Hfs Hn Hmax Ha Ho Hk.
  destruct (test_utf16le_validate _ _ _ _ _ _ _ _) as [[res c'] w'] eqn:Ht.
  apply load_overflow with (content := content) in Ht; try done.
  cbn [snd]. rewrite Ht, block_size by lia. f_equal.
  pose proof (Z.div_mod n 2 ltac:(lia)) as Hdiv.
  pose proof (Z.mod_pos_bound n 2 ltac:(lia)) as Hmod.
  destruct align; [|lia].
  pose proof (Z.div_mod (n - n mod 2 + 63) 64 ltac:(lia)) as Hd.
  pose proof (Z.mod_pos_bound (n - n mod 2 + 63) 64 ltac:(lia)) as Hm.
  pose proof (Z.div_mod n 64 ltac:(lia)) as Hd'.
  pose proof (Z.mod_pos_bound n 64 ltac:(lia)) as Hm'.
  pose proof (Z.div_mod (n mod 64) 2 ltac:(lia)) as Hd2.
  pose proof (Z.mod_pos_bound (n mod 64) 2 ltac:(lia)) as Hm2.
  assert (H2 : n mod 2 = (n mod 64) mod 2) by lia.
  destruct (Z.eqb_spec (n mod 64) 1) as [E|N]; lia.
Qed.

Lemma overrun_extent_witness :
  w_fs Sample.w_65 !! "f"%string = Some (replicate 65 x41) /\
  w_overflow (test_utf16le_validate true Sample.g2 Sample.zero
                Sample.accept_all "f" 65 1 Sample.w_65).2
  = w_overflow Sample.w_65
    + (if true then (if 65 mod 64 =? 1 then 1 else 0) else 65 mod 2).
Proof.
  assert (H1 : w_fs Sample.w_65 !! "f"%string = Some (replicate 65 x41))
    by (vm_compute; reflexivity).
  assert (H2 : 0 <= 65 <= Z.of_nat (length (replicate 65 x41)))
    by (vm_compute; split; discriminate).
  assert (H3 : 65 <= SizeT.SIZE_MAX - 64) by (vm_compute; discriminate).
  assert (H4 : shead (w_alloc Sample.w_65) = true) by reflexivity.
  assert (H5 : shead (w_open Sample.w_65) = true) by reflexivity.
  assert (H6 : forall k, 0 <= w_chunk Sample.w_65 k) by (intros k; cbn; lia).
  split; [exact H1|].
  exact (overrun_extent true Sample.g2 Sample.zero Sample.accept_all "f" 65 1
           Sample.w_65 (replicate 65 x41) H1 H2 H3 H4 H5 H6).
Defined.

(** The first [k] code units are made of the first [2 * k] bytes. *)
Lemma units_take k : forall bs,
  take k (units bs) = units (take (2 * k) bs).
Proof.
  induction k as [|k IH]; intros bs.
  - by destruct bs.
  - replace (2 * S k)%nat with (S (S (2 * k))) by lia.
    destruct bs as [|lo [|hi rest]]; [done| |].
    + cbn [units take]. by destruct (2 * k)%nat.
    + cbn [units take]. by rewrite IH.
Qed.

Lemma loaded_units data content n :
  loaded data content n -> 0 <= n -> n - n mod 2 <= buf_size data ->
  take (Z.to_nat (n / 2)) (units (buf_data data))
  = take (Z.to_nat (n / 2)) (units content).
Proof.
  intros [_ Hl] Hn Hs.
  pose proof (Z.div_mod n 2 ltac:(lia)) as Hdiv.
  pose proof (Z.mod_pos_bound n 2 ltac:(lia)) as Hmod.
  rewrite !units_take.
  assert (Hle : (2 * Z.to_nat (n / 2) <= Z.to_nat (n `min` buf_size data))%nat)
    by lia.
  set (a := (2 * Z.to_nat (n / 2))%nat) in *.
  set (b := Z.to_nat (n `min` buf_size data)) in *.
  replace a with (a `min` b)%nat by lia.
  by rewrite <- !take_take, Hl.
Qed.

(** X11. When the test function succeeds on a file that has its [n]
    bytes, the routine was given the first [n / 2] code units of the
    file, low byte first, and the warning is written exactly when
    [m * (v - len)] is not a multiple of [2^64], [v] being what the
    routine returned and [len = n / 2]. A routine that accepts the
    whole buffer is never warned about. *)
Theorem check_is_modular (align : bool) (g : globals) (c c' : counters)
    (validate : utf16le_validate) (filename : string) (n m : Z)
    (w w' : world) (content : list byte) :
  w_fs w !! filename = Some content ->
  0 <= n <= Z.of_nat (length content) ->
  n <= SizeT.SIZE_MAX - 64 ->
  (forall k, 0 <= w_chunk w k) ->
  0 <= m ->
  test_utf16le_validate align g c validate filename n m w = ((0, c'), w') ->
  let len := n / 2 in
  let v := validate (take (Z.to_nat len) (units content)) len in
  w_stderr w' =
    w_stderr w ++ (if (m * (v - len)) mod SizeT.modulus =? 0 then []
                   else [Warning filename]) /\
  (v = len -> w_stderr w' = w_stderr w).
Proof.
  intros Hfs Hn Hmax Hk Hm Ht. cbn zeta.
  destruct (test_check _ _ _ _ _ _ _ _ _ _ _ Hfs Hn Hk Ht)
    as (data & Hl & Hs & He).
  rewrite block_size in Hs by lia.
  assert (Hfit : n - n mod 2 <= buf_size data).
  { rewrite Hs. destruct align; [|lia].
    pose proof (Z.div_mod n 2 ltac:(lia)).
    pose proof (Z.mod_pos_bound n 2 ltac:(lia)).
    pose proof (Z.div_mod (n - n mod 2 + 63) 64 ltac:(lia)).
    pose proof (Z.mod_pos_bound (n - n mod 2 + 63) 64 ltac:(lia)). lia. }
  unfold check_output in He.
  rewrite (loaded_units _ _ _ Hl ltac:(lia) Hfit) in He.
  set (v := validate _ _) in *.
  rewrite validate_sum_closed in He. unfold closed_sum, SizeT.mul in He.
  rewrite Z.max_r in He by lia.
  assert (Hiff : (SizeT.wrap (m * v) =? SizeT.wrap (n / 2 * m))
                 = ((m * (v - n / 2)) mod SizeT.modulus =? 0)).
  { unfold SizeT.wrap.
    destruct (Z.eqb_spec ((m * v) mod SizeT.modulus)
                ((n / 2 * m) mod SizeT.modulus)) as [E|N];
      destruct (Z.eqb_spec ((m * (v - n / 2)) mod SizeT.modulus) 0)
        as [E'|N']; try done; exfalso.
    - apply N'. replace (m * (v - n / 2)) with (m * v - n / 2 * m) by lia.
      by apply Z.cong_iff_0.
    - apply N. apply Z.cong_iff_0.
      by replace (m * v - n / 2 * m) with (m * (v - n / 2)) by lia. }
  rewrite Hiff in He.
  split.
  - rewrite He. by destruct (_ =? 0).
  - intros Ev. rewrite He, Ev, Z.sub_diag, Z.mul_0_r. cbn.
    by rewrite app_nil_r.
Qed.

Lemma check_is_modular_witness :
  w_fs Sample.w_once !! "f"%string = Some Sample.text /\
  let r := test_utf16le_validate false Sample.g2 Sample.zero
             Sample.reject_all "f" 4 3 Sample.w_once in
  let len := 4 / 2 in
  let v := Sample.reject_all (take (Z.to_nat len) (units Sample.text)) len in
  w_stderr r.2 =
    w_stderr Sample.w_once
    ++ (if (3 * (v - len)) mod SizeT.modulus =? 0 then []
        else [Warning "f"]) /\
  (v = len -> w_stderr r.2 = w_stderr Sample.w_once).
Proof.
  assert (H1 : w_fs Sample.w_once !! "f"%string = Some Sample.text)
    by (vm_compute; reflexivity).
  assert (H2 : 0 <= 4 <= Z.of_nat (length Sample.text))
    by (vm_compute; split; discriminate).
  assert (H3 : 4 <= SizeT.SIZE_MAX - 64) by (vm_compute; discriminate).
  assert (H4 : forall k, 0 <= w_chunk Sample.w_once k)
    by (intros k; cbn; lia).
  assert (H5 : 0 <= 3) by lia.
  assert (H6 : test_utf16le_validate false Sample.g2 Sample.zero
                 Sample.reject_all "f" 4 3 Sample.w_once
               = ((0, (test_utf16le_validate false Sample.g2 Sample.zero
                         Sample.reject_all "f" 4 3 Sample.w_once).1.2),
                  (test_utf16le_validate false Sample.g2 Sample.zero
                     Sample.reject_all "f" 4 3 Sample.w_once).2))
    by (vm_compute; reflexivity).
  split; [exact H1|].
  exact (check_is_modular false Sample.g2 Sample.zero _ Sample.reject_all
           "f" 4 3 Sample.w_once _ Sample.text H1 H2 H3 H4 H5 H6).
Defined.

(** ** The elapsed time as a real number *)

Lemma near_add a x y X Y :
  near a x X -> near a y Y -> near a (x + y) (X + Y).
Proof. unfold near. intros [? ?] [? ?]. split; lra. Qed.


(** The sum of two normal doubles. *)
Lemma add_normal lo hi x y :
  normal lo hi x -> normal lo hi y -> -1074 <= lo -> hi <= 969 ->
  normal lo (hi + 2) (add x y) /\
  near ulp1 (value (add x y)) (value x + value y).
Proof.
  intros (mx & ex & -> & Hmx & Hex) (my & ey & -> & Hmy & Hey) Hlo Hhi.
  unfold add. cbn [SFadd]. cbn zeta.
  rewrite !shl_align_value by lia.
  set (ez := Z.min ex ey).
  assert (HA : 0 < 2 ^ (ex - ez) <= 2 ^ (hi - ez)).
  { split; [apply Z.pow_pos_nonneg; lia|apply Z.pow_le_mono_r; lia]. }
  assert (HB : 0 < 2 ^ (ey - ez) <= 2 ^ (hi - ez)).
  { split; [apply Z.pow_pos_nonneg; lia|apply Z.pow_le_mono_r; lia]. }
  assert (HC : 2 ^ (54 + hi - ez) = 2 ^ 53 * 2 * 2 ^ (hi - ez)).
  { replace (54 + hi - ez) with (53 + 1 + (hi - ez)) by lia.
    by rewrite !Z.pow_add_r by lia. }
  assert (Hval : (value (S754_finite false mx ex)
                  + value (S754_finite false my ey)
                  = IZR (Zpos mx * 2 ^ (ex - ez) + Zpos my * 2 ^ (ey - ez))
                    * powerRZ 2 ez)%R).
  { cbn [value cond_Zopp].
    rewrite plus_IZR, !mult_IZR, !IZR_pow2 by lia.
    rewrite Rmult_plus_distr_r, !Rmult_assoc, <- !pow2_add.
    by replace (ex - ez + ez) with ex by lia;
       replace (ey - ez + ez) with ey by lia. }
  rewrite Hval. cbn [cond_Zopp].
  set (A := 2 ^ (ex - ez)) in *. set (B := 2 ^ (ey - ez)) in *.
  set (C := 2 ^ (hi - ez)) in *.
  assert (Hsum : 2 ^ 52 <= Zpos mx * A + Zpos my * B < 2 ^ (54 + hi - ez)).
  { rewrite HC. change (2 ^ 53) with 9007199254740992 in *.
    change (2 ^ 52) with 4503599627370496 in *. nia. }
  destruct (Zpos mx * A + Zpos my * B) as [|p|p] eqn:Hp; try lia.
  cbn [binary_normalize].
  pose proof (size_bounds p) as Hd.
  pose proof (size_le_of_lt p (54 + hi - ez) ltac:(lia) ltac:(lia)) as Hdhi.
  assert (Hdlo : 53 <= Zpos (Pos.size p)).
  { destruct (Z.lt_ge_cases (Zpos (Pos.size p)) 53) as [Hlt|]; [|done].
    assert (2 ^ Zpos (Pos.size p) <= 2 ^ 52)
      by (apply Z.pow_le_mono_r; lia). lia. }
  destruct (binary_round_normal false p ez (Zpos (Pos.size p)))
    as (m' & e' & -> & Hm' & He' & Hn); [lia|done|lia|].
  split; [|done].
  exists m', e'. repeat split; try done; lia.
Qed.

Lemma c1e_9_near : near ulp1 (value c1e_9) (/ 1000000000).
Proof.
  unfold near, ulp1, c1e_9, value. cbn [cond_Zopp].
  change (powerRZ 2 (-82)) with (/ 2 ^ 82)%R.
  replace (2 ^ 82)%R with 4835703278458516698824704%R by lra.
  lra.
Qed.

Lemma add_zero_l lo hi y :
  normal lo hi y -> add (S754_zero false) y = y.
Proof. by intros (m & e & -> & _). Qed.

Lemma add_zero_r lo hi x :
  normal lo hi x -> add x (S754_zero false) = x.
Proof. by intros (m & e & -> & _). Qed.

(** The two terms of [tsdiff]. *)
Lemma nsec_term nsec :
  0 < nsec < 1000000000 ->
  normal (-82) (-16) (mul (of_Z nsec) c1e_9) /\
  near (7 / 2 * ulp1) (value (mul (of_Z nsec) c1e_9))
    (IZR nsec / 1000000000).
Proof.
  intros Hn. destruct (of_Z_normal nsec ltac:(lia)) as [Hnn Hnv].
  destruct (mul_normal _ _ _ _ _ _ Hnn c1e_9_normal ltac:(lia) ltac:(lia))
    as [Hmn Hmv].
  split; [exact Hmn|].
  pose proof ulp1_bounds as Hu.
  assert (Hu2 : (ulp1 <= / 1000)%R) by (unfold ulp1; lra).
  assert (HN : (0 < IZR nsec)%R) by (by apply IZR_lt; lia).
  set (u := ulp1) in *.
  assert (H1 : near (u + u + u * u)
                 (value (of_Z nsec) * value c1e_9)
                 (IZR nsec * / 1000000000))
    by (apply near_mul; [lra|lra|done|done|done|exact c1e_9_near]).
  assert (H2 : near (u + (u + u + u * u) + u * (u + u + u * u))
                 (value (mul (of_Z nsec) c1e_9))
                 (IZR nsec * / 1000000000))
    by (apply near_trans with (value (of_Z nsec) * value c1e_9)%R;
        [nra|done|nra|done|done]).
  eapply near_weaken; [| |exact H2]; [nra|nra].
Qed.

(** The elapsed time, when the clock has not gone backwards. *)
Lemma tsdiff_near start end_ :
  valid_timespec start -> valid_timespec end_ ->
  nanoseconds start <= nanoseconds end_ ->
  (tsdiff start end_ = S754_zero false \/
   normal (-82) 14 (tsdiff start end_)) /\
  near (5 * ulp1) (value (tsdiff start end_))
    (IZR (nanoseconds end_ - nanoseconds start) / 1000000000).
Proof.
  intros Hs He Hmono.
  destruct (tsdiff_borrow _ _ Hs He) as (sec & nsec & -> & Hns & Hsec & Hd).
  assert (Hsec0 : 0 <= sec) by lia.
  rewrite <- Hd. clear Hd.
  assert (Hx : (IZR (sec * 1000000000 + nsec) / 1000000000
                = IZR sec + IZR nsec / 1000000000)%R).
  { rewrite plus_IZR, mult_IZR. field. }
  rewrite Hx. clear Hx.
  pose proof ulp1_bounds as Hu.
  assert (Hu2 : (ulp1 <= / 1000)%R) by (unfold ulp1; lra).
  destruct (Z.eq_dec nsec 0) as [->|Hn0];
    destruct (Z.eq_dec sec 0) as [->|Hs0].
  - split; [by left|]. cbn. unfold near. lra.
  - destruct (of_Z_normal sec ltac:(lia)) as [Hxn Hxv].
    change (mul (of_Z 0) c1e_9) with (S754_zero false).
    rewrite (add_zero_r _ _ _ Hxn).
    split.
    + right. eapply normal_weaken; [done|lia..].
    + replace (IZR sec + 0 / 1000000000)%R with (IZR sec) by lra.
      assert (0 < IZR sec)%R by (apply IZR_lt; lia).
      eapply near_weaken; [| |exact Hxv]; lra.
  - destruct (nsec_term nsec ltac:(lia)) as [Hyn Hyv].
    change (of_Z 0) with (S754_zero false).
    rewrite (add_zero_l _ _ _ Hyn).
    split.
    + right. eapply normal_weaken; [done|lia..].
    + replace (0 + IZR nsec / 1000000000)%R
        with (IZR nsec / 1000000000)%R by lra.
      assert (0 < IZR nsec)%R by (apply IZR_lt; lia).
      eapply near_weaken; [| |exact Hyv]; [|lra].
      apply Rmult_le_pos; lra.
  - destruct (of_Z_normal sec ltac:(lia)) as [Hxn Hxv].
    destruct (nsec_term nsec ltac:(lia)) as [Hyn Hyv].
    destruct (add_normal (-82) 12 (of_Z sec) (mul (of_Z nsec) c1e_9))
      as [Hn Hv]; [eapply normal_weaken; [done|lia..]..|lia|lia|].
    split; [by right|].
    assert (HS : (0 < IZR sec)%R) by (apply IZR_lt; lia).
    assert (HN : (0 < IZR nsec)%R) by (apply IZR_lt; lia).
    assert (HNq : (0 <= IZR nsec / 1000000000)%R)
      by (apply Rmult_le_pos; lra).
    assert (Hxv' : near (7 / 2 * ulp1) (value (of_Z sec)) (IZR sec))
      by (eapply near_weaken; [| |exact Hxv]; lra).
    pose proof (near_add _ _ _ _ _ Hxv' Hyv) as Hsum.
    set (u := ulp1) in *.
    assert (H5 : near (u + 7 / 2 * u + u * (7 / 2 * u))
                   (value (add (of_Z sec) (mul (of_Z nsec) c1e_9)))
                   (IZR sec + IZR nsec / 1000000000))
      by (eapply near_trans; [lra|done|lra|exact Hv|exact Hsum]).
    eapply near_weaken; [| |exact H5]; [lra|nra].
Qed.

(** X12. [tsdiff] of two valid timespecs, the second not before the
    first, is a finite double that is not negative, and as a real
    number it is the exact difference in seconds up to the relative
    error [5 * 2^-52]. *)
Theorem tsdiff_accurate (start end_ : timespec) :
  valid_timespec start -> valid_timespec end_ ->
  nanoseconds start <= nanoseconds end_ ->
  is_finite (tsdiff start end_) = true /\
  ltb (tsdiff start end_) (S754_zero false) = false /\
  near (5 * ulp1) (value (tsdiff start end_))
    (IZR (nanoseconds end_ - nanoseconds start) / 1000000000).
Proof.
  intros Hs He Hmono.
  destruct (tsdiff_near _ _ Hs He Hmono) as [Hz Hn].
  split; [|split; [|done]].
  - by destruct Hz as [->|(m & e & -> & _)].
  - by destruct Hz as [->|(m & e & -> & _)].
Qed.

Lemma tsdiff_accurate_witness :
  valid_timespec {| tv_sec := 0; tv_nsec := 0 |} /\
  is_finite (tsdiff {| tv_sec := 0; tv_nsec := 0 |}
               {| tv_sec := 0; tv_nsec := 600000000 |}) = true /\
  ltb (tsdiff {| tv_sec := 0; tv_nsec := 0 |}
         {| tv_sec := 0; tv_nsec := 600000000 |}) (S754_zero false) = false /\
  near (5 * ulp1)
    (value (tsdiff {| tv_sec := 0; tv_nsec := 0 |}
              {| tv_sec := 0; tv_nsec := 600000000 |}))
    (IZR (nanoseconds {| tv_sec := 0; tv_nsec := 600000000 |}
          - nanoseconds {| tv_sec := 0; tv_nsec := 0 |}) / 1000000000).
Proof.
  assert (H1 : valid_timespec {| tv_sec := 0; tv_nsec := 0 |})
    by (unfold valid_timespec; simpl; lia).
  assert (H2 : valid_timespec {| tv_sec := 0; tv_nsec := 600000000 |})
    by (unfold valid_timespec; simpl; lia).
  assert (H3 : nanoseconds {| tv_sec := 0; tv_nsec := 0 |}
               <= nanoseconds {| tv_sec := 0; tv_nsec := 600000000 |})
    by (vm_compute; discriminate).
  split; [exact H1|].
  exact (tsdiff_accurate _ _ H1 H2 H3).
Defined.

(** ** The printed numbers against the exact elapsed time *)







(** ** Growth of the multiplier *)

Lemma grow_strict m elapsed m' :
  grow m elapsed = Some m' -> 1 <= m < 2 ^ 63 -> m < m'.
Proof.
  unfold grow. intros H Hm. destruct (ltb elapsed _).
  - injection H as <-. unfold SizeT.mul.
    rewrite wrap_small; [lia|]. unfold SizeT.in_range, SizeT.modulus.
    change (2 ^ SizeT.bits) with (2 * 2 ^ 63). lia.
  - destruct (to_size_t _) as [c|]; [|done]. simpl in H.
    injection H as <-. destruct (Z.ltb_spec m c); [lia|].
    unfold SizeT.add. rewrite wrap_small; [lia|].
    unfold SizeT.in_range, SizeT.modulus.
    change (2 ^ SizeT.bits) with (2 * 2 ^ 63). lia.
Qed.

(** X14. Between two consecutive passes of [run_test] the multiplier
    makes progress: after a pass that stayed below the time goal the
    next multiplier is strictly larger (the multiplier being at least
    1 and below [2^63]); the multiplier is kept only after a warm-up
    pass that reached the goal. *)
Theorem multiplier_progress {P : Type} (g : globals) (u : indeterminate)
    (name : option string) (test : testfunc P) (payload : P)
    (filename : string) (n : Z) (fuel : nat) (w w' : world)
    (r : run_result) (i : nat) (p q : pass) :
  run_test g u name test payload filename n fuel w = (r, w') ->
  r_passes r !! i = Some p -> r_passes r !! S i = Some q ->
  1 <= p_m p < 2 ^ 63 ->
  (below p = true -> p_m p < p_m q) /\
  (below p = false -> p_first_run p = true /\ i = 0%nat /\ p_m q = p_m p).
Proof.
  unfold run_test. intros Hrun Hp Hq Hm.
  pose proof (run_test_loop_trace _ _ _ _ _ _ _ _ _ _ _ _ _ _ _ Hrun) as Ht.
  destruct (trace_follows _ _ _ _ Ht i p q Hp Hq)
    as (Hf & [[Hb Hg]|(Hb & Hfirst & Heq)]).
  - split; [|congruence]. intros _. by eapply grow_strict.
  - split; [congruence|]. intros _. split; [done|]. split; [|done].
    destruct i as [|i]; [done|exfalso].
    destruct (r_passes r !! i) as [o|] eqn:Ho.
    + destruct (trace_follows _ _ _ _ Ht i o p Ho Hp) as [Hfp _].
      congruence.
    + apply lookup_ge_None in Ho. apply lookup_lt_Some in Hp. lia.
Qed.

Lemma multiplier_progress_witness :
  1 <= p_m Sample.slow_pass < 2 ^ 63 /\
  (below Sample.slow_pass = true ->
   p_m Sample.slow_pass
   < p_m (default Sample.slow_pass
            (r_passes (Sample.case Sample.accept_all Sample.u0 4 5
                         Sample.w_grow).1 !! 1%nat))) /\
  (below Sample.slow_pass = false ->
   p_first_run Sample.slow_pass = true /\ 0%nat = 0%nat /\
   p_m (default Sample.slow_pass
          (r_passes (Sample.case Sample.accept_all Sample.u0 4 5
                       Sample.w_grow).1 !! 1%nat))
   = p_m Sample.slow_pass).
Proof.
  assert (Hrun : run_test Sample.g2 Sample.u0 (Some "ref"%string)
            (test_utf16le_validate false Sample.g2) Sample.accept_all
            "f" 4 5 Sample.w_grow =
          ((Sample.case Sample.accept_all Sample.u0 4 5 Sample.w_grow).1,
           (Sample.case Sample.accept_all Sample.u0 4 5 Sample.w_grow).2))
    by (vm_compute; reflexivity).
  assert (Hp : r_passes
            (Sample.case Sample.accept_all Sample.u0 4 5 Sample.w_grow).1
            !! 0%nat = Some Sample.slow_pass)
    by (vm_compute; reflexivity).
  assert (Hq : r_passes
            (Sample.case Sample.accept_all Sample.u0 4 5 Sample.w_grow).1
            !! 1%nat
          = Some (default Sample.slow_pass
                    (r_passes (Sample.case Sample.accept_all Sample.u0 4 5
                                 Sample.w_grow).1 !! 1%nat)))
    by (vm_compute; reflexivity).
  assert (Hm : 1 <= p_m Sample.slow_pass < 2 ^ 63) by (cbn; lia).
  split; [exact Hm|].
  exact (multiplier_progress _ _ _ _ _ _ _ _ _ _ _ _ _ _ Hrun Hp Hq Hm).
Defined.

(** *** The conversion of the new multiplier *)

Lemma of_Z_normal_bits z k :
  0 < z < 2 ^ k -> k <= 64 -> normal (-52) (k - 52) (of_Z z).
Proof.
  intros Hz Hk. destruct z as [|p|p]; try lia.
  unfold of_Z. cbn [binary_normalize].
  pose proof (size_bounds p) as Hd.
  assert (0 <= k).
  { destruct (Z.lt_ge_cases k 0) as [Hneg|]; [|done].
    rewrite Z.pow_neg_r in Hz by done. lia. }
  pose proof (size_le_of_lt p k ltac:(lia) ltac:(lia)) as Hdk.
  destruct (binary_round_normal false p 0 (Zpos (Pos.size p)))
    as (m' & e' & -> & Hm' & He' & _); [lia|done|lia|].
  exists m', e'. repeat split; try done; lia.
Qed.

Lemma c2_0_normal : normal (-51) (-51) TIME_GOAL.
Proof. exists 4503599627370496%positive, (-51). repeat split; lia. Qed.

Lemma c1_05_normal : normal (-52) (-52) c1_05.
Proof. exists 4728779608739021%positive, (-52). repeat split; lia. Qed.

(** [ceil] of a positive normal double below [2^64]. *)
Lemma ceil_normal lo x :
  normal lo 11 x -> normal (-52) 11 (ceil x).
Proof.
  intros (m & e & -> & Hm & He). unfold ceil, signed_mantissa.
  cbn [cond_Zopp]. destruct (Z.leb_spec 0 e) as [H0|H0].
  - exists m, e. repeat split; lia.
  - set (k := 2 ^ (- e)).
    assert (Hk : 1 <= k) by (unfold k; apply (Z.pow_le_mono_r 2 0); lia).
    pose proof (Z.div_mod (- Zpos m) k ltac:(lia)) as Hd.
    pose proof (Z.mod_pos_bound (- Zpos m) k ltac:(lia)) as Hmod.
    set (c := - (- Zpos m / k)) in *.
    assert (Hc : 1 <= c <= Zpos m) by (unfold c; nia).
    destruct (Z.eqb_spec c 0); [lia|].
    eapply normal_weaken; [apply (of_Z_normal_bits c 53); lia|lia..].
Qed.

Lemma to_size_t_normal lo x :
  normal lo 11 x -> is_Some (to_size_t x).
Proof.
  intros (m & e & -> & Hm & He). unfold to_size_t, trunc.
  cbn [cond_Zopp]. unfold SizeT.modulus, SizeT.bits.
  change (2 ^ 64) with 18446744073709551616.
  change (2 ^ 53) with 9007199254740992 in Hm.
  destruct (Z.leb_spec 0 e) as [H0|H0].
  - assert (1 <= 2 ^ e <= 2 ^ 11)
      by (split; [apply (Z.pow_le_mono_r 2 0)|apply Z.pow_le_mono_r]; lia).
    change (2 ^ 11) with 2048 in *.
    destruct (Z.leb_spec 0 (Zpos m * 2 ^ e)); [|nia].
    destruct (Z.ltb_spec (Zpos m * 2 ^ e) 18446744073709551616); [|nia].
    by eexists.
  - set (k := 2 ^ (- e)).
    assert (Hk : 1 <= k) by (unfold k; apply (Z.pow_le_mono_r 2 0); lia).
    pose proof (Z.div_mod (Zpos m) k ltac:(lia)) as Hd.
    pose proof (Z.mod_pos_bound (Zpos m) k ltac:(lia)) as Hmod.
    destruct (Z.leb_spec 0 (Zpos m / k)); [|nia].
    destruct (Z.ltb_spec (Zpos m / k) 18446744073709551616); [|nia].
    by eexists.
Qed.

Lemma leb_finite mc ec s m e :
  leb (S754_finite false mc ec) (S754_finite s m e) = true ->
  s = false /\ ec <= e.
Proof.
  unfold leb, SFleb. cbn [SFcompare].
  destruct s; [done|]. intros H. split; [done|].
  destruct (Z.compare_spec ec e); try lia; done.
Qed.

Lemma leb_finite_negative mc ec mx ex :
  leb (S754_finite false mc ec) (binary_round prec emax true mx ex) = false.
Proof.
  unfold binary_round, binary_round_aux.
  destruct (shl_align _ _ _) as [mz ez].
  destruct (shr_fexp prec emax (Zpos mz) ez loc_Exact) as [r1 e1].
  destruct (shr_fexp prec emax _ e1 loc_Exact) as [r2 e2].
  destruct (shr_m r2); [done| |done].
  by destruct (e2 <=? emax - prec).
Qed.

(** A sum that reaches a positive double [c] is normal. *)
Lemma add_leb_normal mc ec x y :
  zero_or_normal (-52) 12 x -> zero_or_normal (-82) (-16) y ->
  leb (S754_finite false mc ec) (add x y) = true ->
  normal ec 14 (add x y).
Proof.
  intros [->|(sx & mx & ex & -> & Hmx & Hex)]
         [->|(sy & my & ey & -> & Hmy & Hey)]; unfold add; cbn [SFadd].
  - done.
  - intros [-> He]%leb_finite. exists my, ey. repeat split; lia.
  - intros [-> He]%leb_finite. exists mx, ex. repeat split; lia.
  - cbn zeta.
    rewrite !shl_align_value by lia.
    set (ez := Z.min ex ey).
    assert (HA : 0 < 2 ^ (ex - ez) <= 2 ^ (12 - ez)).
    { split; [apply Z.pow_pos_nonneg; lia|apply Z.pow_le_mono_r; lia]. }
    assert (HB : 0 < 2 ^ (ey - ez) <= 2 ^ (12 - ez)).
    { split; [apply Z.pow_pos_nonneg; lia|apply Z.pow_le_mono_r; lia]. }
    assert (HC : 2 ^ (66 - ez) = 2 ^ 53 * 2 * 2 ^ (12 - ez)).
    { replace (66 - ez) with (53 + 1 + (12 - ez)) by lia.
      by rewrite !Z.pow_add_r by lia. }
    set (A := 2 ^ (ex - ez)) in *. set (B := 2 ^ (ey - ez)) in *.
    set (C := 2 ^ (12 - ez)) in *.
    assert (Hsum : cond_Zopp sx (Zpos mx * A) + cond_Zopp sy (Zpos my * B)
                   < 2 ^ (66 - ez)).
    { rewrite HC. change (2 ^ 53) with 9007199254740992 in *.
      destruct sx, sy; cbn [cond_Zopp]; nia. }
    destruct (cond_Zopp sx (Zpos mx * A) + cond_Zopp sy (Zpos my * B))
      as [|p|p] eqn:Hp; cbn [binary_normalize].
    + done.
    + intros Hle.
      pose proof (size_bounds p) as Hd.
      pose proof (size_le_of_lt p (66 - ez) ltac:(lia) Hsum) as Hd66.
      destruct (binary_round_normal false p ez (Zpos (Pos.size p)))
        as (m' & e' & Hres & Hm' & He' & _); [lia|done|lia|].
      rewrite Hres in Hle |- *.
      apply leb_finite in Hle as [_ Hle].
      exists m', e'. repeat split; try done; lia.
    + by rewrite leb_finite_negative.
Qed.

(** An elapsed time that is not below half the goal. *)
Lemma tsdiff_half_normal start end_ :
  valid_timespec start -> valid_timespec end_ ->
  ltb (tsdiff start end_) (mul TIME_GOAL c0_5) = false ->
  normal (-52) 14 (tsdiff start end_).
Proof.
  intros Hs He Hlt.
  assert (Hle : leb (mul TIME_GOAL c0_5) (tsdiff start end_) = true).
  { apply ltb_false_leb; [done|by apply tsdiff_not_nan|done]. }
  change (mul TIME_GOAL c0_5)
    with (S754_finite false 4503599627370496 (-52)) in Hle.
  destruct (tsdiff_borrow _ _ Hs He) as (sec & nsec & E & Hns & Hsec & _).
  rewrite E in Hle |- *.
  apply add_leb_normal with (mc := 4503599627370496%positive); [| |done].
  - apply of_Z_zero_or_normal. lia.
  - destruct (Z.eq_dec nsec 0) as [->|Hnz]; [by left|right].
    destruct (nsec_term nsec ltac:(lia)) as [(m & e & -> & Hm & He') _].
    exists false, m, e. repeat split; try done; lia.
Qed.

(** X15. For two valid timespecs and a multiplier from 1 to [2^57 - 1],
    the step that follows a pass below the time goal is defined, the
    conversion of [ceil(m * TIME_GOAL * 1.05 / elapsed)] to [size_t]
    included, and it gives a multiplier that is strictly larger and
    fits in a [size_t]. *)
Theorem grow_defined (start end_ : timespec) (m : Z) :
  valid_timespec start -> valid_timespec end_ ->
  1 <= m < 2 ^ 57 ->
  exists m',
    grow m (tsdiff start end_) = Some m' /\ m < m' /\ SizeT.in_range m'.
Proof.
  intros Hs He Hm.
  assert (Hex : exists m', grow m (tsdiff start end_) = Some m').
  { unfold grow.
    destruct (ltb (tsdiff start end_) (mul TIME_GOAL c0_5)) eqn:Hlt;
      [by eexists|].
    pose proof (tsdiff_half_normal _ _ Hs He Hlt) as Hn.
    pose proof (of_Z_normal_bits m 57 ltac:(lia) ltac:(lia)) as Hmn.
    destruct (mul_normal _ _ _ _ _ _ Hmn c2_0_normal ltac:(lia) ltac:(lia))
      as [H1 _].
    destruct (mul_normal _ _ _ _ _ _ H1 c1_05_normal ltac:(lia) ltac:(lia))
      as [H2 _].
    destruct (div_normal _ _ _ _ _ _ H2 Hn ltac:(lia) ltac:(lia))
      as [H3 _].
    assert (H4 : normal (-52) 11
                   (ceil (div (mul (mul (of_Z m) TIME_GOAL) c1_05)
                            (tsdiff start end_)))).
    { apply ceil_normal with (lo := -52 + -51 + 52 + -52 + 52 - 14 - 53).
      eapply normal_weaken; [exact H3|lia..]. }
    destruct (to_size_t_normal _ _ H4) as [c ->]. by eexists. }
  destruct Hex as [m' Hg]. exists m'. split; [done|]. split.
  - eapply grow_strict; [exact Hg|]. split; [lia|].
    apply Z.lt_trans with (2 ^ 57); [lia|done].
  - by eapply grow_in_range.
Qed.

Lemma grow_defined_witness :
  valid_timespec {| tv_sec := 0; tv_nsec := 0 |} /\
  exists m',
    grow 2 (tsdiff {| tv_sec := 0; tv_nsec := 0 |}
              {| tv_sec := 1; tv_nsec := 500000000 |}) = Some m' /\
    2 < m' /\ SizeT.in_range m'.
Proof.
  assert (H1 : valid_timespec {| tv_sec := 0; tv_nsec := 0 |})
    by (unfold valid_timespec; simpl; lia).
  assert (H2 : valid_timespec {| tv_sec := 1; tv_nsec := 500000000 |})
    by (unfold valid_timespec; simpl; lia).
  assert (H3 : 1 <= 2 < 2 ^ 57) by lia.
  split; [exact H1|].
  exact (grow_defined _ _ 2 H1 H2 H3).
Defined.

(** ** The empty file *)

Lemma div_by_zero x : is_finite (div x (S754_zero false)) = false.
Proof. by destruct x as [s|s| |s m e]. Qed.

Lemma bytes_product_zero m :
  SizeT.in_range m -> mul (of_Z 0) (of_Z m) = S754_zero false.
Proof.
  intros Hm. change (of_Z 0) with (S754_zero false).
  apply (mul_zero_l (-52) 12).
  destruct (of_Z_cases m Hm) as [[_ ->]|(_ & H & _)]; [by left|by right].
Qed.

(** X16. When [run_test] prints a result line for an empty file
    ([n = 0]), the two measurement points of the last pass holding
    valid timespecs, the MB/s column is exactly [+0], and the cy/B and
    ins/B columns, when they are printed, are quotients by zero:
    neither is a finite number. *)
Theorem empty_file_report {P : Type} (g : globals) (u : indeterminate)
    (name : option string) (test : testfunc P) (payload : P)
    (filename : string) (fuel : nat) (w w' : world) (r : run_result) :
  run_test g u name test payload filename 0 fuel w = (r, w') ->
  r_status r = Reported ->
  (forall p, last (r_passes r) = Some p ->
     valid_timespec (ts (p_start p)) /\ valid_timespec (ts (p_end p))) ->
  exists pl counts ln,
    last (r_passes r) = Some pl /\
    counts_of g u pl = Some counts /\
    ln = line_of g name filename 0 counts pl /\
    last (w_stdout w') = Some (OutLine ln) /\
    l_MBps ln = S754_zero false /\
    (forall cyB insB ipc,
       l_hw ln = Some (cyB, insB, ipc) ->
       is_finite cyB = false /\ is_finite insB = false).
Proof.
  unfold run_test. intros Hrun Hst Hvalid.
  pose proof (run_test_loop_trace _ _ _ _ _ _ _ _ _ _ _ _ _ _ _ Hrun) as Ht.
  pose proof (trace_in_range _ _ _ _ Ht one_in_range) as Hr.
  rewrite Hst in Ht.
  destruct (trace_reported_last _ _ _ _ Ht eq_refl) as (pl & Hl & Hb & _).
  destruct (run_test_loop_reported _ _ _ _ _ _ _ _ _ _ _ _ _ _ _ Hrun Hst)
    as (pl' & counts & Hl' & Hc & Ho).
  rewrite Hl in Hl'. injection Hl' as <-.
  destruct (Hvalid _ Hl) as [Hs He].
  assert (Hm : SizeT.in_range (p_m pl)).
  { rewrite Forall_forall in Hr. by apply Hr, last_Some_elem_of. }
  assert (Hle : leb TIME_GOAL (p_elapsed pl) = true).
  { apply ltb_false_leb; [exact Hb| |done]. by apply tsdiff_not_nan. }
  pose proof (tsdiff_normal _ _ Hs He Hle) as Hnorm.
  destruct (format_line_metrics g counts (p_elapsed pl) name filename 0
              (p_m pl)) as (Hlm & Hns & Hmb).
  exists pl, counts, (line_of g name filename 0 counts pl).
  unfold line_of. do 4 (split; [done|]). split.
  - rewrite Hmb. change (of_Z 0) with (S754_zero false).
    rewrite (mul_zero_r _ _ _ c1e_6_normal).
    rewrite (mul_zero_l (-52) 12).
    + by apply (div_zero_l (-51) 14).
    + destruct (of_Z_cases (p_m pl) Hm) as [[_ ->]|(_ & H & _)];
        [by left|by right].
  - intros cyB insB ipc. unfold format_line.
    destruct name as [[|ch rest]|]; cbn [l_hw];
      (destruct (num_counters g =? EVENT_COUNT); [|done]);
      rewrite (bytes_product_zero _ Hm); intros [= <- <- <-];
      by rewrite !div_by_zero.
Qed.

Lemma empty_file_report_witness :
  r_status (Sample.case Sample.accept_all Sample.u0 0 5 Sample.w_fast).1
    = Reported /\
  exists pl counts ln,
    last (r_passes
            (Sample.case Sample.accept_all Sample.u0 0 5 Sample.w_fast).1)
      = Some pl /\
    counts_of Sample.g2 Sample.u0 pl = Some counts /\
    ln = line_of Sample.g2 (Some "ref"%string) "f" 0 counts pl /\
    last (w_stdout
            (Sample.case Sample.accept_all Sample.u0 0 5 Sample.w_fast).2)
      = Some (OutLine ln) /\
    l_MBps ln = S754_zero false /\
    (forall cyB insB ipc,
       l_hw ln = Some (cyB, insB, ipc) ->
       is_finite cyB = false /\ is_finite insB = false).
Proof.
  assert (Hrun : run_test Sample.g2 Sample.u0 (Some "ref"%string)
            (test_utf16le_validate false Sample.g2) Sample.accept_all
            "f" 0 5 Sample.w_fast =
          ((Sample.case Sample.accept_all Sample.u0 0 5 Sample.w_fast).1,
           (Sample.case Sample.accept_all Sample.u0 0 5 Sample.w_fast).2))
    by (vm_compute; reflexivity).
  assert (Hst : r_status
            (Sample.case Sample.accept_all Sample.u0 0 5 Sample.w_fast).1
            = Reported)
    by (vm_compute; reflexivity).
  assert (Hvalid : forall p,
            last (r_passes
              (Sample.case Sample.accept_all Sample.u0 0 5 Sample.w_fast).1)
            = Some p ->
            valid_timespec (ts (p_start p)) /\
            valid_timespec (ts (p_end p))).
  { intros p Hp. vm_compute in Hp. injection Hp as <-.
    unfold valid_timespec. simpl. lia. }
  split; [exact Hst|].
  exact (empty_file_report _ _ _ _ _ _ _ _ _ _ Hrun Hst Hvalid).
Defined.



(** ** What a pass measures *)

Lemma read_loop_clock filename content n fuel : forall rem data w,
  w_clock (read_loop fuel filename content n rem data w).2 = w_clock w.
Proof.
  induction fuel as [|fuel IH]; intros rem data w; [done|].
  cbn [read_loop]. destruct (0 <? rem); [|done].
  unfold mbind at 1, M_bind at 1.
  assert (Hs : w_clock (sys_read content (n - rem) rem w).2 = w_clock w)
    by (unfold sys_read; by destruct (_ <? 0)).
  destruct (sys_read content (n - rem) rem w) as [[count bs] w1].
  cbn [snd] in Hs.
  destruct (count <? 0); [by unfold_M|].
  destruct (count =? 0); [by unfold_M|].
  unfold mbind, M_bind, store_bytes. rewrite IH. done.
Qed.

(** A successful call of the test function reads the clock once, after
    the file has been loaded, and hands that reading back in [*c]. *)
Lemma test_clock align g c validate filename n m w c' w' :
  test_utf16le_validate align g c validate filename n m w = ((0, c'), w') ->
  shead (w_clock w) = Some (ts c') /\ w_clock w' = stail (w_clock w).
Proof.
  unfold test_utf16le_validate.
  unfold mbind at 1, M_bind at 1, memory_allocate.
  destruct (shead (w_alloc w)); [|unfold_M; intros H; by simplify_eq].
  unfold mbind at 1, M_bind at 1, open_file. cbn [w_open w_fs set_alloc].
  destruct (if shead (w_open w) then _ else _) as [content|];
    [|unfold_M; intros H; by simplify_eq].
  unfold mbind at 1, M_bind at 1.
  match goal with
  | |- context [read_loop ?f ?a ?b ?c0 ?d ?e ?w0] =>
      pose proof (read_loop_clock a b c0 f d e w0) as Hr;
      destruct (read_loop f a b c0 d e w0) as [[r data] w1]
  end.
  cbn [snd] in Hr. cbn [w_clock set_open set_alloc] in Hr.
  destruct (negb (r =? 0)); [unfold_M; intros H; by simplify_eq|].
  unfold mbind at 1, M_bind at 1.
  pose proof (reset_counters_clock g c w1) as Hc.
  assert (Hts : forall res c1 w2,
            reset_counters g c w1 = ((res, c1), w2) -> res = 0 ->
            shead (w_clock w1) = Some (ts c1)).
  { intros res c1 w2. unfold reset_counters, clock_gettime, read_group.
    unfold mbind, M_bind, mret, M_ret, perror, eprint.
    destruct (shead (w_clock w1)) as [t|]; [|intros H; by simplify_eq].
    destruct (negb (event_group g =? -1)); [|intros H; by simplify_eq].
    cbn. destruct (_ <$> _); intros H; by simplify_eq. }
  destruct (reset_counters g c w1) as [[res c1] w2] eqn:Hreset.
  cbn [snd] in Hc. specialize (Hts _ _ _ eq_refl).
  destruct (Z.eqb_spec res 0) as [->|]; cbn [negb];
    [|unfold_M; intros H; by simplify_eq].
  specialize (Hts eq_refl). cbn zeta.
  destruct (negb _); unfold_M; intros H; simplify_eq; cbn;
    rewrite <- Hr; by split.
Qed.

Lemma reset_counters_ts g c w c' w' :
  reset_counters g c w = ((0, c'), w') -> shead (w_clock w) = Some (ts c').
Proof.
  unfold reset_counters, clock_gettime, read_group.
  unfold mbind, M_bind, mret, M_ret, perror, eprint.
  destruct (shead (w_clock w)) as [t|]; [|intros H; by simplify_eq].
  destruct (negb (event_group g =? -1)); [|intros H; by simplify_eq].
  cbn. destruct (_ <$> _); intros H; by simplify_eq.
Qed.

Section Measure.

Variable align : bool.
Variable g : globals.
Variable u : indeterminate.
Variable name : option string.
Variable validate : utf16le_validate.
Variable filename : string.
Variable n : Z.

Lemma loop_body_clock m first start end_ w s w' p :
  loop_body g name (test_utf16le_validate align g) validate filename n
    m first start end_ w = (s, w') ->
  s = SUndefined p \/ (exists m', s = SAgain m' p) \/ s = SBreak p ->
  w_clock w 1%nat = Some (ts (p_start p)) /\
  w_clock w 2%nat = Some (ts (p_end p)) /\
  w_clock w' = stail (stail (stail (w_clock w))).
Proof.
  unfold loop_body, fail.
  unfold mbind at 1, M_bind at 1.
  pose proof (reset_counters_clock g start w) as H1.
  destruct (reset_counters g start w) as [[res c] w1]. cbn [snd] in H1.
  destruct (negb (res =? 0));
    [unfold_M; intros H [?|[[? ?]|?]]; by simplify_eq|].
  unfold mbind at 1, M_bind at 1.
  destruct (test_utf16le_validate _ _ _ _ _ _ _ _) as [[res2 c2] w2] eqn:Ht.
  destruct (Z.eqb_spec res2 0) as [->|]; cbn [negb];
    [|unfold_M; intros H [?|[[? ?]|?]]; by simplify_eq].
  apply test_clock in Ht as [Ht1 Ht2].
  unfold mbind at 1, M_bind at 1.
  pose proof (reset_counters_clock g end_ w2) as H3.
  destruct (reset_counters g end_ w2) as [[res3 c3] w3] eqn:Hr3.
  cbn [snd] in H3.
  destruct (Z.eqb_spec res3 0) as [->|]; cbn [negb];
    [|unfold_M; intros H [?|[[? ?]|?]]; by simplify_eq].
  apply reset_counters_ts in Hr3.
  rewrite H1 in Ht1, Ht2. rewrite Ht2 in Hr3, H3.
  cbn zeta. intros H Hs.
  assert (Hp : p = {| p_m := m; p_first_run := first;
                      p_start := c2; p_end := c3 |}).
  { revert H. destruct (ltb _ _).
    - destruct (grow _ _); unfold_M; intros H;
        destruct Hs as [?|[[? ?]|?]]; by simplify_eq.
    - destruct first; unfold_M; intros H;
        destruct Hs as [?|[[? ?]|?]]; by simplify_eq. }
  assert (Hw : w' = w3).
  { revert H. destruct (ltb _ _).
    - destruct (grow _ _); unfold_M; intros H; by simplify_eq.
    - destruct first; unfold_M; intros H; by simplify_eq. }
  subst p w'. cbn [p_start p_end]. by repeat split.
Qed.

Lemma run_test_loop_clock fuel : forall m first start end_ w r w' i p,
  run_test_loop g u name (test_utf16le_validate align g) validate
    filename n fuel m first start end_ w = (r, w') ->
  r_passes r !! i = Some p ->
  w_clock w (3 * i + 1)%nat = Some (ts (p_start p)) /\
  w_clock w (3 * i + 2)%nat = Some (ts (p_end p)).
Proof.
  induction fuel as [|fuel IH]; intros m first start end_ w r w' i p H Hi.
  { cbn in H. unfold_M. by simplify_eq. }
  cbn [run_test_loop] in H. unfold mbind at 1, M_bind at 1 in H.
  destruct (loop_body _ _ _ _ _ _ _ _ _ _ _) as [s w1] eqn:Hs.
  destruct s as [|q|m' q|q].
  - unfold_M. by simplify_eq.
  - unfold_M. simplify_eq. cbn in Hi.
    destruct i as [|i]; cbn in Hi; [|done]. simplify_eq.
    destruct (loop_body_clock _ _ _ _ _ _ _ p Hs) as (E1 & E2 & _);
      [by left|]. exact (conj E1 E2).
  - unfold mbind, M_bind, mret, M_ret in H.
    destruct (run_test_loop _ _ _ _ _ _ _ _ _ _ _ _ _) as [r1 w2] eqn:Hr.
    simplify_eq. cbn [add_pass r_passes] in Hi.
    destruct (loop_body_clock _ _ _ _ _ _ _ q Hs) as (Hc1 & Hc2 & Hc3);
      [right; left; by eexists|].
    destruct i as [|i].
    + cbn in Hi. simplify_eq. exact (conj Hc1 Hc2).
    + cbn in Hi. destruct (IH _ _ _ _ _ _ _ _ _ Hr Hi) as [E1 E2].
      rewrite Hc3 in E1, E2. unfold stail in E1, E2.
      replace (3 * S i + 1)%nat with (S (S (S (3 * i + 1)))) by lia.
      replace (3 * S i + 2)%nat with (S (S (S (3 * i + 2)))) by lia.
      done.
  - unfold mbind, M_bind, mret, M_ret in H.
    destruct (print_results _ _ _ _ _ _ _ _ _) as [ok w2].
    simplify_eq. cbn in Hi.
    destruct i as [|i]; cbn in Hi; [|done]. simplify_eq.
    destruct (loop_body_clock _ _ _ _ _ _ _ p Hs) as (E1 & E2 & _);
      [by right; right|]. exact (conj E1 E2).
Qed.

End Measure.

(** X18. In a run of [run_test] on the file test, every pass reads the
    clock three times, and the time it measures is the time between
    the last two readings: the first measurement point of the pass is
    the reading taken after the file has been loaded, so that loading
    the file is not part of the elapsed time. *)
Theorem pass_measures_after_load (align : bool) (g : globals)
    (u : indeterminate) (name : option string) (validate : utf16le_validate)
    (filename : string) (n : Z) (fuel : nat) (w w' : world)
    (r : run_result) (i : nat) (p : pass) :
  run_test g u name (test_utf16le_validate align g) validate filename n
    fuel w = (r, w') ->
  r_passes r !! i = Some p ->
  exists t1 t2,
    w_clock w (3 * i + 1)%nat = Some t1 /\
    w_clock w (3 * i + 2)%nat = Some t2 /\
    p_elapsed p = tsdiff t1 t2.
Proof.
  unfold run_test. intros Hrun Hp.
  destruct (run_test_loop_clock _ _ _ _ _ _ _ _ _ _ _ _ _ _ _ _ _ Hrun Hp)
    as [H1 H2].
  by exists (ts (p_start p)), (ts (p_end p)).
Qed.

Lemma pass_measures_after_load_witness :
  exists t1 t2,
    w_clock Sample.w_grow (3 * 0 + 1)%nat = Some t1 /\
    w_clock Sample.w_grow (3 * 0 + 2)%nat = Some t2 /\
    p_elapsed Sample.slow_pass = tsdiff t1 t2.
Proof.
  assert (Hrun : run_test Sample.g2 Sample.u0 (Some "ref"%string)
            (test_utf16le_validate false Sample.g2) Sample.accept_all
            "f" 4 5 Sample.w_grow =
          ((Sample.case Sample.accept_all Sample.u0 4 5 Sample.w_grow).1,
           (Sample.case Sample.accept_all Sample.u0 4 5 Sample.w_grow).2))
    by (vm_compute; reflexivity).
  assert (Hp : r_passes
            (Sample.case Sample.accept_all Sample.u0 4 5 Sample.w_grow).1
            !! 0%nat = Some Sample.slow_pass)
    by (vm_compute; reflexivity).
  exact (pass_measures_after_load _ _ _ _ _ _ _ _ _ _ _ _ _ Hrun Hp).
Defined.

(** ** Staying inside the block *)

Lemma read_loop_inside filename content n fuel : forall rem data w,
  0 <= rem <= n -> n <= buf_size data ->
  w_overflow (read_loop fuel filename content n rem data w).2
  = w_overflow w.
Proof.
  induction fuel as [|fuel IH]; intros rem data w Hrem Hsize; [done|].
  cbn [read_loop]. destruct (Z.ltb_spec 0 rem) as [Hpos|]; [|done].
  unfold mbind at 1, M_bind at 1.
  destruct (sys_read content (n - rem) rem w) as [[count bs] w1] eqn:Hs.
  apply sys_read_spec in Hs as [-> Hs].
  destruct Hs as [(Hneg & -> & ->)|(Hchunk & Hcount & Hbs)].
  { by unfold_M. }
  destruct (Z.ltb_spec count 0) as [|Hc0]; [by unfold_M|].
  destruct (Z.eqb_spec count 0) as [|Hc1]; [by unfold_M|].
  unfold mbind, M_bind, store_bytes. rewrite IH; cbn [buf_size]; [|lia..].
  cbn [w_overflow set_overflow set_chunk].
  assert (Hlen : (length bs <= Z.to_nat count)%nat)
    by (rewrite Hbs, length_take; lia).
  replace (length bs - Z.to_nat (buf_size data - (n - rem)))%nat
    with 0%nat by lia.
  lia.
Qed.

Lemma reset_counters_overflow g c w :
  w_overflow (reset_counters g c w).2 = w_overflow w.
Proof.
  destruct (reset_counters g c w) as [[res c'] w'] eqn:H.
  by apply reset_counters_frame in H as (_ & _ & _ & _ & _ & H & _).
Qed.

Lemma test_inside align g c validate filename n m w :
  0 <= n <= allocation_size align (SizeT.mul (n / 2) 2) ->
  w_overflow (test_utf16le_validate align g c validate filename n m w).2
  = w_overflow w.
Proof.
  intros Hn. unfold test_utf16le_validate.
  unfold mbind at 1, M_bind at 1, memory_allocate.
  destruct (shead (w_alloc w)); [|by unfold_M].
  unfold mbind at 1, M_bind at 1, open_file. cbn [w_open w_fs set_alloc].
  destruct (if shead (w_open w) then _ else _) as [content|];
    [|by unfold_M].
  unfold mbind at 1, M_bind at 1.
  match goal with
  | |- context [read_loop ?f ?a ?b ?c0 ?d ?e ?w0] =>
      pose proof (read_loop_inside a b c0 f d e w0 ltac:(lia)
                    ltac:(cbn [buf_size]; lia)) as Hr;
      destruct (read_loop f a b c0 d e w0) as [[r data] w1]
  end.
  cbn [snd] in Hr. cbn [w_overflow set_open set_alloc] in Hr.
  destruct (negb (r =? 0)); [by unfold_M|].
  unfold mbind at 1, M_bind at 1.
  pose proof (reset_counters_overflow g c w1) as Hc.
  destruct (reset_counters g c w1) as [[res c1] w2]. cbn [snd] in Hc.
  destruct (negb (res =? 0)); [unfold_M; cbn; congruence|].
  cbn zeta. destruct (negb _); unfold_M; cbn; congruence.
Qed.

Section Inside.

Variable align : bool.
Variable g : globals.
Variable u : indeterminate.
Variable name : option string.
Variable validate : utf16le_validate.
Variable filename : string.
Variable n : Z.
Hypothesis fits : 0 <= n <= allocation_size align (SizeT.mul (n / 2) 2).

Lemma loop_body_inside m first start end_ w :
  w_overflow (loop_body g name (test_utf16le_validate align g) validate
                filename n m first start end_ w).2 = w_overflow w.
Proof.
  unfold loop_body, fail.
  unfold mbind at 1, M_bind at 1.
  pose proof (reset_counters_overflow g start w) as H1.
  destruct (reset_counters g start w) as [[res c] w1]. cbn [snd] in H1.
  destruct (negb (res =? 0)); [unfold_M; cbn; congruence|].
  unfold mbind at 1, M_bind at 1.
  pose proof (test_inside align g c validate filename n m w1 fits) as H2.
  destruct (test_utf16le_validate _ _ _ _ _ _ _ _) as [[res2 c2] w2].
  cbn [snd] in H2.
  destruct (negb (res2 =? 0)); [unfold_M; cbn; congruence|].
  unfold mbind at 1, M_bind at 1.
  pose proof (reset_counters_overflow g end_ w2) as H3.
  destruct (reset_counters g end_ w2) as [[res3 c3] w3]. cbn [snd] in H3.
  destruct (negb (res3 =? 0)); [unfold_M; cbn; congruence|].
  cbn zeta. destruct (ltb _ _).
  - destruct (grow _ _); unfold_M; cbn; congruence.
  - destruct first; unfold_M; cbn; congruence.
Qed.

Lemma run_test_loop_inside fuel : forall m first start end_ w,
  w_overflow (run_test_loop g u name (test_utf16le_validate align g)
                validate filename n fuel m first start end_ w).2
  = w_overflow w.
Proof.
  induction fuel as [|fuel IH]; intros m first start end_ w; [done|].
  cbn [run_test_loop]. unfold mbind at 1, M_bind at 1.
  pose proof (loop_body_inside m first start end_ w) as Hb.
  destruct (loop_body _ _ _ _ _ _ _ _ _ _ _) as [s w1]. cbn [snd] in Hb.
  destruct s as [|p|m' p|p].
  - by unfold_M.
  - by unfold_M.
  - unfold mbind, M_bind, mret, M_ret.
    specialize (IH m' false (p_start p) (p_end p) w1).
    destruct (run_test_loop _ _ _ _ _ _ _ _ _ _ _ _ _) as [r1 w2].
    cbn [snd] in *. congruence.
  - unfold mbind, M_bind, mret, M_ret, print_results.
    destruct (counterdiff _ _ _ _ _); unfold_M; cbn; congruence.
Qed.

End Inside.

(** X19. For a declared length [n] that is even, [run_test] on the
    file test never stores a byte past the end of a block, whatever
    the environment does (short reads, failures, a file longer or
    shorter than [n]) and however many passes it makes. *)
Theorem even_length_stays_inside (align : bool) (g : globals)
    (u : indeterminate) (name : option string) (validate : utf16le_validate)
    (filename : string) (n : Z) (fuel : nat) (w : world) :
  0 <= n <= SizeT.SIZE_MAX - 64 -> n mod 2 = 0 ->
  w_overflow (run_test g u name (test_utf16le_validate align g) validate
                filename n fuel w).2 = w_overflow w.
Proof.
  intros Hn Heven. unfold run_test. apply run_test_loop_inside.
  rewrite block_size by done. rewrite Heven.
  destruct align; [|lia].
  pose proof (Z.div_mod (n - 0 + 63) 64 ltac:(lia)).
  pose proof (Z.mod_pos_bound (n - 0 + 63) 64 ltac:(lia)). lia.
Qed.

Lemma even_length_stays_inside_witness :
  0 <= 4 <= SizeT.SIZE_MAX - 64 /\
  w_overflow (run_test Sample.g2 Sample.u0 (Some "ref"%string)
                (test_utf16le_validate true Sample.g2) Sample.accept_all
                "f" 4 5 Sample.w_grow).2 = w_overflow Sample.w_grow.
Proof.
  assert (H1 : 0 <= 4 <= SizeT.SIZE_MAX - 64)
    by (vm_compute; split; discriminate).
  assert (H2 : 4 mod 2 = 0) by reflexivity.
  split; [exact H1|].
  exact (even_length_stays_inside true Sample.g2 Sample.u0
           (Some "ref"%string) Sample.accept_all "f" 4 5 Sample.w_grow
           H1 H2).
Defined.
